(** * Criteo MAPI Node.js client: the authenticated-request pipeline

    A shallow embedding of [lib/mapi.js] (client version 0.9.3; version
    0.8.1 has the same pipeline and differs only in the argument list it
    hands to the transport).  The embedding covers

    - the credential check [checkAuthentication],
    - the pipeline [mapiRequest] with [authenticate], [executeRequest],
      [decideWhetherToRequeue], [resolveRequest] and [rejectRequest],
    - the response handlers [processAuth], [process], [parseJSON],
      [parseResponse] and [saveToFile].

    JavaScript strings are modelled by [string]; a character is one code
    unit below 256 (the Latin-1 range).  Promises are modelled by their
    final state; the handlers of one request run one after the other, so a
    chain [p.then(f).catch(g)] is a sequential composition. *)

From Stdlib Require Import String Ascii List ZArith NArith Bool Lia.
From Stdlib Require Import DecimalString.
From stdpp Require Import gmap strings.

Local Open Scope string_scope.
Local Open Scope Z_scope.

(** ** JavaScript strings *)

Module JsString.

(** [WhiteSpace] and [LineTerminator] code units below 256, the ones
    [String.prototype.trim] strips: TAB, LF, VT, FF, CR, SP and NBSP. *)
Definition is_whitespace (c : ascii) : bool :=
  match N_of_ascii c with
  | 9%N | 10%N | 11%N | 12%N | 13%N | 32%N | 160%N => true
  | _ => false
  end.

Fixpoint trimStart (s : string) : string :=
  match s with
  | EmptyString => EmptyString
  | String c t => if is_whitespace c then trimStart t else s
  end.

Fixpoint trimEnd (s : string) : string :=
  match s with
  | EmptyString => EmptyString
  | String c t =>
      match trimEnd t with
      | EmptyString => if is_whitespace c then EmptyString else String c EmptyString
      | t' => String c t'
      end
  end.

(** [s.trim()] *)
Definition trim (s : string) : string := trimEnd (trimStart s).

(** [s.indexOf(needle)]: the first position of [needle] in [s], or -1. *)
Definition indexOf (needle s : string) : Z :=
  match String.index 0 needle s with
  | Some n => Z.of_nat n
  | None => -1
  end.

Definition is_digit (c : ascii) : bool :=
  (48 <=? N_of_ascii c)%N && (N_of_ascii c <=? 57)%N.

(** [s.match(/20[0-9]/) !== null]: the pattern is not anchored, so it is
    searched for at every position of [s]. *)
Fixpoint match_20x (s : string) : bool :=
  match s with
  | EmptyString => false
  | String c t =>
      match c, t with
      | "2"%char, String "0"%char (String d _) => is_digit d || match_20x t
      | _, _ => match_20x t
      end
  end.

(** [n.toString()] for a non-negative integer. *)
Definition N_toString (n : N) : string := NilZero.string_of_uint (N.to_uint n).

(** Truthiness of a string: [if (s)]. *)
Definition nonempty (s : string) : bool :=
  match s with EmptyString => false | _ => true end.

End JsString.
Import JsString.

(** ** JavaScript values *)

(** A JSON document as [JSON.parse] returns it.  A number is kept as the
    literal that denotes it (IEEE-754 rounding is not modelled), an object
    as its members in source order; reading a property takes the last
    member of that name, as a later duplicate key overrides an earlier
    one. *)
#[local] Set Warnings "-register-all".
Inductive json : Type :=
| JNull
| JBool (b : bool)
| JNum (literal : string)
| JStr (s : string)
| JArr (items : list json)
| JObj (members : list (string * json)).
#[local] Set Warnings "register-all".

(** The values that flow through the pipeline: [undefined] or data. *)
Inductive jsval : Type :=
| VUndefined
| VData (j : json).

Definition VTrue : jsval := VData (JBool true).
Definition VString (s : string) : jsval := VData (JStr s).

(** An error object: [name] and [message] of an [Error] instance. *)
Record jserror : Type := MkError { err_name : string; err_message : string }.

(** [new Error(msg)] *)
Definition Error (msg : string) : jserror := MkError "Error" msg.

(** [Error.prototype.toString] *)
Definition error_toString (e : jserror) : string :=
  match err_name e, err_message e with
  | EmptyString, m => m
  | n, EmptyString => n
  | n, m => n ++ ": " ++ m
  end.

(** What a promise is rejected with: nothing ([reject()]) or an error. *)
Inductive reason : Type :=
| NoReason
| Thrown (e : jserror).

(** The final state of a promise.  [Pending] is a promise that is never
    settled. *)
Inductive promise : Type :=
| Resolved (v : jsval)
| Rejected (e : reason)
| Pending.

(** The [resolve]/[reject] pair of a promise under construction: the first
    call settles it, later calls are ignored. *)
Definition cell := option promise.

Definition settle (c : cell) (p : promise) : cell :=
  match c with
  | None => Some p
  | Some _ => c
  end.

Definition promise_of (c : cell) : promise :=
  match c with
  | Some p => p
  | None => Pending
  end.

(** Property lookup [o[k]] on the members of an object. *)
Fixpoint get_member (k : string) (ms : list (string * json)) : jsval :=
  match ms with
  | nil => VUndefined
  | (k', v) :: rest =>
      match get_member k rest with
      | VUndefined => if String.eqb k k' then VData v else VUndefined
      | found => found
      end
  end.

(** The digits of the mantissa of a numeric literal are all zero. *)
Fixpoint literal_is_zero (s : string) : bool :=
  match s with
  | EmptyString => true
  | String c t =>
      if (Ascii.eqb c "e" || Ascii.eqb c "E")%bool then true
      else if (is_digit c && negb (Ascii.eqb c "0"))%bool then false
      else literal_is_zero t
  end.

(** Truthiness: [if (v)]. *)
Definition truthy (v : jsval) : bool :=
  match v with
  | VUndefined => false
  | VData JNull => false
  | VData (JBool b) => b
  | VData (JNum l) => negb (literal_is_zero l)
  | VData (JStr s) => nonempty s
  | VData (JArr _) => true
  | VData (JObj _) => true
  end.

(** What [JSON.parse] does on a text: a document or a thrown [SyntaxError]. *)
Inductive parse_result : Type :=
| ParseOk (j : json)
| ParseThrows (e : jserror).

(** ** Requests, responses and the environment *)

(** [r.method] names the verb method the request is sent with. *)
Inductive http_method : Type := GET | POST | PUT | PATCH | DELETE.

(** What [request] hands to the transport: the path behind the configured
    endpoint prefix, body and query as given, and the token the
    [Authorization: Bearer] header is built from. *)
Record request : Type := MkRequest {
  rq_method : http_method;
  rq_path : string;
  rq_body : option string;
  rq_query : option string;
  rq_bearer : jsval
}.

(** A completed exchange: [res.response.statusCode] and [res.body]. *)
Record response : Type := MkResponse {
  statusCode : N;
  res_body : string
}.

Inductive transport_result : Type :=
| Completed (res : response)
| Failed (e : jserror).

(** The arguments of one call of the user callback: [callback(err)] or
    [callback(null, res)]. *)
Inductive callback_args : Type :=
| CbError (err : reason)
| CbResult (res : jsval).

(** What the outside world sees of a run. *)
Inductive event : Type :=
| Transport (rq : request)
| Callback (args : callback_args).

(** The platform and the collaborators the client is written against:
    [JSON.parse], [encodeURIComponent], the HTTP transport behind the verb
    methods, and [fs.writeFile] (which fails with an error or stores the
    data).  The transport ([lib/http.js], reached through [API_Client]) is
    not part of the pipeline; all that is used of it is that an exchange
    ends, with a status and a body or with an error.  Its answer may
    depend on the request and on everything that happened before. *)
Record platform : Type := MkPlatform {
  JSON_parse : string -> parse_result;
  encodeURIComponent : string -> string;
  transport : list event -> request -> transport_result;
  writeFile_error : gmap string string -> string -> string -> option jserror
}.

(** [r.handler]: one of the bound response handlers. *)
Inductive response_handler : Type :=
| HProcessAuth
| HProcessJSON
| HProcessFile (filepath : string)
| HProcessResponse.

(** A user callback; it may throw. *)
Definition user_callback : Type := callback_args -> option jserror.

(** The request descriptor [r].  [retry] and [callbackExecuted] are absent
    (falsy) on a descriptor fresh from an endpoint method. *)
Record descriptor : Type := MkDescriptor {
  method : http_method;
  path : string;
  body : option string;
  query : option string;
  handler : response_handler;
  callback : option user_callback;
  retry : bool;
  callbackExecuted : bool
}.

Definition set_retry (b : bool) (r : descriptor) : descriptor :=
  MkDescriptor (method r) (path r) (body r) (query r) (handler r) (callback r)
               b (callbackExecuted r).

Definition set_callbackExecuted (b : bool) (r : descriptor) : descriptor :=
  MkDescriptor (method r) (path r) (body r) (query r) (handler r) (callback r)
               (retry r) b.

(** The client object [this]: configuration and the stored token. *)
Record client : Type := MkClient {
  id : string;
  secret : string;
  endpoint : string;
  token : jsval
}.

Definition set_token (t : jsval) (c : client) : client :=
  MkClient (id c) (secret c) (endpoint c) t.

(** [new Criteo_MAPI_Client(id, secret, host, endpoint)] *)
Definition new_client (i s e : string) : client := MkClient i s e (VString "").

(** The state a run works on: the client, the file system, and the events
    so far (latest first). *)
Record world : Type := MkWorld {
  this : client;
  files : gmap string string;
  trace : list event
}.

Definition with_client (c : client) (w : world) : world :=
  MkWorld c (files w) (trace w).

Definition with_files (f : gmap string string) (w : world) : world :=
  MkWorld (this w) f (trace w).

Definition log (e : event) (w : world) : world :=
  MkWorld (this w) (files w) (e :: trace w).

(** ** Response handlers *)

Section Handlers.

Variable P : platform.

(** A parser as [process] calls it: it gets the promise under
    construction and may touch the file system. *)
Definition parser : Type := string -> cell -> world -> cell * world.

Definition parseJSON : parser := fun body c w =>
  if nonempty body then
    match JSON_parse P body with
    | ParseOk j => (settle c (Resolved (VData j)), w)
    | ParseThrows e =>
        (settle c (Rejected (Thrown (Error
           ("Error Parsing JSON Response: " ++ error_toString e)))), w)
    end
  else (settle c (Resolved VTrue), w).

Definition parseResponse : parser := fun body c w =>
  if nonempty body then (settle c (Resolved (VString body)), w)
  else (settle c (Resolved VTrue), w).

Definition saveToFile (filepath : string) : parser := fun body c w =>
  match writeFile_error P (files w) filepath body with
  | Some err =>
      (settle c (Rejected (Thrown (Error
         ("Error Saving Response to File. " ++ error_toString err)))), w)
  | None =>
      (settle c (Resolved (VString ("Results saved to " ++ filepath ++ "."))),
       with_files (<[filepath := body]> (files w)) w)
  end.

(** The status test of [process]. *)
Definition status_ok (status : N) : bool := match_20x (N_toString status).

Definition bad_response (res : response) : jserror :=
  Error ("Bad Response From API: Status Code " ++ N_toString (statusCode res)
         ++ " | " ++ res_body res).

(** [process(res, parser)]: on a bad status the promise is rejected, and
    the parser is called all the same, as there is no [return] after the
    [reject]. *)
Definition process (res : response) (parse : parser) (w : world) : promise * world :=
  let c := if status_ok (statusCode res) then None
           else settle None (Rejected (Thrown (bad_response res))) in
  let '(c', w') := parse (trim (res_body res)) c w in
  (promise_of c', w').

Definition processJSON (res : response) := process res parseJSON.
Definition processFile (filepath : string) (res : response) :=
  process res (saveToFile filepath).
Definition processResponse (res : response) := process res parseResponse.

Definition auth_error : jserror :=
  Error "Error Retrieving Session Token from Authentication Response!".

(** [response.access_token]: reading a property of [null] throws, of any
    other value it is a lookup, [undefined] when the property is absent. *)
Definition access_token (j : json) : option jsval :=
  match j with
  | JNull => None
  | JObj ms => Some (get_member "access_token" ms)
  | _ => Some VUndefined
  end.

(** [processAuth(res)]: the body is parsed as it is, the status is not
    looked at, and whatever [access_token] holds becomes the token. *)
Definition processAuth (res : response) (w : world) : promise * world :=
  match JSON_parse P (res_body res) with
  | ParseThrows _ => (Rejected (Thrown auth_error), w)
  | ParseOk j =>
      match access_token j with
      | None => (Rejected (Thrown auth_error), w)
      | Some t => (Resolved t, with_client (set_token t (this w)) w)
      end
  end.

Definition run_handler (h : response_handler) (res : response) : world -> promise * world :=
  match h with
  | HProcessAuth => processAuth res
  | HProcessJSON => processJSON res
  | HProcessFile fp => processFile fp res
  | HProcessResponse => processResponse res
  end.

End Handlers.

(** ** The request pipeline *)

(** The activation of one [mapiRequest(r)] call: the world, the descriptor
    object [r], and the promise the call returns (its [resolve] and
    [reject]). *)
Record frame : Type := MkFrame {
  fr_world : world;
  fr_r : descriptor;
  fr_promise : cell
}.

(** Computations of one activation; [None] is a run cut off by the
    recursion bound. *)
Definition M (A : Type) : Type := frame -> option (A * frame).

Definition ret {A : Type} (a : A) : M A := fun f => Some (a, f).

Definition bind {A B : Type} (m : M A) (k : A -> M B) : M B :=
  fun f => match m f with
           | Some (a, f') => k a f'
           | None => None
           end.

Declare Scope pipeline_scope.
Delimit Scope pipeline_scope with pipeline.
Notation "x <- m ;; k" := (bind m (fun x => k))
  (at level 100, m at next level, k at level 200, right associativity) : pipeline_scope.
Notation "m ;; k" := (bind m (fun _ => k))
  (at level 100, k at level 200, right associativity) : pipeline_scope.
Local Open Scope pipeline_scope.

Definition get_r : M descriptor := fun f => Some (fr_r f, f).
Definition get_this : M client := fun f => Some (this (fr_world f), f).
Definition get_trace : M (list event) := fun f => Some (trace (fr_world f), f).

Definition modify_r (g : descriptor -> descriptor) : M unit :=
  fun f => Some (tt, MkFrame (fr_world f) (g (fr_r f)) (fr_promise f)).

Definition modify_world (g : world -> world) : M unit :=
  fun f => Some (tt, MkFrame (g (fr_world f)) (fr_r f) (fr_promise f)).

(** A computation on the world alone. *)
Definition on_world {A : Type} (g : world -> A * world) : M A :=
  fun f => let '(a, w) := g (fr_world f) in
           Some (a, MkFrame w (fr_r f) (fr_promise f)).

(** [resolve(v)] and [reject(e)] of the promise under construction. *)
Definition resolve (v : jsval) : M unit :=
  fun f => Some (tt, MkFrame (fr_world f) (fr_r f) (settle (fr_promise f) (Resolved v))).

Definition reject (e : reason) : M unit :=
  fun f => Some (tt, MkFrame (fr_world f) (fr_r f) (settle (fr_promise f) (Rejected e))).

(** [p.then(k)] and [p.catch(k)] on a promise in its final state; a
    promise that stays pending never runs its handlers. *)
Definition then_ (p : promise) (k : jsval -> M promise) : M promise :=
  match p with
  | Resolved v => k v
  | _ => ret p
  end.

Definition catch_ (p : promise) (k : reason -> M promise) : M promise :=
  match p with
  | Rejected e => k e
  | _ => ret p
  end.

(** The promise a handler that ran to its end leaves behind, and the one a
    handler that threw leaves behind. *)
Definition returned : promise := Resolved VUndefined.

Definition finished (thrown : option jserror) : promise :=
  match thrown with
  | Some exn => Rejected (Thrown exn)
  | None => returned
  end.

(** [r.callback(...)]: the call is seen from outside; the result is what
    the callback threw, if it threw. *)
Definition invoke_callback (args : callback_args) : M (option jserror) :=
  r <- get_r ;;
  modify_world (log (Callback args)) ;;
  ret (match callback r with
       | Some cb => cb args
       | None => None
       end).

Definition has_callback (r : descriptor) : bool :=
  match callback r with Some _ => true | None => false end.

Definition auth_path : string := "/oauth2/token".

(** [err.toString()]; there is nothing to call on [undefined]. *)
Definition reason_toString (err : reason) : option string :=
  match err with
  | NoReason => None
  | Thrown e => Some (error_toString e)
  end.

Definition toString_of_undefined : jserror :=
  MkError "TypeError" "Cannot read properties of undefined (reading 'toString')".

(** [formdata.slice(0,-1)] *)
Fixpoint drop_last (s : string) : string :=
  match s with
  | EmptyString => EmptyString
  | String c EmptyString => EmptyString
  | String c t => String c (drop_last t)
  end.

Definition toFormData (obj : list (string * string)) : string :=
  drop_last (fold_left (fun formdata kv => formdata ++ fst kv ++ "=" ++ snd kv ++ "&")
                       obj "").

Section Pipeline.

Variable P : platform.

(** [mapiRequest] as the functions below call it: on a descriptor, from
    a world, giving the promise it returns, the descriptor object as it
    is left, and the world. *)
Variable self : descriptor -> world -> option (promise * descriptor * world).

Definition checkAuthentication : M promise :=
  r <- get_r ;;
  c <- get_this ;;
  if (truthy (token c) && negb (retry r)) || String.eqb (path r) auth_path
  then ret (Resolved VUndefined)
  else ret (Rejected NoReason).

(** The descriptor [authenticate] builds. *)
Definition auth_descriptor (c : client) (cb : option user_callback) : descriptor :=
  let auth := [ ("client_id", encodeURIComponent P (id c));
                ("client_secret", encodeURIComponent P (secret c));
                ("grant_type", "client_credentials") ] in
  MkDescriptor POST auth_path (Some (toFormData auth)) None HProcessAuth cb
               false false.

(** [authenticate(callback)]: a [mapiRequest] on a descriptor of its own. *)
Definition authenticate (cb : option user_callback) : M promise :=
  c <- get_this ;;
  fun f =>
    match self (auth_descriptor c cb) (fr_world f) with
    | Some (p, _, w) => Some (p, MkFrame w (fr_r f) (fr_promise f))
    | None => None
    end.

(** [this[r.method]({path, body, query})]: one exchange. *)
Definition send (r : descriptor) : M transport_result :=
  c <- get_this ;;
  history <- get_trace ;;
  let rq := MkRequest (method r) (endpoint c ++ path r) (body r) (query r) (token c) in
  modify_world (log (Transport rq)) ;;
  ret (transport P history rq).

Definition executeRequest : M promise :=
  r <- get_r ;;
  answer <- send r ;;
  match answer with
  | Completed res => on_world (run_handler P (handler r) res)
  | Failed e => ret (Rejected (Thrown e))
  end.

(** [decideWhetherToRequeue(r, err)]: the promise it returns is resolved
    with the promise of [mapiRequest(r)], the same object [r], and so
    takes over its final state. *)
Definition decideWhetherToRequeue (err : reason) : M promise :=
  r <- get_r ;;
  match reason_toString err with
  | None => ret (Rejected (Thrown toString_of_undefined))
  | Some text =>
      if (-1 <? indexOf "401" text) && negb (retry r) then
        modify_r (set_retry true) ;;
        fun f =>
          match self (fr_r f) (fr_world f) with
          | Some (p, r', w) => Some (p, MkFrame w r' (fr_promise f))
          | None => None
          end
      else ret (Rejected err)
  end.

Definition resolveRequest (res : jsval) : M promise :=
  r <- get_r ;;
  thrown <- (if has_callback r && negb (callbackExecuted r) then
               modify_r (set_callbackExecuted true) ;;
               invoke_callback (CbResult res)
             else ret None) ;;
  match thrown with
  | Some exn => ret (Rejected (Thrown exn))
  | None => resolve res ;; ret returned
  end.

Definition rejectRequest (err : reason) : M promise :=
  r <- get_r ;;
  if has_callback r && negb (callbackExecuted r) then
    modify_r (set_callbackExecuted true) ;;
    thrown <- invoke_callback (CbError err) ;;
    ret (finished thrown)
  else
    reject err ;; ret returned.

(** The chain inside [mapiRequest].  [authenticate] is the handler of the
    rejection of [checkAuthentication]: its [callback] parameter receives
    the reason of that rejection, which is [undefined]. *)
Definition chain : M promise :=
  p <- checkAuthentication ;;
  p <- catch_ p (fun _ => authenticate None) ;;
  p <- then_ p (fun _ => executeRequest) ;;
  p <- catch_ p decideWhetherToRequeue ;;
  p <- then_ p resolveRequest ;;
  catch_ p rejectRequest.

(** [mapiRequest(r)]: a new promise, settled by the end of the chain. *)
Definition mapiRequest_body (r : descriptor) (w : world)
  : option (promise * descriptor * world) :=
  match chain (MkFrame w r None) with
  | Some (_, f) => Some (promise_of (fr_promise f), fr_r f, fr_world f)
  | None => None
  end.

End Pipeline.

(** The recursion of [mapiRequest] through [authenticate] and
    [decideWhetherToRequeue], bounded by [fuel]. *)
Fixpoint mapiRequest (P : platform) (fuel : nat) (r : descriptor) (w : world)
  : option (promise * descriptor * world) :=
  match fuel with
  | O => None
  | S n => mapiRequest_body P (mapiRequest P n) r w
  end.

(** Nesting never goes deeper than this: the request, its retry, the
    authentication of the retry and the retry of that authentication. *)
Definition enough : nat := 4.

(** ** Observations on a trace *)

Definition is_transport_to (p : string) (e : event) : bool :=
  match e with
  | Transport rq => String.eqb (rq_path rq) p
  | Callback _ => false
  end.

Definition is_callback (e : event) : bool :=
  match e with
  | Callback _ => true
  | Transport _ => false
  end.

Fixpoint count (f : event -> bool) (tr : list event) : nat :=
  match tr with
  | nil => O
  | e :: rest => (if f e then 1 else 0) + count f rest
  end.

(** The number of exchanges made for path [p] behind the endpoint. *)
Definition executions (c : client) (p : string) (tr : list event) : nat :=
  count (is_transport_to (endpoint c ++ p)) tr.

(** The number of calls of the user callback. *)
Definition callbacks (tr : list event) : nat := count is_callback tr.

(** ** A JSON implementation

    [JSON.parse] and [JSON.stringify] are the platform's.  This is an
    implementation of the JSON grammar to run the client against: all of
    the grammar, with numbers kept as their literals and strings within
    the Latin-1 range of the embedding (a [\u] escape above [ÿ] is
    refused). *)

Module MiniJSON.

Definition dquote : ascii := "034"%char.
Definition backslash : ascii := "092"%char.

(** JSON white space: space, TAB, LF and CR. *)
Definition is_ws (c : ascii) : bool :=
  match N_of_ascii c with
  | 9%N | 10%N | 13%N | 32%N => true
  | _ => false
  end.

Fixpoint skip_ws (s : string) : string :=
  match s with
  | EmptyString => EmptyString
  | String c t => if is_ws c then skip_ws t else s
  end.

(** The longest prefix of characters that satisfy [p], and the rest. *)
Fixpoint span (p : ascii -> bool) (s : string) : string * string :=
  match s with
  | EmptyString => (EmptyString, EmptyString)
  | String c t =>
      if p c then let '(a, b) := span p t in (String c a, b)
      else (EmptyString, s)
  end.

(** *** Numbers: an optional minus, an integer part without a leading
    zero, an optional fraction, an optional exponent. *)

Definition scan_sign (s : string) : string * string :=
  match s with
  | String "-"%char t => ("-", t)
  | _ => ("", s)
  end.

Definition scan_int (s : string) : option (string * string) :=
  match s with
  | EmptyString => None
  | String c t =>
      if Ascii.eqb c "0" then Some ("0", t)
      else if is_digit c then
             let '(ds, rest) := span is_digit t in Some (String c ds, rest)
           else None
  end.

Definition scan_frac (s : string) : option (string * string) :=
  match s with
  | String "."%char t =>
      match span is_digit t with
      | (EmptyString, _) => None
      | (ds, rest) => Some (String "." ds, rest)
      end
  | _ => Some ("", s)
  end.

Definition scan_exp_sign (s : string) : string * string :=
  match s with
  | String "+"%char t => ("+", t)
  | String "-"%char t => ("-", t)
  | _ => ("", s)
  end.

Definition scan_exp (s : string) : option (string * string) :=
  match s with
  | EmptyString => Some ("", s)
  | String c t =>
      if (Ascii.eqb c "e" || Ascii.eqb c "E")%bool then
        let '(sg, t') := scan_exp_sign t in
        match span is_digit t' with
        | (EmptyString, _) => None
        | (ds, rest) => Some (String c (sg ++ ds), rest)
        end
      else Some ("", s)
  end.

Definition scan_number (s : string) : option (string * string) :=
  let '(sg, s1) := scan_sign s in
  match scan_int s1 with
  | None => None
  | Some (i, s2) =>
      match scan_frac s2 with
      | None => None
      | Some (f, s3) =>
          match scan_exp s3 with
          | None => None
          | Some (e, s4) => Some (sg ++ i ++ f ++ e, s4)
          end
      end
  end.

(** *** Strings *)

Definition hex_value (c : ascii) : option N :=
  let n := N_of_ascii c in
  if ((48 <=? n) && (n <=? 57))%N then Some (n - 48)%N
  else if ((97 <=? n) && (n <=? 102))%N then Some (n - 87)%N
  else if ((65 <=? n) && (n <=? 70))%N then Some (n - 55)%N
  else None.

Definition hex4 (a b c d : ascii) : option N :=
  match hex_value a, hex_value b, hex_value c, hex_value d with
  | Some x, Some y, Some z, Some t => Some (((x * 16 + y) * 16 + z) * 16 + t)%N
  | _, _, _, _ => None
  end.

(** The character a two-character escape stands for. *)
Definition simple_escape (c : ascii) : option ascii :=
  match N_of_ascii c with
  | 34%N => Some dquote
  | 92%N => Some backslash
  | 47%N => Some "/"%char
  | 98%N => Some "008"%char
  | 102%N => Some "012"%char
  | 110%N => Some "010"%char
  | 114%N => Some "013"%char
  | 116%N => Some "009"%char
  | _ => None
  end.

Definition prepend (c : ascii) (r : option (string * string)) : option (string * string) :=
  match r with
  | Some (s, rest) => Some (String c s, rest)
  | None => None
  end.

(** The characters of a string literal after its opening quote, up to
    the closing quote. *)
Fixpoint parse_chars (s : string) : option (string * string) :=
  match s with
  | EmptyString => None
  | String c t =>
      if Ascii.eqb c dquote then Some (EmptyString, t)
      else if Ascii.eqb c backslash then
        match t with
        | EmptyString => None
        | String e t' =>
            match simple_escape e with
            | Some ch => prepend ch (parse_chars t')
            | None =>
                if Ascii.eqb e "u" then
                  match t' with
                  | String h1 (String h2 (String h3 (String h4 t''))) =>
                      match hex4 h1 h2 h3 h4 with
                      | Some n =>
                          if (n <? 256)%N then prepend (ascii_of_N n) (parse_chars t'')
                          else None
                      | None => None
                      end
                  | _ => None
                  end
                else None
            end
        end
      else if (N_of_ascii c <? 32)%N then None
      else prepend c (parse_chars t)
  end.

(** *** Documents *)

Fixpoint parse_value (fuel : nat) (s : string) : option (json * string) :=
  match fuel with
  | O => None
  | S n =>
      match skip_ws s with
      | String "n"%char (String "u"%char (String "l"%char (String "l"%char t))) =>
          Some (JNull, t)
      | String "t"%char (String "r"%char (String "u"%char (String "e"%char t))) =>
          Some (JBool true, t)
      | String "f"%char (String "a"%char (String "l"%char (String "s"%char
          (String "e"%char t)))) =>
          Some (JBool false, t)
      | String "034"%char t =>
          match parse_chars t with
          | Some (str, rest) => Some (JStr str, rest)
          | None => None
          end
      | String "["%char t =>
          match skip_ws t with
          | String "]"%char rest => Some (JArr nil, rest)
          | _ =>
              match parse_elements n t with
              | Some (vs, rest) => Some (JArr vs, rest)
              | None => None
              end
          end
      | String "{"%char t =>
          match skip_ws t with
          | String "}"%char rest => Some (JObj nil, rest)
          | _ =>
              match parse_members n t with
              | Some (ms, rest) => Some (JObj ms, rest)
              | None => None
              end
          end
      | s' =>
          match scan_number s' with
          | Some (lit, rest) => Some (JNum lit, rest)
          | None => None
          end
      end
  end

with parse_elements (fuel : nat) (s : string) : option (list json * string) :=
  match fuel with
  | O => None
  | S n =>
      match parse_value n s with
      | None => None
      | Some (v, rest) =>
          match skip_ws rest with
          | String ","%char t =>
              match parse_elements n t with
              | Some (vs, rest') => Some (v :: vs, rest')
              | None => None
              end
          | String "]"%char t => Some (v :: nil, t)
          | _ => None
          end
      end
  end

with parse_members (fuel : nat) (s : string) : option (list (string * json) * string) :=
  match fuel with
  | O => None
  | S n =>
      match skip_ws s with
      | String "034"%char t =>
          match parse_chars t with
          | None => None
          | Some (k, rest) =>
              match skip_ws rest with
              | String ":"%char t2 =>
                  match parse_value n t2 with
                  | None => None
                  | Some (v, rest2) =>
                      match skip_ws rest2 with
                      | String ","%char t3 =>
                          match parse_members n t3 with
                          | Some (ms, rest') => Some ((k, v) :: ms, rest')
                          | None => None
                          end
                      | String "}"%char t3 => Some ((k, v) :: nil, t3)
                      | _ => None
                      end
                  end
              | _ => None
              end
          end
      | _ => None
      end
  end.

Definition syntax_error : jserror := MkError "SyntaxError" "Unexpected token in JSON".

(** [JSON.parse(text)].  On a JSON text the bound is not what stops the
    parse: a call nested two levels further down has read at least two
    more characters. *)
Definition parse (text : string) : parse_result :=
  match parse_value (S (String.length text)) text with
  | Some (v, rest) =>
      match skip_ws rest with
      | EmptyString => ParseOk v
      | _ => ParseThrows syntax_error
      end
  | None => ParseThrows syntax_error
  end.

(** *** Serialisation *)

Definition hex_digit (n : N) : ascii :=
  if (n <? 10)%N then ascii_of_N (48 + n) else ascii_of_N (87 + n).

Definition escape_char (c : ascii) : string :=
  match N_of_ascii c with
  | 34%N => String backslash (String dquote "")
  | 92%N => String backslash (String backslash "")
  | 8%N => String backslash "b"
  | 12%N => String backslash "f"
  | 10%N => String backslash "n"
  | 13%N => String backslash "r"
  | 9%N => String backslash "t"
  | n => if (n <? 32)%N then
           String backslash
             (String "u" (String "0" (String "0"
                (String (hex_digit (n / 16)) (String (hex_digit (n mod 16)) "")))))
         else String c ""
  end.

Fixpoint escape (s : string) : string :=
  match s with
  | EmptyString => EmptyString
  | String c t => escape_char c ++ escape t
  end.

Definition quote (s : string) : string :=
  String dquote (escape s ++ String dquote "").

(** The elements after the first, and the closing bracket. *)
Definition tail_elements (str : json -> string) : list json -> string :=
  fix rest (l : list json) : string :=
    match l with
    | nil => "]"
    | y :: l' => String "," (str y ++ rest l')
    end.

(** The members after the first, and the closing brace. *)
Definition tail_members (str : json -> string) : list (string * json) -> string :=
  fix rest (l : list (string * json)) : string :=
    match l with
    | nil => "}"
    | (k, y) :: l' => String "," (quote k ++ String ":" (str y ++ rest l'))
    end.

(** [JSON.stringify(v)] *)
Fixpoint stringify (v : json) : string :=
  match v with
  | JNull => "null"
  | JBool true => "true"
  | JBool false => "false"
  | JNum lit => lit
  | JStr s => quote s
  | JArr nil => "[]"
  | JArr (x :: xs) => String "[" (stringify x ++ tail_elements stringify xs)
  | JObj nil => "{}"
  | JObj ((k, x) :: ms) =>
      String "{" (quote k ++ String ":" (stringify x ++ tail_members stringify ms))
  end.

Definition valid_number (lit : string) : bool :=
  match scan_number lit with
  | Some (l, EmptyString) => String.eqb l lit
  | _ => false
  end.

(** The documents [stringify] is defined on: every number is a numeric
    literal. *)
Fixpoint representable (v : json) : bool :=
  match v with
  | JNum lit => valid_number lit
  | JArr xs => forallb representable xs
  | JObj ms => forallb (fun kv => representable (snd kv)) ms
  | _ => true
  end.

(** A text after which a numeric literal cannot go on. *)
Definition ends_number (rest : string) : bool :=
  match rest with
  | EmptyString => true
  | String c _ =>
      negb (is_digit c || Ascii.eqb c "." || Ascii.eqb c "e" || Ascii.eqb c "E")
  end.

Fixpoint all_chars (p : ascii -> bool) (s : string) : bool :=
  match s with
  | EmptyString => true
  | String c t => p c && all_chars p t
  end.

(** The characters a numeric literal is made of. *)
Definition is_number_char (c : ascii) : bool :=
  is_digit c || Ascii.eqb c "-" || Ascii.eqb c "+" || Ascii.eqb c "."
  || Ascii.eqb c "e" || Ascii.eqb c "E".

(** A bound on the nesting of the parser's calls on the text of [v]. *)
Fixpoint weight (v : json) : nat :=
  match v with
  | JArr xs => S (fold_right (fun x n => S (weight x + n)) O xs)
  | JObj ms => S (fold_right (fun kv n => S (weight (snd kv) + n)) O ms)
  | _ => 1
  end.

(** What is shown of every document below: its text, followed by anything a
    number cannot run into, is parsed back to it. *)
Definition parsed_back (v : json) : Prop :=
  representable v = true ->
  forall (fuel : nat) (rest : string),
    (weight v <= fuel)%nat ->
    ends_number rest = true ->
    parse_value fuel (stringify v ++ rest) = Some (v, rest).

(** Single quotes for double quotes, to write JSON texts down. *)
Fixpoint dq (s : string) : string :=
  match s with
  | EmptyString => EmptyString
  | String c t => String (if Ascii.eqb c "'" then dquote else c) (dq t)
  end.

End MiniJSON.

(** ** Vocabulary of the properties *)

(** Every character of [s] is white space for [trim]. *)
Fixpoint all_whitespace (s : string) : bool :=
  match s with
  | EmptyString => true
  | String c t => is_whitespace c && all_whitespace t
  end.

(** The status pattern of the specification, "2xx": exactly three digits,
    the first of them 2. *)
Definition spec_2xx (s : string) : bool :=
  match s with
  | String "2"%char (String a (String b EmptyString)) => is_digit a && is_digit b
  | _ => false
  end.

(** The parsed authentication response has no access-token field. *)
Definition lacks_access_token (j : json) : Prop :=
  match j with
  | JObj ms => get_member "access_token" ms = VUndefined
  | _ => True
  end.

(** The callback is still to be called: there is one, and
    [callbackExecuted] is not set. *)
Definition deliverable (r : descriptor) : bool :=
  has_callback r && negb (callbackExecuted r).

(** The final state of the promise of a request whose callback was called
    with [args]: after [callback(err)] nothing settles it; after
    [callback(null, res)] it is resolved, unless the callback threw. *)
Definition delivered (r : descriptor) (args : callback_args) : promise :=
  match args with
  | CbError _ => Pending
  | CbResult v =>
      match callback r with
      | Some cb =>
          match cb args with
          | Some exn => Rejected (Thrown exn)
          | None => Resolved v
          end
      | None => Resolved v
      end
  end.

(** How deep the calls of [mapiRequest] nest below a call on [r]. *)
Definition depth (r : descriptor) : nat :=
  (if String.eqb (path r) auth_path then 0 else 2) + (if retry r then 0 else 1) + 1.

(** The failure text is classified as an authentication failure. *)
Definition mentions_401 (err : reason) : bool :=
  match reason_toString err with
  | Some text => -1 <? indexOf "401" text
  | None => false
  end.

(** The chain of [mapiRequest] in two halves: up to and including
    [decideWhetherToRequeue], and the two handlers that complete the
    request. *)
Definition attempt (P : platform)
    (self : descriptor -> world -> option (promise * descriptor * world)) : M promise :=
  p <- checkAuthentication ;;
  p <- catch_ p (fun _ => authenticate P self None) ;;
  p <- then_ p (fun _ => executeRequest P) ;;
  catch_ p (decideWhetherToRequeue self).

Definition complete (p : promise) : M promise :=
  p <- then_ p resolveRequest ;;
  catch_ p rejectRequest.

(** The descriptor is the same request: only the two flags may differ. *)
Definition same_request (r r' : descriptor) : Prop :=
  method r' = method r /\ path r' = path r /\ body r' = body r
  /\ query r' = query r /\ handler r' = handler r /\ callback r' = callback r.

(** What one call of [mapiRequest] on [r] from [w], giving [p], [r'] and
    [w'], keeps and bounds:
    - the request and the endpoint stay as they are, [retry] is never
      cleared;
    - exchanges are made for the path of [r] and for the authentication
      path only, for the path of [r] at most twice, and at most once when
      [retry] was set;
    - a callback still to be called is called once, as the last event, and
      decides the promise; otherwise no callback is called and the promise
      is settled. *)
Definition invariant (r : descriptor) (w : world)
    (p : promise) (r' : descriptor) (w' : world) : Prop :=
  same_request r r'
  /\ endpoint (this w') = endpoint (this w)
  /\ (retry r = true -> retry r' = true)
  /\ (forall q, q <> endpoint (this w) ++ path r ->
                q <> endpoint (this w) ++ auth_path ->
                count (is_transport_to q) (trace w') = count (is_transport_to q) (trace w))
  /\ (executions (this w) (path r) (trace w')
      <= executions (this w) (path r) (trace w) + (if retry r then 1 else 2))%nat
  /\ (if deliverable r
      then exists args tr,
             trace w' = Callback args :: tr
             /\ callbacks tr = callbacks (trace w)
             /\ p = delivered r args
             /\ callbackExecuted r' = true
      else callbacks (trace w') = callbacks (trace w)
           /\ p <> Pending
           /\ callbackExecuted r' = callbackExecuted r).

Definition respects
    (self : descriptor -> world -> option (promise * descriptor * world)) : Prop :=
  forall r w p r' w', self r w = Some (p, r', w') -> invariant r w p r' w'.

(** ** Statements as the specification words them

    Four sentences of the specification say more than the code does.  They
    are written down here as they stand, to be compared with the code. *)

(** "Success iff the string form of the status matches 2xx." *)
Definition spec_success_is_2xx : Prop :=
  forall status : N, status_ok status = spec_2xx (N_toString status).

(** "On failure the callback is invoked with the error and the returned
    awaitable is also rejected with the identical error." *)
Definition spec_failure_reaches_both_protocols : Prop :=
  forall (P : platform) (fuel : nat) (r : descriptor) (w : world)
         (p : promise) (r' : descriptor) (w' : world) (err : reason) (tr : list event),
    has_callback r = true -> callbackExecuted r = false ->
    mapiRequest P fuel r w = Some (p, r', w') ->
    trace w' = Callback (CbError err) :: tr ->
    p = Rejected err.

(** "Any failure whose status is not 401 is surfaced on first occurrence
    with zero retries": for a request that goes out at once and is
    answered with a bad status other than 401. *)
Definition spec_only_status_401_is_retried : Prop :=
  forall (P : platform) (fuel : nat) (r : descriptor) (w : world) (res : response)
         (p : promise) (r' : descriptor) (w' : world),
    truthy (token (this w)) = true ->
    retry r = false ->
    handler r <> HProcessAuth ->
    transport P (trace w)
      (MkRequest (method r) (endpoint (this w) ++ path r) (body r) (query r)
                 (token (this w))) = Completed res ->
    statusCode res <> 401%N ->
    status_ok (statusCode res) = false ->
    mapiRequest P fuel r w = Some (p, r', w') ->
    retry r' = false
    /\ executions (this w) (path r) (trace w')
       = S (executions (this w) (path r) (trace w)).

(** "The authentication handler fails if the body is malformed JSON or the
    access-token field is missing." *)
Definition spec_missing_token_fails : Prop :=
  forall (P : platform) (res : response) (w : world),
    ((exists e, JSON_parse P (res_body res) = ParseThrows e)
     \/ (exists j, JSON_parse P (res_body res) = ParseOk j /\ lacks_access_token j)) ->
    fst (processAuth P res w) = Rejected (Thrown auth_error).

(** ** A concrete environment *)

Module Scenario.

(** A transport that answers the n-th exchange with the n-th entry of a
    script, and with the last one from there on. *)
Definition exchanges (history : list event) : nat :=
  count (fun e => match e with Transport _ => true | _ => false end) history.

Definition scripted (first : transport_result) (more : list transport_result)
  : list event -> request -> transport_result :=
  fun history _ => List.nth (exchanges history) (first :: more) (List.last more first).

(** A platform with the JSON implementation above, identifiers that need
    no escaping, and a file system that accepts every write. *)
Definition node (tr : list event -> request -> transport_result) : platform :=
  MkPlatform MiniJSON.parse (fun s => s) tr (fun _ _ _ => None).

(** The same with a file system that refuses every write. *)
Definition node_readonly (tr : list event -> request -> transport_result) : platform :=
  MkPlatform MiniJSON.parse (fun s => s) tr
    (fun _ _ _ => Some (Error "EACCES: permission denied")).

Definition fresh_world (tok : string) : world :=
  MkWorld (MkClient "id" "secret" "" (VString tok)) ∅ nil.

(** [getCampaignsByAdvertiser(42, callback)] *)
Definition campaigns (cb : option user_callback) : descriptor :=
  MkDescriptor GET "/v1/advertisers/42/campaigns" None None HProcessJSON cb
               false false.

(** [getStats(query, filepath)] in file mode. *)
Definition stats_to_file (filepath : string) : descriptor :=
  MkDescriptor POST "/v1/statistics" (Some "{}") None (HProcessFile filepath) None
               false false.

Definition quiet : user_callback := fun _ => None.

Definition ok (status : N) (text : string) : transport_result :=
  Completed (MkResponse status text).

Definition token_response : transport_result :=
  ok 200 (MiniJSON.dq "{'access_token':'fresh','expires_in':900}").

Definition unauthorized : transport_result :=
  ok 401 (MiniJSON.dq "{'message':'Authorization has been denied.'}").

(** A transport that tells the authentication path from the others. *)
Definition by_path (auth api : transport_result)
  : list event -> request -> transport_result :=
  fun _ rq => if String.eqb (rq_path rq) auth_path then auth else api.

(** The promise is rejected with a bad-response error for [status] and
    [text]. *)
Definition bad (status : N) (text : string) : promise :=
  Rejected (Thrown (bad_response (MkResponse status text))).

(** What a run shows: the promise, the two flags, the events in the
    order they happened, the token. *)
Definition observe (o : option (promise * descriptor * world))
  : option (promise * bool * bool * list event * jsval) :=
  match o with
  | Some (p, r, w) =>
      Some (p, retry r, callbackExecuted r, rev (trace w), token (this w))
  | None => None
  end.

Definition paths (o : option (promise * descriptor * world)) : list string :=
  match o with
  | Some (_, _, w) =>
      flat_map (fun e => match e with
                         | Transport rq => rq_path rq :: nil
                         | Callback _ => nil
                         end) (rev (trace w))
  | None => nil
  end.

(** The API refuses every token; the authentication endpoint works. *)
Definition always_401 : list event -> request -> transport_result :=
  by_path token_response unauthorized.

(** The API is down, and its error page happens to contain "401". *)
Definition down_with_401_in_body : list event -> request -> transport_result :=
  by_path token_response (ok 500 "upstream timeout, ticket 84012").

(** The API is down. *)
Definition down : list event -> request -> transport_result :=
  fun _ _ => ok 503 "Service Unavailable".

(** The stored token has expired: 401 once, then the new token, then the
    payload. *)
Definition expired_token : list event -> request -> transport_result :=
  scripted unauthorized (token_response :: ok 200 "[]" :: nil).

(** The authentication endpoint answers with an error document. *)
Definition invalid_client : response :=
  MkResponse 400 (MiniJSON.dq "{'error':'invalid_client'}").

Definition campaigns_request (tok : string) : request :=
  MkRequest GET "/v1/advertisers/42/campaigns" None None (VString tok).

Definition sample : json :=
  JObj (("campaigns", JArr (JNum "1" :: JNum "-2.5e3" :: JNull :: nil))
        :: ("name", JStr "a b") :: ("active", JBool true) :: nil).

End Scenario.

(** * The rest of the client

    What the pipeline is called with, and what it calls: string
    conversions, the choice of the response mode for reports, the report
    methods, the endpoint methods that take identifiers only, and the
    request as version 0.8.1 hands it to the HTTP layer through
    [API_Client]. *)

(** ** Conversions to strings *)

(** More of the platform: the string form of the number a literal
    denotes, [new Date(v).toISOString()] (nothing when the date is
    invalid: the call throws a [RangeError]), [JSON.stringify] on an
    object of JSON values, and [querystring.stringify]. *)
Record runtime : Type := MkRuntime {
  Number_toString : string -> string;
  Date_toISOString : jsval -> option string;
  JSON_stringify : json -> string;
  querystring_stringify : jsval -> string
}.

Module JsText.

(** [c.toLowerCase()] on a code unit below 256: the letters A to Z, and
    the accented capitals from 192 to 222 but for the sign at 215. *)
Definition lower_char (c : ascii) : ascii :=
  let n := N_of_ascii c in
  if (((65 <=? n) && (n <=? 90))
      || ((192 <=? n) && (n <=? 222) && negb (n =? 215)))%N
  then ascii_of_N (n + 32)
  else c.

(** [s.toLowerCase()] *)
Fixpoint toLowerCase (s : string) : string :=
  match s with
  | EmptyString => EmptyString
  | String c t => String (lower_char c) (toLowerCase t)
  end.

(** What a template literal makes of a JSON value: a number by the
    platform, an array by its elements joined with commas ([null] giving
    nothing), an object by the fixed text. *)
Fixpoint json_toString (R : runtime) (j : json) : string :=
  match j with
  | JNull => "null"
  | JBool true => "true"
  | JBool false => "false"
  | JNum lit => Number_toString R lit
  | JStr s => s
  | JArr xs =>
      String.concat "," (map (fun x => match x with
                                       | JNull => EmptyString
                                       | _ => json_toString R x
                                       end) xs)
  | JObj _ => "[object Object]"
  end.

(** [`${v}`] *)
Definition template (R : runtime) (v : jsval) : string :=
  match v with
  | VUndefined => "undefined"
  | VData j => json_toString R j
  end.

End JsText.
Import JsText.

(** A call that returns or throws. *)
Inductive completion (A : Type) : Type :=
| Returns (a : A)
| Throws (e : jserror).
Arguments Returns {A} a.
Arguments Throws {A} e.

Definition invalid_time : jserror := MkError "RangeError" "Invalid time value".

(** The two errors of a call of [toLowerCase] that cannot be made; the
    wording of the messages is the engine's. *)
Definition not_a_function : jserror :=
  MkError "TypeError" "query.format.toLowerCase is not a function".

Definition no_properties (what : string) : jserror :=
  MkError "TypeError"
          ("Cannot read properties of " ++ what ++ " (reading 'toLowerCase')").

(** [o[k] = v] on the members of an object: the value of an existing key
    is replaced where it stands, a new key goes to the end. *)
Fixpoint has_member (k : string) (ms : list (string * json)) : bool :=
  match ms with
  | nil => false
  | (k', _) :: rest => String.eqb k k' || has_member k rest
  end.

Fixpoint replace_member (k : string) (v : json) (ms : list (string * json))
  : list (string * json) :=
  match ms with
  | nil => nil
  | (k', v') :: rest =>
      (k', if String.eqb k k' then v else v') :: replace_member k v rest
  end.

Definition set_member (k : string) (v : json) (ms : list (string * json))
  : list (string * json) :=
  if has_member k ms then replace_member k v ms else ms ++ (k, v) :: nil.

(** ** The response mode of a report *)

(** [determineStatsHandler(query, filepath)]: a file path that is given
    (and not empty) decides; without one, [query.format] is read, and
    [toLowerCase] is called on it. *)
Definition determineStatsHandler (query : list (string * json)) (filepath : option string)
  : completion response_handler :=
  match filepath with
  | Some (String c t) => Returns (HProcessFile (String c t))
  | _ =>
      match get_member "format" query with
      | VUndefined => Throws (no_properties "undefined")
      | VData JNull => Throws (no_properties "null")
      | VData (JStr s) =>
          if String.eqb (toLowerCase s) "json" then Returns HProcessJSON
          else Returns HProcessResponse
      | VData _ => Throws not_a_function
      end
  end.

(** ** The report methods *)

(** [getReport], [getStats] and [getSellerStats] have one body, each with
    its own path: the mode is chosen, then [query.startDate] and
    [query.endDate] are overwritten with their ISO forms, then the query
    is serialised into the body of a POST.  The result is the descriptor
    handed to [mapiRequest], or what was thrown, and the caller's query
    object as the call leaves it. *)
Definition report_descriptor (R : runtime) (report_path : string)
    (query : list (string * json)) (filepath : option string)
    (cb : option user_callback)
  : completion descriptor * list (string * json) :=
  match determineStatsHandler query filepath with
  | Throws e => (Throws e, query)
  | Returns h =>
      match Date_toISOString R (get_member "startDate" query) with
      | None => (Throws invalid_time, query)
      | Some s =>
          let query1 := set_member "startDate" (JStr s) query in
          match Date_toISOString R (get_member "endDate" query1) with
          | None => (Throws invalid_time, query1)
          | Some e =>
              let query2 := set_member "endDate" (JStr e) query1 in
              (Returns (MkDescriptor POST report_path
                          (Some (JSON_stringify R (JObj query2))) None h cb
                          false false),
               query2)
          end
      end
  end.

(** A method that builds a descriptor, or throws, and runs the pipeline on
    what it built. *)
Definition submit (P : platform) (fuel : nat) (built : completion descriptor)
    (w : world) : completion (option (promise * descriptor * world)) :=
  match built with
  | Returns r => Returns (mapiRequest P fuel r w)
  | Throws e => Throws e
  end.

Definition getReport (P : platform) (R : runtime) (fuel : nat)
    (query : list (string * json)) (filepath : option string)
    (cb : option user_callback) (w : world) :=
  (submit P fuel (fst (report_descriptor R "/v1/statistics/report" query filepath cb)) w,
   snd (report_descriptor R "/v1/statistics/report" query filepath cb)).

Definition getStats (P : platform) (R : runtime) (fuel : nat)
    (query : list (string * json)) (filepath : option string)
    (cb : option user_callback) (w : world) :=
  (submit P fuel (fst (report_descriptor R "/v1/statistics" query filepath cb)) w,
   snd (report_descriptor R "/v1/statistics" query filepath cb)).

Definition getSellerStats (P : platform) (R : runtime) (fuel : nat)
    (query : list (string * json)) (filepath : option string)
    (cb : option user_callback) (w : world) :=
  (submit P fuel (fst (report_descriptor R "/v1/sellers/stats" query filepath cb)) w,
   snd (report_descriptor R "/v1/sellers/stats" query filepath cb)).

(** ** Endpoint methods that take identifiers only

    The descriptor each of them hands to [mapiRequest]. *)

Definition getCampaignsByAdvertiser (R : runtime) (advertiser : jsval) (cb : option user_callback) :=
  MkDescriptor GET ("/v1/advertisers/" ++ template R advertiser ++ "/campaigns")
               None None HProcessJSON cb false false.

Definition getCategoryByAdvertiser (R : runtime) (advertiser category : jsval)
    (cb : option user_callback) :=
  MkDescriptor GET ("/v1/advertisers/" ++ template R advertiser ++ "/categories/"
                    ++ template R category)
               None None HProcessJSON cb false false.

Definition deleteAudience (R : runtime) (audience : jsval) (cb : option user_callback) :=
  MkDescriptor DELETE ("/v1/audiences/" ++ template R audience)
               None None HProcessResponse cb false false.

Definition wipeAudience (R : runtime) (audience : jsval) (cb : option user_callback) :=
  MkDescriptor DELETE ("/v1/audiences/userlist/" ++ template R audience ++ "/users")
               None None HProcessJSON cb false false.

Definition getCampaign (R : runtime) (campaign : jsval) (cb : option user_callback) :=
  MkDescriptor GET ("/v1/campaigns/" ++ template R campaign)
               None None HProcessJSON cb false false.

Definition getCategoryByCampaign (R : runtime) (campaign category : jsval)
    (cb : option user_callback) :=
  MkDescriptor GET ("/v1/campaigns/" ++ template R campaign ++ "/categories/"
                    ++ template R category)
               None None HProcessJSON cb false false.

Definition getPortfolio (cb : option user_callback) :=
  MkDescriptor GET "/v1/portfolio" None None HProcessJSON cb false false.

Definition getCRPSeller (R : runtime) (seller : jsval) (cb : option user_callback) :=
  MkDescriptor GET ("/v2/crp/sellers/" ++ template R seller)
               None None HProcessJSON cb false false.

Definition getCRPCampaign (R : runtime) (campaign : jsval) (cb : option user_callback) :=
  MkDescriptor GET ("/v2/crp/seller-campaigns/" ++ template R campaign)
               None None HProcessJSON cb false false.

Definition getCRPBudget (R : runtime) (budget : jsval) (cb : option user_callback) :=
  MkDescriptor GET ("/v2/crp/budgets/" ++ template R budget)
               None None HProcessJSON cb false false.

(** The descriptors of these methods, for arguments [a] and [b]. *)
Definition identifier_endpoints (R : runtime) (a b : jsval) (cb : option user_callback)
  : list descriptor :=
  getCampaignsByAdvertiser R a cb :: getCategoryByAdvertiser R a b cb
  :: deleteAudience R a cb :: wipeAudience R a cb :: getCampaign R a cb
  :: getCategoryByCampaign R a b cb :: getPortfolio cb :: getCRPSeller R a cb
  :: getCRPCampaign R a cb :: getCRPBudget R a cb :: nil.

(** ** The request of version 0.8.1, down to the HTTP layer *)

Module V081.

(** The options [API_Client] hands to [_request]. *)
Record http_options : Type := MkOptions {
  o_method : http_method;
  o_protocol : string;
  o_hostname : string;
  o_path : string;
  o_timeout : jsval;
  o_headers : list (string * string);
  o_body : jsval
}.

(** The argument of the [api] methods: an object whose fields may be
    missing. *)
Record api_req : Type := MkApiReq {
  ar_protocol : option string;
  ar_path : option string;
  ar_headers : option (list (string * string));
  ar_body : jsval
}.

(** The [API_Client] part of [this]. *)
Record api_client : Type := MkApiClient {
  host : string;
  timeout : jsval
}.

(** [apiRequest(method, req)], with the defaults of its destructuring. *)
Definition apiRequest (A : api_client) (m : http_method) (req : api_req) : http_options :=
  MkOptions m
    (match ar_protocol req with Some p => p | None => "https:" end)
    (host A)
    (match ar_path req with Some p => p | None => "/" end)
    (timeout A)
    (match ar_headers req with Some h => h | None => nil end)
    (ar_body req).

(** [apiGet(req)]: the body goes into the path, behind a question mark,
    and is deleted. *)
Definition apiGet (R : runtime) (A : api_client) (req : api_req) : http_options :=
  apiRequest A GET
    (MkApiReq (ar_protocol req)
       (Some (template R (match ar_path req with
                        | Some p => VString p
                        | None => VUndefined
                        end)
              ++ "?" ++ querystring_stringify R (ar_body req)))
       (ar_headers req)
       VUndefined).

Definition apiPost (A : api_client) (req : api_req) := apiRequest A POST req.
Definition apiPut (A : api_client) (req : api_req) := apiRequest A PUT req.
Definition apiPatch (A : api_client) (req : api_req) := apiRequest A PATCH req.
Definition apiDelete (A : api_client) (req : api_req) := apiRequest A DELETE req.

(** The headers [request] sets. *)
Definition headers (R : runtime) (c : client) : list (string * string) :=
  ("Authorization", "Bearer " ++ template R (token c))
  :: ("Accept", "application/json")
  :: ("Content-Type", "application/json")
  :: ("User-Agent", "criteo-nodejs-client/0.8.1") :: nil.

(** [request(method, path, data)], [method] naming one of the [api]
    methods. *)
Definition request (R : runtime) (A : api_client) (c : client) (m : http_method)
    (p : string) (data : jsval) : http_options :=
  let req := MkApiReq None (Some (endpoint c ++ p)) (Some (headers R c)) data in
  match m with
  | GET => apiGet R A req
  | POST => apiPost A req
  | PUT => apiPut A req
  | PATCH => apiPatch A req
  | DELETE => apiDelete A req
  end.

(** [get(path, data)] and its four siblings. *)
Definition get R A c (p : string) (data : jsval) := request R A c GET p data.
Definition post R A c (p : string) (data : jsval) := request R A c POST p data.
Definition put R A c (p : string) (data : jsval) := request R A c PUT p data.
Definition patch R A c (p : string) (data : jsval) := request R A c PATCH p data.
Definition delete R A c (p : string) (data : jsval) := request R A c DELETE p data.

(** [this[r.method](r.path, r.data)], the call [executeRequest] makes. *)
Definition execute_call (R : runtime) (A : api_client) (c : client) (m : http_method)
    (p : string) (data : jsval) : http_options :=
  match m with
  | GET => get R A c p data
  | POST => post R A c p data
  | PUT => put R A c p data
  | PATCH => patch R A c p data
  | DELETE => delete R A c p data
  end.

End V081.

(** ** More observations on a run *)

(** The request may go out without authenticating. *)
Definition allowed (r : descriptor) (w : world) : bool :=
  (truthy (token (this w)) && negb (retry r)) || String.eqb (path r) auth_path.

(** The first exchange of a run on [r] from [w]: the request itself when
    it may go out, the authentication request otherwise. *)
Definition first_request (P : platform) (r : descriptor) (w : world) : request :=
  let d := if allowed r w then r else auth_descriptor P (this w) None in
  MkRequest (method d) (endpoint (this w) ++ path d) (body d) (query d) (token (this w)).

Definition is_transport (e : event) : bool :=
  match e with
  | Transport _ => true
  | Callback _ => false
  end.

(** The number of exchanges. *)
Definition exchange_count (tr : list event) : nat := count is_transport tr.

(** The number of exchanges with the authentication endpoint of [c]. *)
Definition authentications (c : client) (tr : list event) : nat :=
  executions c auth_path tr.

(** How many exchanges a run on [r] may take: the request, once more after
    a 401, and an authentication of up to two exchanges before each. *)
Definition exchange_bound (r : descriptor) : nat :=
  if String.eqb (path r) auth_path
  then (if retry r then 1 else 2)
  else (if retry r then 3 else 6).

Definition file_mode (h : response_handler) : bool :=
  match h with
  | HProcessFile _ => true
  | _ => false
  end.

(** The files after, against the files before: in file mode the one file
    may have been written, in the other modes there is no change. *)
Definition writes_only (h : response_handler) (w w' : world) : Prop :=
  match h with
  | HProcessFile fp => forall k : string, k <> fp -> files w' !! k = files w !! k
  | _ => files w' = files w
  end.

(** From [w] to [w'] in a run of the client [c] on a request with handler
    [h]:
    - the events so far stay, and at most [k] exchanges are added;
    - the credentials and the endpoint are not changed;
    - the files change as [writes_only] says;
    - the token changes only across an exchange with the authentication
      endpoint, unless [h] itself is the authentication handler. *)
Definition advance (c : client) (h : response_handler) (k : nat) (w w' : world) : Prop :=
  (exists later : list event, trace w' = (later ++ trace w)%list)
  /\ (exchange_count (trace w') <= exchange_count (trace w) + k)%nat
  /\ (endpoint (this w') = endpoint (this w)
      /\ id (this w') = id (this w) /\ secret (this w') = secret (this w))
  /\ writes_only h w w'
  /\ (h <> HProcessAuth ->
      authentications c (trace w') = authentications c (trace w) ->
      token (this w') = token (this w)).

(** What one call of [mapiRequest] on [r] from [w] keeps, besides
    [invariant]:
    - the first new event is the exchange of [first_request];
    - the world advances as above, within [exchange_bound];
    - a request to another path than the authentication path is not
      retried without an exchange with the authentication endpoint in
      between;
    - when the handler is the authentication handler and the promise is
      resolved, the client holds the value as its token. *)
Definition history (P : platform) (r : descriptor) (w : world)
    (p : promise) (r' : descriptor) (w' : world) : Prop :=
  (exists later : list event,
      trace w' = (later ++ Transport (first_request P r w) :: trace w)%list)
  /\ advance (this w) (handler r) (exchange_bound r) w w'
  /\ (path r <> auth_path -> retry r = false -> retry r' = true ->
      (authentications (this w) (trace w) < authentications (this w) (trace w'))%nat)
  /\ (handler r = HProcessAuth -> forall t, p = Resolved t -> token (this w') = t).

Definition keeps_history (P : platform)
    (self : descriptor -> world -> option (promise * descriptor * world)) : Prop :=
  forall r w p r' w', self r w = Some (p, r', w') -> history P r w p r' w'.

(** The casings of "json". *)
Definition spells_json (s : string) : Prop :=
  exists c1 c2 c3 c4,
    s = String c1 (String c2 (String c3 (String c4 EmptyString)))
    /\ (c1 = "j" \/ c1 = "J")%char /\ (c2 = "s" \/ c2 = "S")%char
    /\ (c3 = "o" \/ c3 = "O")%char /\ (c4 = "n" \/ c4 = "N")%char.

(** ** More of the concrete environment *)

Module Reports.

(** A runtime whose dates are already in ISO form when they are strings,
    and invalid otherwise. *)
Definition plain_runtime : runtime :=
  MkRuntime (fun lit => lit)
            (fun v => match v with
                      | VData (JStr (String c t)) => Some (String c t)
                      | _ => None
                      end)
            MiniJSON.stringify
            (fun v => match v with
                      | VData (JStr s) => s
                      | _ => EmptyString
                      end).

Definition csv_query : list (string * json) :=
  ("reportType", JStr "CampaignPerformance")
  :: ("startDate", JStr "2018-09-25T00:00:00.000Z")
  :: ("endDate", JStr "2018-09-26T00:00:00.000Z")
  :: ("format", JStr "csv") :: nil.

(** The same with no end date. *)
Definition open_query : list (string * json) :=
  ("startDate", JStr "2018-09-25T00:00:00.000Z") :: ("format", JStr "JSON") :: nil.

Definition api : V081.api_client := V081.MkApiClient "api.criteo.com" VUndefined.

End Reports.

(** * Properties *)

(** ** Strings and the status test *)

Lemma trimStart_all_whitespace (s : string) :
  all_whitespace s = true -> trimStart s = EmptyString.
Proof.
  induction s as [|c t IH]; simpl; [reflexivity|].
  intros H. apply andb_true_iff in H as [Hc Ht].
  rewrite Hc. auto.
Qed.

Lemma trim_all_whitespace (s : string) :
  all_whitespace s = true -> trim s = EmptyString.
Proof.
  intros H. unfold trim. rewrite trimStart_all_whitespace by assumption.
  reflexivity.
Qed.

(** What the unanchored pattern [/20[0-9]/] finds: the characters 2, 0 and
    a digit, in a row, anywhere in the text. *)
Lemma match_20x_spec (s : string) :
  match_20x s = true <->
  exists pre d post, s = pre ++ String "2" (String "0" (String d post))
                     /\ is_digit d = true.
Proof.
  induction s as [|c t IH].
  - simpl. split; [discriminate|].
    intros (pre & d & post & H & _). destruct pre; discriminate.
  - split.
    + intros H.
      assert (Hcases :
        (exists d post, c = "2"%char /\ t = String "0" (String d post)
                        /\ is_digit d = true)
        \/ match_20x t = true).
      { simpl in H. destruct (Ascii.eqb c "2") eqn:Ec.
        - apply Ascii.eqb_eq in Ec. subst c.
          destruct t as [|c1 t1]; [simpl in H; discriminate|].
          destruct (Ascii.eqb c1 "0") eqn:E1.
          + apply Ascii.eqb_eq in E1. subst c1.
            destruct t1 as [|d post]; [simpl in H; discriminate|].
            apply orb_true_iff in H as [Hd|Ht]; [left; eauto|right; exact Ht].
          + right.
            destruct c1 as [[] [] [] [] [] [] [] []]; try exact H;
              simpl in E1; discriminate.
        - right.
          destruct c as [[] [] [] [] [] [] [] []]; try exact H;
            simpl in Ec; discriminate. }
      destruct Hcases as [(d & post & -> & -> & Hd)|Ht].
      * exists EmptyString, d, post. split; [reflexivity|exact Hd].
      * apply IH in Ht as (pre & d & post & -> & Hd).
        exists (String c pre), d, post. split; [reflexivity|exact Hd].
    + intros (pre & d & post & H & Hd).
      destruct pre as [|c' pre'].
      * simpl in H. injection H as -> ->. simpl. rewrite Hd. reflexivity.
      * simpl in H. injection H as -> Ht.
        assert (Hrec : match_20x t = true) by (apply IH; eauto).
        simpl.
        destruct c' as [[] [] [] [] [] [] [] []]; try exact Hrec.
        destruct t as [|c1 t1]; [exact Hrec|].
        destruct c1 as [[] [] [] [] [] [] [] []]; try exact Hrec.
        destruct t1 as [|d1 t2]; [exact Hrec|].
        rewrite Hrec. apply orb_true_r.
Qed.

(** The status test on every status below 1000, decided by running it. *)
Lemma status_ok_below_1000 (n : nat) :
  (n < 1000)%nat ->
  status_ok (N.of_nat n) = ((200 <=? N.of_nat n) && (N.of_nat n <=? 209))%N.
Proof.
  intros Hn.
  assert (Hall : forallb (fun k => Bool.eqb (status_ok (N.of_nat k))
                            ((200 <=? N.of_nat k) && (N.of_nat k <=? 209))%N)
                         (seq 0 1000) = true) by (vm_compute; reflexivity).
  rewrite forallb_forall in Hall.
  specialize (Hall n). apply Bool.eqb_prop. apply Hall.
  apply in_seq. lia.
Qed.

Lemma status_ok_three_digits (status : N) :
  (status < 1000)%N ->
  (status_ok status = true <-> (200 <= status <= 209)%N).
Proof.
  intros H.
  rewrite <- (N2Nat.id status) at 1.
  rewrite status_ok_below_1000 by lia.
  rewrite N2Nat.id.
  rewrite andb_true_iff, N.leb_le, N.leb_le. reflexivity.
Qed.

(** ** The response processor *)

Lemma settle_settled (c : cell) (p q : promise) :
  settle (settle c p) q = settle c p.
Proof. destruct c; reflexivity. Qed.

Lemma promise_of_settle_none (p : promise) : promise_of (settle None p) = p.
Proof. reflexivity. Qed.

(** Each of the three parsers settles the promise it is given, and leaves
    a settled one as it is. *)
Lemma parseJSON_settles (P : platform) (text : string) (c : cell) (w : world) :
  exists p, p <> Pending /\ parseJSON P text c w = (settle c p, w).
Proof.
  unfold parseJSON. destruct (nonempty text).
  - destruct (JSON_parse P text); eexists; (split; [|reflexivity]); congruence.
  - eexists; (split; [|reflexivity]); congruence.
Qed.

Lemma parseResponse_settles (text : string) (c : cell) (w : world) :
  exists p, p <> Pending /\ parseResponse text c w = (settle c p, w).
Proof.
  unfold parseResponse.
  destruct (nonempty text); eexists; (split; [|reflexivity]); congruence.
Qed.

Lemma saveToFile_settles (P : platform) (fp text : string) (c : cell) (w : world) :
  exists p w', p <> Pending /\ saveToFile P fp text c w = (settle c p, w').
Proof.
  unfold saveToFile.
  destruct (writeFile_error P (files w) fp text);
    eexists; eexists; (split; [|reflexivity]); congruence.
Qed.

Lemma process_bad_status (res : response) (parse : parser) (w : world) :
  status_ok (statusCode res) = false ->
  process res parse w =
    (promise_of (fst (parse (trim (res_body res))
                            (Some (Rejected (Thrown (bad_response res)))) w)),
     snd (parse (trim (res_body res))
                (Some (Rejected (Thrown (bad_response res)))) w)).
Proof.
  intros H. unfold process. rewrite H. simpl.
  destruct (parse _ _ w); reflexivity.
Qed.

Lemma process_good_status (res : response) (parse : parser) (w : world) :
  status_ok (statusCode res) = true ->
  process res parse w =
    (promise_of (fst (parse (trim (res_body res)) None w)),
     snd (parse (trim (res_body res)) None w)).
Proof.
  intros H. unfold process. rewrite H.
  destruct (parse _ _ w); reflexivity.
Qed.

Lemma run_handler_bad_status (P : platform) (h : response_handler) (res : response)
      (w : world) :
  h <> HProcessAuth ->
  status_ok (statusCode res) = false ->
  fst (run_handler P h res w) = Rejected (Thrown (bad_response res)).
Proof.
  intros Hh Hs.
  destruct h as [| |fp|]; [congruence| | |]; simpl;
    unfold processJSON, processFile, processResponse;
    rewrite process_bad_status by assumption; simpl.
  - destruct (parseJSON_settles P (trim (res_body res))
                (Some (Rejected (Thrown (bad_response res)))) w) as (p & _ & ->).
    reflexivity.
  - destruct (saveToFile_settles P fp (trim (res_body res))
                (Some (Rejected (Thrown (bad_response res)))) w) as (p & w' & _ & ->).
    reflexivity.
  - destruct (parseResponse_settles (trim (res_body res))
                (Some (Rejected (Thrown (bad_response res)))) w) as (p & _ & ->).
    reflexivity.
Qed.

Lemma promise_of_settle (c : cell) (p : promise) :
  c <> Some Pending -> p <> Pending -> promise_of (settle c p) <> Pending.
Proof. destruct c as [q|]; simpl; congruence. Qed.

(** No handler leaves its promise pending. *)
Lemma run_handler_settles (P : platform) (h : response_handler) (res : response)
      (w : world) :
  fst (run_handler P h res w) <> Pending.
Proof.
  assert (Hc : (if status_ok (statusCode res) then None
                else settle None (Rejected (Thrown (bad_response res))))
               <> Some Pending)
    by (destruct (status_ok (statusCode res)); simpl; congruence).
  destruct h as [| |fp|]; simpl.
  - unfold processAuth. destruct (JSON_parse P (res_body res)); [|simpl; congruence].
    destruct (access_token j); simpl; congruence.
  - unfold processJSON, process. cbv zeta.
    match goal with
    | |- context [parseJSON P ?t ?c w] =>
        destruct (parseJSON_settles P t c w) as (p & Hp & ->)
    end.
    simpl. apply promise_of_settle; assumption.
  - unfold processFile, process. cbv zeta.
    match goal with
    | |- context [saveToFile P fp ?t ?c w] =>
        destruct (saveToFile_settles P fp t c w) as (p & w' & Hp & ->)
    end.
    simpl. apply promise_of_settle; assumption.
  - unfold processResponse, process. cbv zeta.
    match goal with
    | |- context [parseResponse ?t ?c w] =>
        destruct (parseResponse_settles t c w) as (p & Hp & ->)
    end.
    simpl. apply promise_of_settle; assumption.
Qed.

(** ** The steps of the pipeline *)

Lemma append_inj_l (p a b : string) : p ++ a = p ++ b -> a = b.
Proof.
  induction p as [|c p IH]; simpl; intros H; [exact H|].
  injection H as H. auto.
Qed.

Lemma run_handler_world (P : platform) (h : response_handler) (res : response)
      (w : world) :
  trace (snd (run_handler P h res w)) = trace w
  /\ endpoint (this (snd (run_handler P h res w))) = endpoint (this w).
Proof.
  destruct h as [| |fp|]; simpl.
  - unfold processAuth. destruct (JSON_parse P (res_body res)); [|simpl; auto].
    destruct (access_token j); simpl; auto.
  - unfold processJSON, process. cbv zeta.
    match goal with
    | |- context [parseJSON P ?t ?c w] =>
        destruct (parseJSON_settles P t c w) as (p & _ & ->)
    end.
    simpl; auto.
  - unfold processFile, process, saveToFile. cbv zeta.
    destruct (writeFile_error P (files w) fp (trim (res_body res))); simpl; auto.
  - unfold processResponse, process. cbv zeta.
    match goal with
    | |- context [parseResponse ?t ?c w] =>
        destruct (parseResponse_settles t c w) as (p & _ & ->)
    end.
    simpl; auto.
Qed.

Lemma checkAuthentication_run (f : frame) :
  checkAuthentication f =
    Some (if (truthy (token (this (fr_world f))) && negb (retry (fr_r f)))
             || String.eqb (path (fr_r f)) auth_path
          then Resolved VUndefined else Rejected NoReason, f).
Proof.
  unfold checkAuthentication, bind, get_r, get_this, ret.
  destruct ((truthy (token (this (fr_world f))) && negb (retry (fr_r f)))
            || String.eqb (path (fr_r f)) auth_path); reflexivity.
Qed.

(** The request [executeRequest] sends for [r] from [w]. *)
Lemma executeRequest_run (P : platform) (f : frame) :
  let r := fr_r f in
  let w := fr_world f in
  let rq := MkRequest (method r) (endpoint (this w) ++ path r) (body r) (query r)
                      (token (this w)) in
  executeRequest P f =
    match transport P (trace w) rq with
    | Completed res =>
        Some (fst (run_handler P (handler r) res (log (Transport rq) w)),
              MkFrame (snd (run_handler P (handler r) res (log (Transport rq) w)))
                      r (fr_promise f))
    | Failed e =>
        Some (Rejected (Thrown e), MkFrame (log (Transport rq) w) r (fr_promise f))
    end.
Proof.
  destruct f as [w r c]. simpl.
  unfold executeRequest, send, bind, get_r, get_this, get_trace, modify_world,
    ret, on_world. simpl.
  destruct (transport P (trace w) _) as [res|e]; [|reflexivity].
  destruct (run_handler P (handler r) res _); reflexivity.
Qed.

Lemma executeRequest_spec (P : platform) (w : world) (r : descriptor) (c : cell) :
  exists p w',
    executeRequest P (MkFrame w r c) = Some (p, MkFrame w' r c)
    /\ p <> Pending
    /\ endpoint (this w') = endpoint (this w)
    /\ callbacks (trace w') = callbacks (trace w)
    /\ (forall q, q <> endpoint (this w) ++ path r ->
                  count (is_transport_to q) (trace w') = count (is_transport_to q) (trace w))
    /\ executions (this w) (path r) (trace w')
       = S (executions (this w) (path r) (trace w)).
Proof.
  rewrite executeRequest_run. simpl.
  set (rq := MkRequest (method r) (endpoint (this w) ++ path r) (body r) (query r)
                       (token (this w))).
  assert (Hq : forall q, q <> endpoint (this w) ++ path r ->
                 count (is_transport_to q) (Transport rq :: trace w)
                 = count (is_transport_to q) (trace w)).
  { intros q Hq. simpl.
    destruct (String.eqb_spec (endpoint (this w) ++ path r) q); [congruence|reflexivity]. }
  assert (He : executions (this w) (path r) (Transport rq :: trace w)
               = S (executions (this w) (path r) (trace w))).
  { unfold executions. simpl. rewrite String.eqb_refl. reflexivity. }
  destruct (transport P (trace w) rq) as [res|e].
  - destruct (run_handler_world P (handler r) res (log (Transport rq) w)) as [Ht Hep].
    eexists; eexists; split; [reflexivity|].
    split; [apply run_handler_settles|].
    unfold executions in *. rewrite Ht, Hep. simpl trace. simpl this.
    repeat split; auto.
  - eexists; eexists; split; [reflexivity|].
    split; [congruence|]. simpl trace. simpl this.
    repeat split; auto.
Qed.

Lemma decideWhetherToRequeue_run
      (self : descriptor -> world -> option (promise * descriptor * world))
      (err : reason) (w : world) (r : descriptor) (c : cell) :
  decideWhetherToRequeue self err (MkFrame w r c) =
    match reason_toString err with
    | None => Some (Rejected (Thrown toString_of_undefined), MkFrame w r c)
    | Some _ =>
        if mentions_401 err && negb (retry r) then
          match self (set_retry true r) w with
          | Some (p, r', w') => Some (p, MkFrame w' r' c)
          | None => None
          end
        else Some (Rejected err, MkFrame w r c)
    end.
Proof.
  unfold decideWhetherToRequeue, mentions_401, bind, get_r, ret, modify_r. simpl.
  destruct (reason_toString err) as [text|]; [|reflexivity].
  destruct ((-1 <? indexOf "401" text) && negb (retry r)); reflexivity.
Qed.

Lemma resolveRequest_run (res : jsval) (w : world) (r : descriptor) (c : cell) :
  resolveRequest res (MkFrame w r c) =
    if deliverable r then
      match delivered r (CbResult res) with
      | Rejected e =>
          Some (Rejected e,
                MkFrame (log (Callback (CbResult res)) w) (set_callbackExecuted true r) c)
      | _ =>
          Some (returned,
                MkFrame (log (Callback (CbResult res)) w) (set_callbackExecuted true r)
                        (settle c (Resolved res)))
      end
    else Some (returned, MkFrame w r (settle c (Resolved res))).
Proof.
  unfold resolveRequest, deliverable, delivered, invoke_callback, bind, get_r, ret,
    modify_r, modify_world, resolve, has_callback.
  destruct r as [m pa b q h [cb|] rt [|]]; simpl; try reflexivity.
  destruct (cb (CbResult res)); reflexivity.
Qed.

Lemma rejectRequest_run (err : reason) (w : world) (r : descriptor) (c : cell) :
  rejectRequest err (MkFrame w r c) =
    if deliverable r then
      Some (finished (match callback r with
                      | Some cb => cb (CbError err)
                      | None => None
                      end),
            MkFrame (log (Callback (CbError err)) w) (set_callbackExecuted true r) c)
    else Some (returned, MkFrame w r (settle c (Rejected err))).
Proof.
  unfold rejectRequest, deliverable, invoke_callback, bind, get_r, ret,
    modify_r, modify_world, reject, has_callback.
  destruct r as [m pa b q h [cb|] rt [|]]; reflexivity.
Qed.

(** The two completing handlers on a request with nothing to deliver: the
    promise takes the state the attempt ended in. *)
Lemma complete_plain (p : promise) (w : world) (r : descriptor) :
  deliverable r = false ->
  exists x c, complete p (MkFrame w r None) = Some (x, MkFrame w r c)
              /\ promise_of c = p.
Proof.
  intros Hd. unfold complete, bind.
  destruct p as [v|e|]; simpl.
  - rewrite resolveRequest_run, Hd. simpl. eauto.
  - rewrite rejectRequest_run, Hd. simpl. eauto.
  - unfold ret. simpl. eauto.
Qed.

(** The two completing handlers on a request whose callback is still to be
    called. *)
Lemma complete_delivering (p : promise) (w : world) (r : descriptor) :
  deliverable r = true ->
  p <> Pending ->
  exists x c args,
    complete p (MkFrame w r None)
    = Some (x, MkFrame (log (Callback args) w) (set_callbackExecuted true r) c)
    /\ promise_of c = delivered r args
    /\ args = match p with
              | Rejected e => CbError e
              | Resolved v => CbResult v
              | Pending => CbError NoReason
              end.
Proof.
  intros Hd Hp. unfold complete, bind.
  destruct p as [v|e|]; [| |congruence]; simpl.
  - rewrite resolveRequest_run, Hd.
    destruct (delivered r (CbResult v)) as [v'|e'|] eqn:E.
    + simpl. exists returned, (Some (Resolved v)), (CbResult v).
      repeat split. rewrite E. simpl.
      unfold delivered in E. destruct (callback r) as [cb|].
      * destruct (cb (CbResult v)); congruence.
      * congruence.
    + simpl. rewrite rejectRequest_run.
      assert (Hd' : deliverable (set_callbackExecuted true r) = false).
      { unfold deliverable. simpl. apply andb_false_r. }
      rewrite Hd'. simpl.
      exists returned, (Some (Rejected e')), (CbResult v).
      repeat split. rewrite E. reflexivity.
    + unfold delivered in E. destruct (callback r) as [cb|].
      * destruct (cb (CbResult v)); congruence.
      * congruence.
  - rewrite rejectRequest_run, Hd.
    exists (finished (match callback r with
                      | Some cb => cb (CbError e)
                      | None => None
                      end)), None, (CbError e).
    repeat split.
Qed.

Lemma chain_split (P : platform)
      (self : descriptor -> world -> option (promise * descriptor * world)) (f : frame) :
  chain P self f = bind (attempt P self) complete f.
Proof.
  unfold chain, attempt, complete, bind.
  destruct (checkAuthentication f) as [[p1 f1]|]; [|reflexivity].
  destruct (catch_ p1 _ f1) as [[p2 f2]|]; [|reflexivity].
  destruct (then_ p2 _ f2) as [[p3 f3]|]; [|reflexivity].
  destruct (catch_ p3 _ f3) as [[p4 f4]|]; reflexivity.
Qed.

(** What the steps before [decideWhetherToRequeue] leave behind when they
    end in [w'] from [w], for a request to path [pa]: the endpoint, no
    callback called, exchanges for [pa] and the authentication path only,
    and at most [k] for [pa]. *)
Lemma steps_compose (w w1 w2 : world) (pa : string) (k1 k2 : nat) :
  (endpoint (this w1) = endpoint (this w)
   /\ callbacks (trace w1) = callbacks (trace w)
   /\ (forall q, q <> endpoint (this w) ++ pa -> q <> endpoint (this w) ++ auth_path ->
         count (is_transport_to q) (trace w1) = count (is_transport_to q) (trace w))
   /\ (executions (this w) pa (trace w1) <= executions (this w) pa (trace w) + k1)%nat) ->
  (endpoint (this w2) = endpoint (this w1)
   /\ callbacks (trace w2) = callbacks (trace w1)
   /\ (forall q, q <> endpoint (this w1) ++ pa -> q <> endpoint (this w1) ++ auth_path ->
         count (is_transport_to q) (trace w2) = count (is_transport_to q) (trace w1))
   /\ (executions (this w1) pa (trace w2) <= executions (this w1) pa (trace w1) + k2)%nat) ->
  endpoint (this w2) = endpoint (this w)
  /\ callbacks (trace w2) = callbacks (trace w)
  /\ (forall q, q <> endpoint (this w) ++ pa -> q <> endpoint (this w) ++ auth_path ->
        count (is_transport_to q) (trace w2) = count (is_transport_to q) (trace w))
  /\ (executions (this w) pa (trace w2) <= executions (this w) pa (trace w) + (k1 + k2))%nat.
Proof.
  unfold executions.
  intros (He1 & Hc1 & Hq1 & Hx1) (He2 & Hc2 & Hq2 & Hx2).
  rewrite He1 in *.
  repeat split; try congruence.
  - intros q Ha Hb. rewrite Hq2, Hq1; auto.
  - lia.
Qed.

(** The authentication step. *)
Lemma auth_phase (P : platform)
      (self : descriptor -> world -> option (promise * descriptor * world))
      (w : world) (r : descriptor) (p2 : promise) (f2 : frame) :
  respects self ->
  bind checkAuthentication (fun p => catch_ p (fun _ => authenticate P self None))
       (MkFrame w r None) = Some (p2, f2) ->
  exists w2, f2 = MkFrame w2 r None
    /\ p2 <> Pending
    /\ endpoint (this w2) = endpoint (this w)
    /\ callbacks (trace w2) = callbacks (trace w)
    /\ (forall q, q <> endpoint (this w) ++ path r -> q <> endpoint (this w) ++ auth_path ->
          count (is_transport_to q) (trace w2) = count (is_transport_to q) (trace w))
    /\ (executions (this w) (path r) (trace w2)
        <= executions (this w) (path r) (trace w) + 0)%nat.
Proof.
  intros Hself. unfold bind. rewrite checkAuthentication_run. simpl.
  destruct ((truthy (token (this w)) && negb (retry r))
            || String.eqb (path r) auth_path) eqn:Hcheck; simpl.
  - unfold ret. intros H. injection H as <- <-.
    exists w. repeat split; auto; try congruence; lia.
  - apply orb_false_iff in Hcheck as [_ Hpath].
    apply String.eqb_neq in Hpath.
    unfold authenticate, bind, get_this. simpl.
    destruct (self (auth_descriptor P (this w) None) w) as [[[p a'] w2]|] eqn:Hcall;
      [|discriminate].
    intros H. injection H as <- <-.
    apply Hself in Hcall.
    destruct Hcall as (_ & Hep & _ & Hq & _ & Hcb). simpl in Hcb, Hq.
    destruct Hcb as (Hcb & Hp & _).
    exists w2. repeat split; auto.
    unfold executions. rewrite Hq; [lia| |].
    + intros E. apply append_inj_l in E. congruence.
    + intros E. apply append_inj_l in E. congruence.
Qed.

(** The execution step. *)
Lemma exec_phase (P : platform) (w2 : world) (r : descriptor) (p2 p3 : promise)
      (f3 : frame) :
  p2 <> Pending ->
  then_ p2 (fun _ => executeRequest P) (MkFrame w2 r None) = Some (p3, f3) ->
  exists w3, f3 = MkFrame w3 r None
    /\ p3 <> Pending
    /\ endpoint (this w3) = endpoint (this w2)
    /\ callbacks (trace w3) = callbacks (trace w2)
    /\ (forall q, q <> endpoint (this w2) ++ path r -> q <> endpoint (this w2) ++ auth_path ->
          count (is_transport_to q) (trace w3) = count (is_transport_to q) (trace w2))
    /\ (executions (this w2) (path r) (trace w3)
        <= executions (this w2) (path r) (trace w2) + 1)%nat.
Proof.
  intros Hp2. destruct p2 as [v|e|]; [| |congruence]; simpl.
  - destruct (executeRequest_spec P w2 r None) as (p & w3 & -> & Hp & Hep & Hcb & Hq & Hx).
    intros H. injection H as <- <-.
    exists w3. repeat split; auto. lia.
  - unfold ret. intros H. injection H as <- <-.
    exists w2. repeat split; auto; try congruence; lia.
Qed.

(** The decision: either the attempt ends here, or [mapiRequest] is called
    once more on the same descriptor with [retry] set. *)
Lemma decide_phase
      (self : descriptor -> world -> option (promise * descriptor * world))
      (w3 : world) (r : descriptor) (p3 p4 : promise) (f4 : frame) :
  p3 <> Pending ->
  catch_ p3 (decideWhetherToRequeue self) (MkFrame w3 r None) = Some (p4, f4) ->
  fr_promise f4 = None
  /\ ((fr_r f4 = r /\ fr_world f4 = w3 /\ p4 <> Pending)
      \/ (retry r = false
          /\ self (set_retry true r) w3 = Some (p4, fr_r f4, fr_world f4))).
Proof.
  intros Hp3. destruct p3 as [v|err|]; [| |congruence]; simpl.
  - unfold ret. intros H. injection H as <- <-. simpl.
    split; [reflexivity|]. left. repeat split. congruence.
  - rewrite decideWhetherToRequeue_run.
    destruct (reason_toString err) as [text|].
    + destruct (mentions_401 err && negb (retry r)) eqn:Hgo.
      * apply andb_true_iff in Hgo as [_ Hretry].
        apply negb_true_iff in Hretry.
        destruct (self (set_retry true r) w3) as [[[p r'] w']|]; [|discriminate].
        intros H. injection H as <- <-. simpl.
        split; [reflexivity|]. right. split; auto.
      * intros H. injection H as <- <-. simpl.
        split; [reflexivity|]. left. repeat split. congruence.
    + intros H. injection H as <- <-. simpl.
      split; [reflexivity|]. left. repeat split. congruence.
Qed.

Lemma attempt_spec (P : platform)
      (self : descriptor -> world -> option (promise * descriptor * world))
      (w : world) (r : descriptor) (p4 : promise) (f4 : frame) :
  respects self ->
  attempt P self (MkFrame w r None) = Some (p4, f4) ->
  fr_promise f4 = None
  /\ exists w3,
      (endpoint (this w3) = endpoint (this w)
       /\ callbacks (trace w3) = callbacks (trace w)
       /\ (forall q, q <> endpoint (this w) ++ path r ->
                     q <> endpoint (this w) ++ auth_path ->
             count (is_transport_to q) (trace w3) = count (is_transport_to q) (trace w))
       /\ (executions (this w) (path r) (trace w3)
           <= executions (this w) (path r) (trace w) + (0 + 1))%nat)
      /\ ((fr_r f4 = r /\ fr_world f4 = w3 /\ p4 <> Pending)
          \/ (retry r = false
              /\ self (set_retry true r) w3 = Some (p4, fr_r f4, fr_world f4))).
Proof.
  intros Hself Hrun.
  unfold attempt in Hrun.
  assert (Hassoc :
    forall f, bind checkAuthentication
         (fun p => bind (catch_ p (fun _ => authenticate P self None))
            (fun p => bind (then_ p (fun _ => executeRequest P))
               (fun p => catch_ p (decideWhetherToRequeue self)))) f
    = bind (bind checkAuthentication
                 (fun p => catch_ p (fun _ => authenticate P self None)))
           (fun p => bind (then_ p (fun _ => executeRequest P))
              (fun p => catch_ p (decideWhetherToRequeue self))) f).
  { intros f. unfold bind.
    destruct (checkAuthentication f) as [[p1 f1]|]; reflexivity. }
  rewrite Hassoc in Hrun. clear Hassoc.
  unfold bind at 1 in Hrun.
  destruct (bind checkAuthentication _ (MkFrame w r None)) as [[p2 f2]|] eqn:Hauth;
    [|discriminate].
  apply (auth_phase P self w r p2 f2 Hself) in Hauth.
  destruct Hauth as (w2 & -> & Hp2 & Hstep2).
  unfold bind in Hrun.
  destruct (then_ p2 _ (MkFrame w2 r None)) as [[p3 f3]|] eqn:Hexec; [|discriminate].
  apply exec_phase in Hexec; [|exact Hp2].
  destruct Hexec as (w3 & -> & Hp3 & Hstep3).
  apply decide_phase in Hrun; [|exact Hp3].
  destruct Hrun as [Hcell Hcases].
  split; [exact Hcell|].
  exists w3. split; [|exact Hcases].
  exact (steps_compose w w2 w3 (path r) 0 1 Hstep2 Hstep3).
Qed.

(** ** The invariant of [mapiRequest] *)

Lemma deliverable_set_retry (b : bool) (r : descriptor) :
  deliverable (set_retry b r) = deliverable r.
Proof. reflexivity. Qed.

Lemma delivered_set_retry (b : bool) (r : descriptor) (args : callback_args) :
  delivered (set_retry b r) args = delivered r args.
Proof. reflexivity. Qed.

Lemma deliverable_same (r r' : descriptor) :
  callback r' = callback r -> callbackExecuted r' = callbackExecuted r ->
  deliverable r' = deliverable r.
Proof. unfold deliverable, has_callback. intros -> ->. reflexivity. Qed.

Lemma deliverable_executed (r : descriptor) :
  callbackExecuted r = true -> deliverable r = false.
Proof. unfold deliverable. intros ->. apply andb_false_r. Qed.

Lemma body_respects (P : platform)
      (self : descriptor -> world -> option (promise * descriptor * world)) :
  respects self -> respects (mapiRequest_body P self).
Proof.
  intros Hself r w p r' w' H.
  unfold mapiRequest_body in H. rewrite chain_split in H. unfold bind in H.
  destruct (attempt P self (MkFrame w r None)) as [[p4 f4]|] eqn:Ha; [|discriminate].
  apply attempt_spec in Ha; [|exact Hself].
  destruct Ha as (Hcell & w3 & Hsteps & Hcases).
  destruct f4 as [w4 r4 c4]. simpl in Hcell, Hcases. subst c4.
  destruct Hcases as [(-> & -> & Hp4)|(Hretry & Hcall)].
  - (* the attempt ended without a further call *)
    destruct Hsteps as (Hep & Hcb & Hq & Hx).
    destruct (deliverable r) eqn:Hd.
    + destruct (complete_delivering p4 w3 r Hd Hp4) as (x & c & args & Hrun & Hc & _).
      rewrite Hrun in H. simpl in H. injection H as <- <- <-.
      unfold invariant. rewrite Hd. simpl trace. simpl this.
      split; [repeat split|].
      split; [exact Hep|].
      split; [auto|].
      split; [intros q Ha Hb; simpl; auto|].
      split; [unfold executions in *; simpl; destruct (retry r); lia|].
      exists args, (trace w3). repeat split; auto.
    + destruct (complete_plain p4 w3 r Hd) as (x & c & Hrun & Hc).
      rewrite Hrun in H. simpl in H. injection H as <- <- <-.
      unfold invariant. rewrite Hd.
      split; [repeat split|].
      split; [exact Hep|].
      split; [auto|].
      split; [exact Hq|].
      split; [destruct (retry r); lia|].
      rewrite Hc. repeat split; auto.
  - (* one more call on the same descriptor, [retry] set *)
    apply Hself in Hcall.
    destruct Hcall as (Hsame & Hep4 & Hr4 & Hq4 & Hx4 & Hcb4).
    rewrite deliverable_set_retry in Hcb4. simpl in Hq4, Hx4.
    assert (Hd4 : deliverable r4 = false).
    { destruct (deliverable r) eqn:Hd.
      - destruct Hcb4 as (args & tr & _ & _ & _ & Hex).
        apply deliverable_executed. exact Hex.
      - destruct Hcb4 as (_ & _ & Hex).
        rewrite <- Hd. apply deliverable_same; [apply Hsame|exact Hex]. }
    destruct (complete_plain p4 w4 r4 Hd4) as (x & c & Hrun & Hc).
    rewrite Hrun in H. simpl in H. injection H as <- <- <-.
    rewrite Hc. clear Hrun Hc x c.
    destruct Hsteps as (Hep & Hcb & Hq & Hx).
    unfold invariant, executions in *.
    rewrite Hep in *. rewrite Hretry.
    split; [exact Hsame|].
    split; [congruence|].
    split; [discriminate|].
    split; [intros q Ha Hb; rewrite Hq4, Hq; auto|].
    split; [lia|].
    destruct (deliverable r).
    + destruct Hcb4 as (args & tr & Htr & Hcbs & Hp & Hex).
      exists args, tr. repeat split; auto. congruence.
    + destruct Hcb4 as (Hcbs & Hp & Hex).
      repeat split; auto. congruence.
Qed.

Theorem mapiRequest_invariant (P : platform) (fuel : nat) :
  respects (mapiRequest P fuel).
Proof.
  induction fuel as [|n IH].
  - intros r w p r' w' H. discriminate.
  - simpl. apply body_respects. exact IH.
Qed.

(** ** Every call of [mapiRequest] returns *)

Lemma complete_total (p : promise) (f : frame) :
  exists x f', complete p f = Some (x, f').
Proof.
  destruct f as [w r c]. unfold complete, bind.
  destruct p as [v|e|]; simpl.
  - rewrite resolveRequest_run.
    destruct (deliverable r); [|simpl; eauto].
    destruct (delivered r (CbResult v)); simpl; eauto.
    rewrite rejectRequest_run.
    destruct (deliverable (set_callbackExecuted true r)); eauto.
  - rewrite rejectRequest_run. destruct (deliverable r); eauto.
  - unfold ret. simpl. eauto.
Qed.

Lemma attempt_total (P : platform)
      (self : descriptor -> world -> option (promise * descriptor * world))
      (w : world) (r : descriptor) :
  (String.eqb (path r) auth_path = false ->
   forall c w', exists res, self (auth_descriptor P c None) w' = Some res) ->
  (retry r = false -> forall w', exists res, self (set_retry true r) w' = Some res) ->
  exists p f, attempt P self (MkFrame w r None) = Some (p, f).
Proof.
  intros Hauth Hretry.
  assert (Hrest : forall p2 w2,
    exists p f, bind (then_ p2 (fun _ => executeRequest P))
                     (fun p => catch_ p (decideWhetherToRequeue self))
                     (MkFrame w2 r None) = Some (p, f)).
  { intros p2 w2. unfold bind.
    assert (Hex : exists p3 w3, then_ p2 (fun _ => executeRequest P) (MkFrame w2 r None)
                                = Some (p3, MkFrame w3 r None)).
    { destruct p2 as [v|e|]; simpl; unfold ret; eauto.
      destruct (executeRequest_spec P w2 r None) as (p & w3 & -> & _). eauto. }
    destruct Hex as (p3 & w3 & ->).
    destruct p3 as [v|err|]; simpl; unfold ret; eauto.
    rewrite decideWhetherToRequeue_run.
    destruct (reason_toString err); eauto.
    destruct (mentions_401 err && negb (retry r)) eqn:Hgo; eauto.
    apply andb_true_iff in Hgo as [_ Hr]. apply negb_true_iff in Hr.
    destruct (Hretry Hr w3) as [[[p r'] w'] ->]. eauto. }
  unfold attempt, bind. rewrite checkAuthentication_run. simpl.
  destruct ((truthy (token (this w)) && negb (retry r))
            || String.eqb (path r) auth_path) eqn:Hcheck; simpl.
  - exact (Hrest (Resolved VUndefined) w).
  - apply orb_false_iff in Hcheck as [_ Hpath].
    unfold authenticate, bind, get_this. simpl.
    destruct (Hauth Hpath (this w) w) as [[[p a'] w2] ->].
    exact (Hrest p w2).
Qed.

Lemma depth_auth_descriptor (P : platform) (c : client) (cb : option user_callback) :
  depth (auth_descriptor P c cb) = 2%nat.
Proof. reflexivity. Qed.

Theorem mapiRequest_total (P : platform) (fuel : nat) :
  forall (r : descriptor) (w : world),
    (depth r <= fuel)%nat ->
    exists res, mapiRequest P fuel r w = Some res.
Proof.
  induction fuel as [|n IH]; intros r w Hd.
  - unfold depth in Hd. lia.
  - simpl. unfold mapiRequest_body. rewrite chain_split. unfold bind.
    destruct (attempt_total P (mapiRequest P n) w r) as (p4 & f4 & ->).
    + intros Hpath c w'. apply IH. rewrite depth_auth_descriptor.
      unfold depth in Hd. rewrite Hpath in Hd. lia.
    + intros Hr w'. apply IH.
      unfold depth in *. simpl. rewrite Hr in Hd. lia.
    + destruct (complete_total p4 f4) as (x & f' & ->). eauto.
Qed.

Lemma depth_enough (r : descriptor) : (depth r <= enough)%nat.
Proof.
  unfold depth, enough.
  destruct (String.eqb (path r) auth_path), (retry r); simpl; lia.
Qed.

(** A run with enough fuel returns, and what it returns has the
    invariant. *)
Lemma mapiRequest_returns (P : platform) (fuel : nat) (r : descriptor) (w : world) :
  (enough <= fuel)%nat ->
  exists p r' w', mapiRequest P fuel r w = Some (p, r', w')
                 /\ invariant r w p r' w'.
Proof.
  intros Hf.
  destruct (mapiRequest_total P fuel r w) as [[[p r'] w'] Hrun].
  - pose proof (depth_enough r). lia.
  - exists p, r', w'. split; [exact Hrun|].
    exact (mapiRequest_invariant P fuel r w p r' w' Hrun).
Qed.

(** More fuel than needed changes nothing. *)
Lemma mapiRequest_fuel (P : platform) (n : nat) :
  forall (m : nat) (r : descriptor) (w : world) res,
    mapiRequest P n r w = Some res -> (n <= m)%nat -> mapiRequest P m r w = Some res.
Proof.
  induction n as [|n IH]; intros m r w res H Hm; [discriminate|].
  destruct m as [|m]; [lia|].
  simpl in *. unfold mapiRequest_body in *. rewrite chain_split in *.
  unfold bind in *.
  assert (Hatt : forall p f, attempt P (mapiRequest P n) (MkFrame w r None) = Some (p, f) ->
                             attempt P (mapiRequest P m) (MkFrame w r None) = Some (p, f)).
  { clear H. intros p f. unfold attempt, bind.
    rewrite checkAuthentication_run. simpl.
    assert (Hrest : forall p2 w2,
      match then_ p2 (fun _ => executeRequest P) (MkFrame w2 r None) with
      | Some (a, f') => catch_ a (decideWhetherToRequeue (mapiRequest P n)) f'
      | None => None
      end = Some (p, f) ->
      match then_ p2 (fun _ => executeRequest P) (MkFrame w2 r None) with
      | Some (a, f') => catch_ a (decideWhetherToRequeue (mapiRequest P m)) f'
      | None => None
      end = Some (p, f)).
    { intros p2 w2.
      destruct (then_ p2 _ (MkFrame w2 r None)) as [[p3 [w3 r3 c3]]|]; [|auto].
      destruct p3 as [v|err|]; simpl; auto.
      rewrite !decideWhetherToRequeue_run.
      destruct (reason_toString err); auto.
      destruct (mentions_401 err && negb (retry r3)); auto.
      destruct (mapiRequest P n (set_retry true r3) w3) as [res'|] eqn:E; [|discriminate].
      rewrite (IH m _ _ _ E) by lia. auto. }
    destruct ((truthy (token (this w)) && negb (retry r))
              || String.eqb (path r) auth_path); simpl.
    - exact (Hrest (Resolved VUndefined) w).
    - unfold authenticate, bind, get_this. simpl.
      destruct (mapiRequest P n (auth_descriptor P (this w) None) w) as [res'|] eqn:E;
        [|discriminate].
      rewrite (IH m _ _ _ E) by lia.
      destruct res' as [[p2 a'] w2]. exact (Hrest p2 w2). }
  destruct (attempt P (mapiRequest P n) (MkFrame w r None)) as [[p4 f4]|] eqn:Ha;
    [|discriminate].
  rewrite (Hatt p4 f4 eq_refl). exact H.
Qed.

(** ** The retry bound *)

(** With [retry] set, or with a failure text without "401",
    [decideWhetherToRequeue] hands the failure on as it is: [mapiRequest]
    is not called, nothing is sent. *)
Lemma decideWhetherToRequeue_gives_up
      (self : descriptor -> world -> option (promise * descriptor * world))
      (e : jserror) (w : world) (r : descriptor) (c : cell) :
  retry r = true \/ mentions_401 (Thrown e) = false ->
  decideWhetherToRequeue self (Thrown e) (MkFrame w r c)
  = Some (Rejected (Thrown e), MkFrame w r c).
Proof.
  intros H. rewrite decideWhetherToRequeue_run. simpl.
  destruct H as [-> | ->]; [rewrite andb_false_r|]; reflexivity.
Qed.

Lemma executions_endpoint (c c' : client) (p : string) (tr : list event) :
  endpoint c' = endpoint c -> executions c' p tr = executions c p tr.
Proof. unfold executions. intros ->. reflexivity. Qed.

(** A run of one step less has the same outcome, where it is deep
    enough. *)
Lemma nested_run (P : platform) (n : nat) (r : descriptor) (w : world)
      (res : promise * descriptor * world) :
  (depth r <= n)%nat ->
  mapiRequest P (S n) r w = Some res ->
  mapiRequest P n r w = Some res.
Proof.
  intros Hn Hrun.
  destruct (mapiRequest_total P n r w Hn) as [res0 H0].
  rewrite (mapiRequest_fuel P n (S n) _ _ _ H0) in Hrun by lia.
  congruence.
Qed.

(** The authentication that a run of [fuel] steps starts is a run of its
    own with the same outcome. *)
Lemma nested_authentication (P : platform) (n : nat) (c : client) (w : world)
      (res : promise * descriptor * world) :
  (enough <= S n)%nat ->
  mapiRequest P (S n) (auth_descriptor P c None) w = Some res ->
  mapiRequest P n (auth_descriptor P c None) w = Some res.
Proof.
  intros Hn. apply nested_run.
  rewrite depth_auth_descriptor. unfold enough in Hn. lia.
Qed.

(** The steps before the exchange of a request that is not sent at once:
    the authentication, resolved, and nothing else. *)
Lemma authenticated_first (P : platform) (n : nat) (r : descriptor) (w w1 : world)
      (t : jsval) (a' : descriptor) :
  (truthy (token (this w)) && negb (retry r)) || String.eqb (path r) auth_path = false ->
  mapiRequest P n (auth_descriptor P (this w) None) w = Some (Resolved t, a', w1) ->
  bind checkAuthentication (fun p => catch_ p (fun _ => authenticate P (mapiRequest P n) None))
       (MkFrame w r None)
  = Some (Resolved t, MkFrame w1 r None)
  /\ endpoint (this w1) = endpoint (this w)
  /\ executions (this w) (path r) (trace w1) = executions (this w) (path r) (trace w).
Proof.
  intros Hal Hnest. split; [|split].
  - unfold bind. rewrite checkAuthentication_run. simpl. rewrite Hal. simpl.
    unfold authenticate, bind, get_this. simpl. rewrite Hnest. reflexivity.
  - destruct (mapiRequest_invariant P n _ _ _ _ _ Hnest) as (_ & H & _). exact H.
  - destruct (mapiRequest_invariant P n _ _ _ _ _ Hnest) as (_ & _ & _ & Hq & _).
    simpl in Hq. unfold executions.
    apply orb_false_iff in Hal as [_ Hp]. apply String.eqb_neq in Hp.
    apply Hq; intros E; apply append_inj_l in E; congruence.
Qed.

(** The outcome of a run on a descriptor that is already marked as
    retried and whose exchange fails: the failure of that exchange, with
    no further call of [mapiRequest]. *)
Lemma retried_failure_outcome (P : platform) (fuel : nat) (r : descriptor)
      (w w1 w2 : world) (e : jserror) :
  (enough <= fuel)%nat ->
  retry r = true ->
  (path r = auth_path /\ w1 = w)
  \/ (path r <> auth_path
      /\ exists t a', mapiRequest P fuel (auth_descriptor P (this w) None) w
                      = Some (Resolved t, a', w1)) ->
  executeRequest P (MkFrame w1 r None) = Some (Rejected (Thrown e), MkFrame w2 r None) ->
  mapiRequest P fuel r w
  = Some (if deliverable r then Pending else Rejected (Thrown e),
          if deliverable r then set_callbackExecuted true r else r,
          if deliverable r then log (Callback (CbError (Thrown e))) w2 else w2)
  /\ endpoint (this w2) = endpoint (this w)
  /\ executions (this w) (path r) (trace w2) = S (executions (this w) (path r) (trace w)).
Proof.
  intros Hf Hr Hpre Hexec.
  destruct fuel as [|n]; [unfold enough in Hf; lia|].
  assert (Hfirst : exists t,
    bind checkAuthentication
         (fun p => catch_ p (fun _ => authenticate P (mapiRequest P n) None))
         (MkFrame w r None)
    = Some (Resolved t, MkFrame w1 r None)
    /\ endpoint (this w1) = endpoint (this w)
    /\ executions (this w) (path r) (trace w1) = executions (this w) (path r) (trace w)).
  { destruct Hpre as [[Hp ->]|[Hp (t & a' & Hnest)]].
    - exists VUndefined. split; [|split; reflexivity].
      unfold bind. rewrite checkAuthentication_run. simpl.
      rewrite Hp, String.eqb_refl, orb_true_r. reflexivity.
    - exists t. apply (authenticated_first P n r w w1 t a').
      + rewrite Hr, andb_false_r. simpl. apply String.eqb_neq. exact Hp.
      + apply nested_authentication; assumption. }
  destruct Hfirst as (t & Hfirst & Hep1 & Hx1).
  destruct (executeRequest_spec P w1 r None) as (p & w' & Hrun & _ & Hep2 & _ & _ & Hx2).
  rewrite Hexec in Hrun. injection Hrun as <- <-.
  assert (Ha : attempt P (mapiRequest P n) (MkFrame w r None)
               = Some (Rejected (Thrown e), MkFrame w2 r None)).
  { unfold attempt.
    assert (Hassoc :
      forall f, bind checkAuthentication
           (fun p => bind (catch_ p (fun _ => authenticate P (mapiRequest P n) None))
              (fun p => bind (then_ p (fun _ => executeRequest P))
                 (fun p => catch_ p (decideWhetherToRequeue (mapiRequest P n))))) f
      = bind (bind checkAuthentication
                   (fun p => catch_ p (fun _ => authenticate P (mapiRequest P n) None)))
             (fun p => bind (then_ p (fun _ => executeRequest P))
                (fun p => catch_ p (decideWhetherToRequeue (mapiRequest P n)))) f).
    { intros f. unfold bind.
      destruct (checkAuthentication f) as [[p1 f1]|]; reflexivity. }
    rewrite Hassoc. unfold bind at 1. rewrite Hfirst.
    unfold bind. simpl. rewrite Hexec. simpl.
    apply decideWhetherToRequeue_gives_up. left. exact Hr. }
  split; [|split].
  - simpl. unfold mapiRequest_body. rewrite chain_split. unfold bind. rewrite Ha.
    unfold complete, bind. simpl. rewrite rejectRequest_run.
    destruct (deliverable r); reflexivity.
  - congruence.
  - rewrite (executions_endpoint (this w) (this w1)) in Hx2 by exact Hep1.
    rewrite (executions_endpoint (this w) (this w1)) in Hx2 by exact Hep1.
    rewrite Hx2, Hx1. reflexivity.
Qed.

(** Two failures in a row: the first one, classified 401, makes the
    client authenticate and send the request once more; the failure of
    that second exchange is the outcome of the run. *)
Lemma second_failure_outcome (P : platform) (fuel : nat) (r : descriptor)
      (w w1 w2 w3 w4 : world) (e1 e2 : jserror) (t : jsval) (a' : descriptor) :
  (enough <= fuel)%nat ->
  retry r = false ->
  path r <> auth_path ->
  (truthy (token (this w)) = true /\ w1 = w)
  \/ (truthy (token (this w)) = false
      /\ exists t0 a0, mapiRequest P fuel (auth_descriptor P (this w) None) w
                       = Some (Resolved t0, a0, w1)) ->
  executeRequest P (MkFrame w1 r None) = Some (Rejected (Thrown e1), MkFrame w2 r None) ->
  mentions_401 (Thrown e1) = true ->
  mapiRequest P fuel (auth_descriptor P (this w2) None) w2 = Some (Resolved t, a', w3) ->
  executeRequest P (MkFrame w3 (set_retry true r) None)
  = Some (Rejected (Thrown e2), MkFrame w4 (set_retry true r) None) ->
  mapiRequest P fuel r w
  = Some (if deliverable r then Pending else Rejected (Thrown e2),
          if deliverable r then set_callbackExecuted true (set_retry true r)
          else set_retry true r,
          if deliverable r then log (Callback (CbError (Thrown e2))) w4 else w4)
  /\ executions (this w) (path r) (trace w4)
     = (executions (this w) (path r) (trace w) + 2)%nat.
Proof.
  intros Hf Hr Hp Hpre Hexec1 H401 Hauth Hexec2.
  destruct (retried_failure_outcome P fuel (set_retry true r) w2 w3 w4 e2 Hf eq_refl)
    as (Hinner & Hep4 & Hx4); [right; split; [exact Hp|eauto]|exact Hexec2|].
  rewrite deliverable_set_retry in Hinner.
  destruct fuel as [|n]; [unfold enough in Hf; lia|].
  apply nested_run in Hinner;
    [|unfold depth; simpl; apply String.eqb_neq in Hp; rewrite Hp;
      unfold enough in Hf; simpl; lia].
  assert (Heqb : String.eqb (path r) auth_path = false) by (apply String.eqb_neq; exact Hp).
  assert (Hfirst : exists t0,
    bind checkAuthentication
         (fun p => catch_ p (fun _ => authenticate P (mapiRequest P n) None))
         (MkFrame w r None)
    = Some (Resolved t0, MkFrame w1 r None)
    /\ endpoint (this w1) = endpoint (this w)
    /\ executions (this w) (path r) (trace w1) = executions (this w) (path r) (trace w)).
  { destruct Hpre as [[Htok ->]|[Htok (t0 & a0 & Hnest)]].
    - exists VUndefined. split; [|split; reflexivity].
      unfold bind. rewrite checkAuthentication_run. simpl.
      rewrite Htok, Hr. reflexivity.
    - exists t0. apply (authenticated_first P n r w w1 t0 a0).
      + rewrite Htok, Heqb. reflexivity.
      + apply nested_authentication; assumption. }
  destruct Hfirst as (t0 & Hfirst & Hep1 & Hx1).
  destruct (executeRequest_spec P w1 r None) as (p & w' & Hrun & _ & Hep2 & _ & _ & Hx2).
  rewrite Hexec1 in Hrun. injection Hrun as <- <-.
  assert (Ha : attempt P (mapiRequest P n) (MkFrame w r None)
               = Some (if deliverable r then Pending else Rejected (Thrown e2),
                       MkFrame (if deliverable r
                                then log (Callback (CbError (Thrown e2))) w4 else w4)
                               (if deliverable r
                                then set_callbackExecuted true (set_retry true r)
                                else set_retry true r)
                               None)).
  { unfold attempt.
    assert (Hassoc :
      forall f, bind checkAuthentication
           (fun p => bind (catch_ p (fun _ => authenticate P (mapiRequest P n) None))
              (fun p => bind (then_ p (fun _ => executeRequest P))
                 (fun p => catch_ p (decideWhetherToRequeue (mapiRequest P n))))) f
      = bind (bind checkAuthentication
                   (fun p => catch_ p (fun _ => authenticate P (mapiRequest P n) None)))
             (fun p => bind (then_ p (fun _ => executeRequest P))
                (fun p => catch_ p (decideWhetherToRequeue (mapiRequest P n)))) f).
    { intros f. unfold bind.
      destruct (checkAuthentication f) as [[p1 f1]|]; reflexivity. }
    rewrite Hassoc. unfold bind at 1. rewrite Hfirst.
    unfold bind. simpl. rewrite Hexec1. simpl.
    rewrite decideWhetherToRequeue_run. simpl reason_toString. cbv iota.
    rewrite H401, Hr. simpl. rewrite Hinner. reflexivity. }
  split.
  - simpl. unfold mapiRequest_body. rewrite chain_split. unfold bind. rewrite Ha.
    destruct (deliverable r) eqn:Hd.
    + assert (Hd' : deliverable (set_callbackExecuted true (set_retry true r)) = false)
        by (apply deliverable_executed; reflexivity).
      destruct (complete_plain Pending (log (Callback (CbError (Thrown e2))) w4)
                  (set_callbackExecuted true (set_retry true r)) Hd')
        as (x & c & -> & Hc).
      simpl. rewrite Hc. reflexivity.
    + assert (Hd' : deliverable (set_retry true r) = false) by exact Hd.
      destruct (complete_plain (Rejected (Thrown e2)) w4 (set_retry true r) Hd')
        as (x & c & -> & Hc).
      simpl. rewrite Hc. reflexivity.
  - assert (Hep : endpoint (this w2) = endpoint (this w)) by congruence.
    simpl in Hx4.
    rewrite !(executions_endpoint (this w) (this w2) _ _ Hep) in Hx4.
    rewrite !(executions_endpoint (this w) (this w1) _ _ Hep1) in Hx2.
    rewrite Hx4, Hx2, Hx1. lia.
Qed.

(** C1.  Every request descriptor is retried at most once.
    - A run makes at most two exchanges for the descriptor's path, and at
      most one when [retry] is already set; [retry] is never cleared.
    - With [retry] set, a failure (classified 401 or not) is handed on
      unchanged by [decideWhetherToRequeue] without calling [mapiRequest]
      again, and [rejectRequest] delivers it.
    - The run on a descriptor with [retry] set whose exchange fails ends
      with that failure: one exchange for the path, and the failure goes
      to the callback, if one is still to be called (the promise then
      stays as it is), and rejects the promise otherwise.
    - Two failures in a row: when the first exchange fails with a text
      that holds "401", the client authenticates and sends the request a
      second time; when that exchange fails too, the run ends with the
      second failure, delivered in the same way, after exactly two
      exchanges for the path. *)
Theorem at_most_one_retry (P : platform) (fuel : nat) (r : descriptor) (w : world) :
  (enough <= fuel)%nat ->
  (exists p r' w',
     mapiRequest P fuel r w = Some (p, r', w')
     /\ (executions (this w) (path r) (trace w')
         <= executions (this w) (path r) (trace w) + 2)%nat
     /\ (retry r = true ->
         retry r' = true
         /\ (executions (this w) (path r) (trace w')
             <= executions (this w) (path r) (trace w) + 1)%nat))
  /\ (forall self e w1 c,
        retry r = true ->
        mentions_401 (Thrown e) = true ->
        decideWhetherToRequeue self (Thrown e) (MkFrame w1 r c)
        = Some (Rejected (Thrown e), MkFrame w1 r c)
        /\ rejectRequest (Thrown e) (MkFrame w1 r c)
           = if deliverable r
             then Some (finished (match callback r with
                                  | Some cb => cb (CbError (Thrown e))
                                  | None => None
                                  end),
                        MkFrame (log (Callback (CbError (Thrown e))) w1)
                                (set_callbackExecuted true r) c)
             else Some (returned, MkFrame w1 r (settle c (Rejected (Thrown e)))))
  /\ (forall w1 w2 e,
        retry r = true ->
        (path r = auth_path /\ w1 = w)
        \/ (path r <> auth_path
            /\ exists t a', mapiRequest P fuel (auth_descriptor P (this w) None) w
                            = Some (Resolved t, a', w1)) ->
        executeRequest P (MkFrame w1 r None)
        = Some (Rejected (Thrown e), MkFrame w2 r None) ->
        exists p r' w',
          mapiRequest P fuel r w = Some (p, r', w')
          /\ retry r' = true
          /\ executions (this w) (path r) (trace w')
             = S (executions (this w) (path r) (trace w))
          /\ if deliverable r
             then w' = log (Callback (CbError (Thrown e))) w2 /\ p = Pending
             else w' = w2 /\ p = Rejected (Thrown e))
  /\ (forall w1 w2 w3 w4 e1 e2 t a',
        retry r = false ->
        path r <> auth_path ->
        (truthy (token (this w)) = true /\ w1 = w)
        \/ (truthy (token (this w)) = false
            /\ exists t0 a0, mapiRequest P fuel (auth_descriptor P (this w) None) w
                             = Some (Resolved t0, a0, w1)) ->
        executeRequest P (MkFrame w1 r None)
        = Some (Rejected (Thrown e1), MkFrame w2 r None) ->
        mentions_401 (Thrown e1) = true ->
        mapiRequest P fuel (auth_descriptor P (this w2) None) w2
        = Some (Resolved t, a', w3) ->
        executeRequest P (MkFrame w3 (set_retry true r) None)
        = Some (Rejected (Thrown e2), MkFrame w4 (set_retry true r) None) ->
        exists p r' w',
          mapiRequest P fuel r w = Some (p, r', w')
          /\ retry r' = true
          /\ executions (this w) (path r) (trace w')
             = (executions (this w) (path r) (trace w) + 2)%nat
          /\ if deliverable r
             then w' = log (Callback (CbError (Thrown e2))) w4 /\ p = Pending
             else w' = w4 /\ p = Rejected (Thrown e2)).
Proof.
  intros Hfuel. split; [|split; [|split]].
  - destruct (mapiRequest_returns P fuel r w Hfuel) as (p & r' & w' & Hrun & Hinv).
    exists p, r', w'. split; [exact Hrun|].
    destruct Hinv as (_ & _ & Hretry & _ & Hx & _).
    split.
    + destruct (retry r); lia.
    + intros Hr. split; [auto|]. rewrite Hr in Hx. exact Hx.
  - intros self e w1 c Hr _. split.
    + apply decideWhetherToRequeue_gives_up. left. exact Hr.
    + apply rejectRequest_run.
  - intros w1 w2 e Hr Hpre Hexec.
    destruct (retried_failure_outcome P fuel r w w1 w2 e Hfuel Hr Hpre Hexec)
      as (Hrun & _ & Hx).
    eexists. eexists. eexists. split; [exact Hrun|].
    destruct (deliverable r); simpl; (split; [exact Hr|]); (split; [exact Hx|]); auto.
  - intros w1 w2 w3 w4 e1 e2 t a' Hr Hp Hpre Hexec1 H401 Hauth Hexec2.
    destruct (second_failure_outcome P fuel r w w1 w2 w3 w4 e1 e2 t a'
                Hfuel Hr Hp Hpre Hexec1 H401 Hauth Hexec2) as (Hrun & Hx).
    eexists. eexists. eexists. split; [exact Hrun|].
    destruct (deliverable r); simpl; (split; [reflexivity|]); (split; [exact Hx|]); auto.
Qed.

(** ** Delivery to the callback *)

(** C2.  The user callback of a descriptor is called exactly once in the
    whole run of [mapiRequest], the retry on the same descriptor
    included: a run on a descriptor whose callback is still to be called
    calls it once and sets [callbackExecuted]; a run on a descriptor with
    [callbackExecuted] set, or without a callback, calls none. *)
Theorem callback_exactly_once (P : platform) (fuel : nat) (r : descriptor) (w : world) :
  (enough <= fuel)%nat ->
  exists p r' w',
    mapiRequest P fuel r w = Some (p, r', w')
    /\ callbacks (trace w') = (callbacks (trace w) + (if deliverable r then 1 else 0))%nat
    /\ (has_callback r = true -> callbackExecuted r' = true)
    /\ (callbackExecuted r = true -> callbacks (trace w') = callbacks (trace w)).
Proof.
  intros Hfuel.
  destruct (mapiRequest_returns P fuel r w Hfuel) as (p & r' & w' & Hrun & Hinv).
  exists p, r', w'. split; [exact Hrun|].
  destruct Hinv as (_ & _ & _ & _ & _ & Hcb).
  destruct (deliverable r) eqn:Hd.
  - destruct Hcb as (args & tr & Htr & Hn & _ & Hex).
    rewrite Htr. unfold callbacks in *. simpl. rewrite Hn.
    split; [lia|]. split; [auto|].
    intros He. apply deliverable_executed in He. congruence.
  - destruct Hcb as (Hn & _ & Hex).
    split; [lia|]. split; [|auto].
    intros Hc. rewrite Hex.
    unfold deliverable in Hd. rewrite Hc in Hd. simpl in Hd.
    apply negb_false_iff in Hd. exact Hd.
Qed.

(** C3, as the code has it.  For a descriptor whose callback is still to
    be called, [rejectRequest] calls the callback with the error alone and
    does not touch the promise; the promise is rejected only when there is
    no callback to call.  So a run that ends by calling the callback with
    an error leaves the promise of [mapiRequest] pending for ever, and one
    that calls it with a result resolves the promise with that result
    (or rejects it with what the callback threw). *)
Theorem failure_goes_to_callback_or_promise (P : platform) (fuel : nat)
        (r : descriptor) (w : world) :
  (enough <= fuel)%nat ->
  (forall err w1 c,
     rejectRequest err (MkFrame w1 r c)
     = if deliverable r
       then Some (finished (match callback r with
                            | Some cb => cb (CbError err)
                            | None => None
                            end),
                  MkFrame (log (Callback (CbError err)) w1)
                          (set_callbackExecuted true r) c)
       else Some (returned, MkFrame w1 r (settle c (Rejected err))))
  /\ (exists p r' w',
        mapiRequest P fuel r w = Some (p, r', w')
        /\ if deliverable r
           then exists args tr,
                  trace w' = Callback args :: tr
                  /\ callbacks tr = callbacks (trace w)
                  /\ p = delivered r args
                  /\ (forall err, args = CbError err -> p = Pending)
           else callbacks (trace w') = callbacks (trace w) /\ p <> Pending).
Proof.
  intros Hfuel. split.
  - intros err w1 c. apply rejectRequest_run.
  - destruct (mapiRequest_returns P fuel r w Hfuel) as (p & r' & w' & Hrun & Hinv).
    exists p, r', w'. split; [exact Hrun|].
    destruct Hinv as (_ & _ & _ & _ & _ & Hcb).
    destruct (deliverable r).
    + destruct Hcb as (args & tr & Htr & Hn & Hp & _).
      exists args, tr. repeat split; auto.
      intros err ->. exact Hp.
    + destruct Hcb as (Hn & Hp & _). auto.
Qed.

(** A failure is classified by its text.  A request that goes out at once
    and fails with an error whose text does not contain "401" is completed
    with that error after one exchange, with [retry] untouched;
    [decideWhetherToRequeue] hands such an error on whatever the state of
    the descriptor.  (A bad status other than 401 whose response body
    contains "401" is not such a failure: the body is part of the text.) *)
Theorem failure_without_401_is_not_retried (P : platform) (fuel : nat)
        (r : descriptor) (w w1 : world) (e : jserror) :
  checkAuthentication (MkFrame w r None) = Some (Resolved VUndefined, MkFrame w r None) ->
  executeRequest P (MkFrame w r None) = Some (Rejected (Thrown e), MkFrame w1 r None) ->
  mentions_401 (Thrown e) = false ->
  (exists p r' w',
     mapiRequest P (S fuel) r w = Some (p, r', w')
     /\ retry r' = retry r
     /\ executions (this w) (path r) (trace w')
        = S (executions (this w) (path r) (trace w))
     /\ if deliverable r
        then w' = log (Callback (CbError (Thrown e))) w1 /\ p = Pending
        else w' = w1 /\ p = Rejected (Thrown e))
  /\ (forall self w2 c,
        decideWhetherToRequeue self (Thrown e) (MkFrame w2 r c)
        = Some (Rejected (Thrown e), MkFrame w2 r c)).
Proof.
  intros Hcheck Hexec Htext.
  assert (Hgive : forall self w2 c,
            decideWhetherToRequeue self (Thrown e) (MkFrame w2 r c)
            = Some (Rejected (Thrown e), MkFrame w2 r c)).
  { intros. apply decideWhetherToRequeue_gives_up. right. exact Htext. }
  split; [|exact Hgive].
  assert (Hx : executions (this w) (path r) (trace w1)
               = S (executions (this w) (path r) (trace w))).
  { destruct (executeRequest_spec P w r None) as (p & w' & Hrun & _ & _ & _ & _ & Hx).
    rewrite Hexec in Hrun. injection Hrun as <- <-. exact Hx. }
  simpl. unfold mapiRequest_body. rewrite chain_split.
  unfold bind, attempt, bind. rewrite Hcheck. simpl.
  rewrite Hexec. simpl. rewrite Hgive.
  unfold complete, bind. simpl.
  rewrite rejectRequest_run.
  destruct (deliverable r); simpl.
  - eexists; eexists; eexists. split; [reflexivity|].
    repeat split. exact Hx.
  - eexists; eexists; eexists. split; [reflexivity|].
    repeat split. exact Hx.
Qed.

(** ** The credential check *)

Lemma truthy_string (s : string) : truthy (VString s) = true <-> s <> EmptyString.
Proof. destruct s; simpl; split; congruence. Qed.

(** The check for any stored token: what counts is its truthiness. *)
Lemma checkAuthentication_allows (w : world) (r : descriptor) (c : cell) :
  checkAuthentication (MkFrame w r c) = Some (Resolved VUndefined, MkFrame w r c)
  <-> (truthy (token (this w)) = true /\ retry r = false) \/ path r = auth_path.
Proof.
  rewrite checkAuthentication_run. simpl.
  destruct (String.eqb_spec (path r) auth_path) as [Hp|Hp].
  - rewrite orb_true_r. split; auto.
  - rewrite orb_false_r.
    destruct (truthy (token (this w))), (retry r); simpl; split;
      try discriminate; auto; intros [[H1 H2]|H]; congruence.
Qed.

(** C4.  The credential check reads the state and changes nothing.  With a
    string as the stored token, the request may go out without
    authenticating if and only if the token is not empty and the
    descriptor is not marked retried, or the path is ["/oauth2/token"];
    a request to that path may go out whatever the token. *)
Theorem credential_check (r : descriptor) (w : world) (c : cell) (s : string) :
  token (this w) = VString s ->
  exists p,
    checkAuthentication (MkFrame w r c) = Some (p, MkFrame w r c)
    /\ (p = Resolved VUndefined \/ p = Rejected NoReason)
    /\ (p = Resolved VUndefined <->
        (s <> EmptyString /\ retry r = false) \/ path r = "/oauth2/token")
    /\ (path r = "/oauth2/token" -> p = Resolved VUndefined).
Proof.
  intros Htok. rewrite checkAuthentication_run. simpl. rewrite Htok.
  eexists. split; [reflexivity|].
  destruct (String.eqb_spec (path r) auth_path) as [Hp|Hp].
  - rewrite orb_true_r. repeat split; auto.
  - rewrite orb_false_r.
    destruct (truthy (VString s) && negb (retry r)) eqn:Hc.
    + apply andb_true_iff in Hc as [Ht Hr].
      apply truthy_string in Ht. apply negb_true_iff in Hr.
      repeat split; auto; intros E; exfalso; exact (Hp E).
    + assert (Hno : ~ (s <> EmptyString /\ retry r = false)).
      { intros [Hs Hr]. apply truthy_string in Hs. rewrite Hs, Hr in Hc. discriminate. }
      repeat split; auto; try discriminate; try tauto.
Qed.

(** ** The response processor *)

(** C5, as the code has it.  The status test is the pattern [20[0-9]],
    looked for anywhere in the string form of the status, whatever its
    length: a status passes exactly when its digits hold "20" followed by
    a digit.  Of the statuses below 1000 exactly 200 to 209 pass; 1200 and
    2000 pass as well.  For every other status, whatever the response
    mode, the promise of [process] is rejected with an error that carries
    the status and the body as it came; for a status that passes, the
    outcome is the parser's alone. *)
Theorem status_20x_is_success (P : platform) (status : N) (text : string) (w : world) :
  (status_ok status = true <->
   exists pre d post,
     N_toString status = pre ++ String "2" (String "0" (String d post))
     /\ is_digit d = true)
  /\ ((status < 1000)%N -> (status_ok status = true <-> (200 <= status <= 209)%N))
  /\ status_ok 1200 = true
  /\ status_ok 2000 = true
  /\ (forall h,
        h <> HProcessAuth ->
        status_ok status = false ->
        fst (run_handler P h (MkResponse status text) w)
        = Rejected (Thrown (Error ("Bad Response From API: Status Code "
                                   ++ N_toString status ++ " | " ++ text))))
  /\ (forall parse,
        status_ok status = true ->
        process (MkResponse status text) parse w
        = (promise_of (fst (parse (trim text) None w)),
           snd (parse (trim text) None w))).
Proof.
  split; [apply match_20x_spec|].
  split; [apply status_ok_three_digits|].
  split; [reflexivity|]. split; [reflexivity|].
  split.
  - intros h Hh Hbad.
    apply (run_handler_bad_status P h (MkResponse status text) w Hh Hbad).
  - intros parse Hok.
    apply (process_good_status (MkResponse status text) parse w Hok).
Qed.

(** C9.  A response with a good status and a body that is empty once
    trimmed resolves to [true], in JSON mode and in text mode. *)
Theorem empty_body_resolves_true (P : platform) (status : N) (text : string) (w : world) :
  status_ok status = true ->
  all_whitespace text = true ->
  processJSON P (MkResponse status text) w = (Resolved VTrue, w)
  /\ processResponse (MkResponse status text) w = (Resolved VTrue, w).
Proof.
  intros Hs Hws.
  unfold processJSON, processResponse, process, parseJSON, parseResponse. simpl.
  rewrite Hs, (trim_all_whitespace text Hws). split; reflexivity.
Qed.

(** C10.  On a bad status [process] rejects its promise and calls the
    parser all the same, on the trimmed body: what the parser does to the
    world stays, what it does to the promise is lost.  In file mode the
    body is written to the file, if the file system allows, and the
    promise is rejected with the bad-response error. *)
Theorem parser_runs_after_rejection (P : platform) (res : response) (fp : string)
        (w : world) :
  status_ok (statusCode res) = false ->
  (forall parse : parser,
     snd (process res parse w)
     = snd (parse (trim (res_body res)) (Some (Rejected (Thrown (bad_response res)))) w))
  /\ fst (processFile P fp res w) = Rejected (Thrown (bad_response res))
  /\ (writeFile_error P (files w) fp (trim (res_body res)) = None ->
      files (snd (processFile P fp res w)) !! fp = Some (trim (res_body res)))
  /\ fst (processJSON P res w) = Rejected (Thrown (bad_response res))
  /\ fst (processResponse res w) = Rejected (Thrown (bad_response res)).
Proof.
  intros Hbad.
  split; [intros parse; rewrite process_bad_status by exact Hbad; reflexivity|].
  split; [exact (run_handler_bad_status P (HProcessFile fp) res w ltac:(discriminate) Hbad)|].
  split.
  - intros Hfs. unfold processFile. rewrite process_bad_status by exact Hbad.
    unfold saveToFile. rewrite Hfs. simpl. apply lookup_insert_eq.
  - split.
    + exact (run_handler_bad_status P HProcessJSON res w ltac:(discriminate) Hbad).
    + exact (run_handler_bad_status P HProcessResponse res w ltac:(discriminate) Hbad).
Qed.

(** ** The authentication handler *)

(** [processAuth] fails, with its one error, exactly when the body is not
    JSON or is the JSON [null].  A body that parses to anything else
    without an [access_token] makes it succeed: the promise is resolved
    with [undefined], and [undefined] becomes the stored token. *)
Theorem processAuth_fails_iff (P : platform) (res : response) (w : world) :
  (fst (processAuth P res w) = Rejected (Thrown auth_error) <->
   (exists e, JSON_parse P (res_body res) = ParseThrows e)
   \/ JSON_parse P (res_body res) = ParseOk JNull)
  /\ (forall j, JSON_parse P (res_body res) = ParseOk j ->
                j <> JNull ->
                lacks_access_token j ->
                processAuth P res w
                = (Resolved VUndefined, with_client (set_token VUndefined (this w)) w))
  /\ (fst (processAuth P res w) = Rejected (Thrown auth_error) ->
      snd (processAuth P res w) = w).
Proof.
  unfold processAuth.
  destruct (JSON_parse P (res_body res)) as [j|e] eqn:Hparse.
  - split; [|split].
    + split.
      * destruct j; simpl; try discriminate. auto.
      * intros [[e He]|Hj]; [discriminate|]. injection Hj as ->. reflexivity.
    + intros j' Hj' Hnn Hlack. injection Hj' as <-.
      destruct j; simpl in *; try reflexivity; [congruence|].
      rewrite Hlack. reflexivity.
    + destruct j; simpl; try discriminate. reflexivity.
  - split; [|split].
    + split; [eauto|reflexivity].
    + discriminate.
    + reflexivity.
Qed.

(** ** The JSON implementation: what is parsed back from a serialisation *)

Module MiniJSONFacts.
Import MiniJSON.

Lemma append_cons (x : ascii) (a b : string) : String x a ++ b = String x (a ++ b).
Proof. reflexivity. Qed.

Lemma append_nil_l (b : string) : "" ++ b = b.
Proof. reflexivity. Qed.

Lemma append_assoc (a b c : string) : (a ++ b) ++ c = a ++ (b ++ c).
Proof.
  induction a as [|x a IH]; [reflexivity|].
  rewrite !append_cons, IH. reflexivity.
Qed.

Lemma append_nil_r (a : string) : a ++ "" = a.
Proof.
  induction a as [|x a IH]; [reflexivity|].
  rewrite append_cons, IH. reflexivity.
Qed.

Lemma length_append (a b : string) :
  String.length (a ++ b) = (String.length a + String.length b)%nat.
Proof.
  induction a as [|x a IH]; [reflexivity|].
  rewrite append_cons. simpl. rewrite IH. reflexivity.
Qed.

Lemma json_induction (Q : json -> Prop) :
  Q JNull ->
  (forall b, Q (JBool b)) ->
  (forall lit, Q (JNum lit)) ->
  (forall s, Q (JStr s)) ->
  (forall xs, Forall Q xs -> Q (JArr xs)) ->
  (forall ms, Forall (fun kv => Q (snd kv)) ms -> Q (JObj ms)) ->
  forall v, Q v.
Proof.
  intros Hnull Hbool Hnum Hstr Harr Hobj.
  fix IH 1. intros v. destruct v as [|b|lit|s|xs|ms].
  - exact Hnull.
  - apply Hbool.
  - apply Hnum.
  - apply Hstr.
  - apply Harr.
    induction xs as [|x xs IHxs]; constructor; [apply IH|exact IHxs].
  - apply Hobj.
    induction ms as [|kv ms IHms]; constructor; [apply IH|exact IHms].
Qed.

(** *** Strings *)

Lemma parse_chars_escape_char (c : ascii) (rest : string) :
  parse_chars (escape_char c ++ rest) = prepend c (parse_chars rest).
Proof. destruct c as [[] [] [] [] [] [] [] []]; reflexivity. Qed.

Lemma parse_chars_escape (s rest : string) :
  parse_chars (escape s ++ String dquote rest) = Some (s, rest).
Proof.
  induction s as [|c s IH].
  - reflexivity.
  - change (escape (String c s)) with (escape_char c ++ escape s).
    rewrite append_assoc, parse_chars_escape_char, IH. reflexivity.
Qed.

Lemma parse_chars_quote (s rest : string) :
  exists t, quote s ++ rest = String dquote t /\ parse_chars t = Some (s, rest).
Proof.
  exists (escape s ++ String dquote rest). split.
  - unfold quote. rewrite append_cons, append_assoc. reflexivity.
  - apply parse_chars_escape.
Qed.

(** *** Numbers *)

Lemma span_app (p : ascii -> bool) (s a b rest : string) :
  span p s = (a, b) ->
  (b = "" -> match rest with "" => True | String c _ => p c = false end) ->
  span p (s ++ rest) = (a, b ++ rest).
Proof.
  revert a b. induction s as [|c s IH]; intros a b H Hrest; simpl in *.
  - injection H as <- <-. specialize (Hrest eq_refl).
    destruct rest as [|c t]; simpl; [reflexivity|]. rewrite Hrest. reflexivity.
  - destruct (p c).
    + destruct (span p s) as [a' b'] eqn:E. injection H as <- <-.
      rewrite (IH a' b' eq_refl Hrest). reflexivity.
    + injection H as <- <-. reflexivity.
Qed.

Lemma span_all (p : ascii -> bool) (s a b : string) :
  span p s = (a, b) -> all_chars p a = true.
Proof.
  revert a b. induction s as [|c s IH]; intros a b H; simpl in *.
  - injection H as <- <-. reflexivity.
  - destruct (p c) eqn:Hc.
    + destruct (span p s) as [a' b'] eqn:E. injection H as <- <-.
      simpl. rewrite Hc. exact (IH a' b' eq_refl).
    + injection H as <- <-. reflexivity.
Qed.

Lemma ends_number_digit (rest : string) :
  ends_number rest = true ->
  match rest with "" => True | String c _ => is_digit c = false end.
Proof.
  destruct rest as [|c t]; simpl; [auto|].
  intros H. apply negb_true_iff in H.
  repeat (apply orb_false_iff in H as [H _]). exact H.
Qed.

Lemma scan_int_app (s i b rest : string) :
  scan_int s = Some (i, b) ->
  (b = "" -> ends_number rest = true) ->
  scan_int (s ++ rest) = Some (i, b ++ rest).
Proof.
  destruct s as [|c s]; simpl; [discriminate|].
  destruct (Ascii.eqb c "0").
  - intros H _. injection H as <- <-. reflexivity.
  - destruct (is_digit c); [|discriminate].
    destruct (span is_digit s) as [ds b'] eqn:E.
    intros H Hrest. injection H as <- <-.
    rewrite (span_app is_digit s ds b' rest E); [reflexivity|].
    intros Hb. apply ends_number_digit. auto.
Qed.

Lemma scan_frac_app (s f b rest : string) :
  scan_frac s = Some (f, b) ->
  (b = "" -> ends_number rest = true) ->
  scan_frac (s ++ rest) = Some (f, b ++ rest).
Proof.
  intros H Hrest.
  destruct s as [|c s].
  - simpl in H. injection H as <- <-. specialize (Hrest eq_refl). simpl.
    destruct rest as [|c t]; [reflexivity|].
    simpl in Hrest. apply negb_true_iff in Hrest.
    apply orb_false_iff in Hrest as [Hrest _].
    apply orb_false_iff in Hrest as [Hrest _].
    apply orb_false_iff in Hrest as [_ Hdot].
    apply Ascii.eqb_neq in Hdot.
    unfold scan_frac.
    destruct c as [[] [] [] [] [] [] [] []]; try reflexivity. congruence.
  - assert (Hcases : (c = "."%char /\ scan_frac (String c s) =
                        match span is_digit s with
                        | (EmptyString, _) => None
                        | (ds, r) => Some (String "." ds, r)
                        end
                      /\ scan_frac (String c s ++ rest) =
                        match span is_digit (s ++ rest) with
                        | (EmptyString, _) => None
                        | (ds, r) => Some (String "." ds, r)
                        end)
                     \/ (scan_frac (String c s) = Some ("", String c s)
                         /\ scan_frac (String c s ++ rest)
                            = Some ("", String c s ++ rest))).
    { destruct (Ascii.eqb_spec c ".") as [->|Hne].
      - left. repeat split.
      - right. destruct c as [[] [] [] [] [] [] [] []]; try (split; reflexivity).
        congruence. }
    destruct Hcases as [(-> & H1 & H2)|(H1 & H2)].
    + rewrite H1 in H. rewrite H2.
      destruct (span is_digit s) as [ds b'] eqn:E.
      destruct ds as [|d ds]; [discriminate|].
      injection H as <- <-.
      rewrite (span_app is_digit s (String d ds) b' rest E); [reflexivity|].
      intros Hb. apply ends_number_digit. auto.
    + rewrite H1 in H. injection H as <- <-. exact H2.
Qed.

Lemma scan_exp_sign_app (s rest : string) :
  s <> "" ->
  scan_exp_sign (s ++ rest) = (fst (scan_exp_sign s), snd (scan_exp_sign s) ++ rest).
Proof.
  destruct s as [|c s]; [congruence|]. intros _.
  destruct c as [[] [] [] [] [] [] [] []]; reflexivity.
Qed.

Lemma scan_exp_app (s e b rest : string) :
  scan_exp s = Some (e, b) ->
  (b = "" -> ends_number rest = true) ->
  scan_exp (s ++ rest) = Some (e, b ++ rest).
Proof.
  intros H Hrest.
  destruct s as [|c s].
  - simpl in H. injection H as <- <-. specialize (Hrest eq_refl).
    destruct rest as [|c t]; [reflexivity|].
    simpl in Hrest. apply negb_true_iff in Hrest.
    apply orb_false_iff in Hrest as [Hrest HE].
    apply orb_false_iff in Hrest as [_ He].
    rewrite append_nil_l. unfold scan_exp. rewrite He, HE. reflexivity.
  - rewrite append_cons. unfold scan_exp in *.
    destruct (Ascii.eqb c "e" || Ascii.eqb c "E").
    + destruct s as [|x u].
      * simpl in H. discriminate.
      * rewrite scan_exp_sign_app by congruence.
        destruct (scan_exp_sign (String x u)) as [sg t'] eqn:Esg. simpl.
        destruct (span is_digit t') as [ds b'] eqn:E.
        destruct ds as [|d ds]; [discriminate|].
        injection H as <- <-.
        rewrite (span_app is_digit t' (String d ds) b' rest E); [reflexivity|].
        intros Hb. apply ends_number_digit. auto.
    + injection H as <- <-. reflexivity.
Qed.

Lemma scan_frac_nil (f b : string) : scan_frac "" = Some (f, b) -> b = "".
Proof. simpl. intros H. injection H as <- <-. reflexivity. Qed.

Lemma scan_exp_nil (e b : string) : scan_exp "" = Some (e, b) -> b = "".
Proof. simpl. intros H. injection H as <- <-. reflexivity. Qed.

Lemma scan_sign_app (s rest : string) :
  s <> "" ->
  scan_sign (s ++ rest) = (fst (scan_sign s), snd (scan_sign s) ++ rest).
Proof.
  destruct s as [|c s]; [congruence|]. intros _.
  destruct c as [[] [] [] [] [] [] [] []]; reflexivity.
Qed.

Lemma scan_number_app (s lit b rest : string) :
  scan_number s = Some (lit, b) ->
  (b = "" -> ends_number rest = true) ->
  scan_number (s ++ rest) = Some (lit, b ++ rest).
Proof.
  intros H Hrest. unfold scan_number in *.
  destruct s as [|c0 s0]; [simpl in H; discriminate|].
  rewrite scan_sign_app by congruence.
  destruct (scan_sign (String c0 s0)) as [sg s1]. simpl fst. simpl snd.
  destruct (scan_int s1) as [[i s2]|] eqn:Ei; [|discriminate].
  destruct (scan_frac s2) as [[f s3]|] eqn:Ef; [|discriminate].
  destruct (scan_exp s3) as [[e s4]|] eqn:Ee; [|discriminate].
  injection H as <- <-.
  assert (H3 : s3 = "" -> ends_number rest = true).
  { intros ->. apply Hrest. exact (scan_exp_nil _ _ Ee). }
  assert (H2 : s2 = "" -> ends_number rest = true).
  { intros ->. apply H3. exact (scan_frac_nil _ _ Ef). }
  rewrite (scan_int_app s1 i s2 rest Ei H2).
  rewrite (scan_frac_app s2 f s3 rest Ef H3).
  rewrite (scan_exp_app s3 e s4 rest Ee Hrest).
  reflexivity.
Qed.

Lemma valid_number_scan (lit : string) :
  valid_number lit = true -> scan_number lit = Some (lit, "").
Proof.
  unfold valid_number. destruct (scan_number lit) as [[l b]|]; [|discriminate].
  destruct b; [|discriminate]. intros H. apply String.eqb_eq in H. congruence.
Qed.

Lemma valid_number_app (lit rest : string) :
  valid_number lit = true -> ends_number rest = true ->
  scan_number (lit ++ rest) = Some (lit, rest).
Proof.
  intros Hv Hrest.
  rewrite (scan_number_app lit lit "" rest (valid_number_scan lit Hv)); auto.
Qed.

Lemma all_chars_app (p : ascii -> bool) (a b : string) :
  all_chars p (a ++ b) = all_chars p a && all_chars p b.
Proof.
  induction a as [|c a IH]; [reflexivity|].
  rewrite append_cons. simpl. rewrite IH. apply andb_assoc.
Qed.

Lemma all_digits_number_chars (s : string) :
  all_chars is_digit s = true -> all_chars is_number_char s = true.
Proof.
  induction s as [|c s IH]; simpl; [reflexivity|].
  intros H. apply andb_true_iff in H as [Hc Hs].
  rewrite (IH Hs). unfold is_number_char. rewrite Hc. reflexivity.
Qed.

Lemma span_digits_number_chars (s a b : string) :
  span is_digit s = (a, b) -> all_chars is_number_char a = true.
Proof. intros H. apply all_digits_number_chars. exact (span_all _ _ _ _ H). Qed.

(** A numeric literal is made of the characters of numbers, and begins
    with one. *)
Lemma scan_number_chars (s lit b : string) :
  scan_number s = Some (lit, b) ->
  all_chars is_number_char lit = true /\ lit <> "".
Proof.
  unfold scan_number.
  destruct (scan_sign s) as [sg s1] eqn:Esg.
  destruct (scan_int s1) as [[i s2]|] eqn:Ei; [|discriminate].
  destruct (scan_frac s2) as [[f s3]|] eqn:Ef; [|discriminate].
  destruct (scan_exp s3) as [[e s4]|] eqn:Ee; [|discriminate].
  intros H. injection H as <- <-.
  assert (Hsg : sg = "" \/ sg = "-").
  { unfold scan_sign in Esg. destruct s as [|c t].
    - injection Esg as <- <-. auto.
    - destruct c as [[] [] [] [] [] [] [] []]; injection Esg as <- <-; auto. }
  assert (Hi : all_chars is_number_char i = true /\ i <> "").
  { unfold scan_int in Ei. destruct s1 as [|c t]; [discriminate|].
    destruct (Ascii.eqb c "0").
    - injection Ei as <- <-. split; [reflexivity|discriminate].
    - destruct (is_digit c) eqn:Hc; [|discriminate].
      destruct (span is_digit t) as [ds r] eqn:E. injection Ei as <- <-.
      split; [|discriminate]. simpl. unfold is_number_char at 1. rewrite Hc. simpl.
      exact (span_digits_number_chars _ _ _ E). }
  assert (Hf : all_chars is_number_char f = true).
  { destruct s2 as [|c t]; [simpl in Ef; injection Ef as <- <-; reflexivity|].
    destruct (Ascii.eqb_spec c ".") as [->|Hne].
    - simpl in Ef. destruct (span is_digit t) as [ds r] eqn:E.
      destruct ds as [|d ds]; [discriminate|]. injection Ef as <- <-.
      change (all_chars is_number_char (String "." (String d ds)))
        with (true && all_chars is_number_char (String d ds)).
      simpl andb. exact (span_digits_number_chars _ _ _ E).
    - assert (Hnone : scan_frac (String c t) = Some ("", String c t)).
      { destruct c as [[] [] [] [] [] [] [] []]; try reflexivity. congruence. }
      rewrite Hnone in Ef. injection Ef as <- <-. reflexivity. }
  assert (He : all_chars is_number_char e = true).
  { unfold scan_exp in Ee. destruct s3 as [|c t]; [injection Ee as <- <-; reflexivity|].
    destruct (Ascii.eqb c "e" || Ascii.eqb c "E") eqn:Hc.
    - destruct (scan_exp_sign t) as [sg' t'] eqn:Es.
      destruct (span is_digit t') as [ds r] eqn:E.
      destruct ds as [|d ds]; [discriminate|]. injection Ee as <- <-.
      assert (Hsg' : all_chars is_number_char sg' = true).
      { unfold scan_exp_sign in Es. destruct t as [|x u].
        - injection Es as <- <-. reflexivity.
        - destruct x as [[] [] [] [] [] [] [] []]; injection Es as <- <-; reflexivity. }
      simpl. rewrite all_chars_app, Hsg'.
      rewrite (span_digits_number_chars _ _ _ E).
      unfold is_number_char. apply orb_true_iff in Hc as [-> | ->];
        rewrite ?orb_true_r; reflexivity.
    - injection Ee as <- <-. reflexivity. }
  destruct Hi as [Hi Hne].
  split.
  - rewrite !all_chars_app, Hi, Hf, He.
    destruct Hsg as [-> | ->]; reflexivity.
  - destruct Hsg as [-> | ->]; [|discriminate].
    rewrite append_nil_l. destruct i; [congruence|discriminate].
Qed.

(** *** Documents *)

Lemma parse_value_default (n : nat) (c : ascii) (t : string) :
  is_number_char c = true ->
  parse_value (S n) (String c t) =
    match scan_number (String c t) with
    | Some (lit, rest) => Some (JNum lit, rest)
    | None => None
    end.
Proof.
  destruct c as [[] [] [] [] [] [] [] []]; intros H; try discriminate H; reflexivity.
Qed.

Lemma parse_value_string (n : nat) (t : string) :
  parse_value (S n) (String dquote t) =
    match parse_chars t with
    | Some (str, rest) => Some (JStr str, rest)
    | None => None
    end.
Proof. reflexivity. Qed.

Lemma parse_value_array (n : nat) (c : ascii) (t : string) :
  is_ws c = false -> c <> "]"%char ->
  parse_value (S n) (String "[" (String c t)) =
    match parse_elements n (String c t) with
    | Some (vs, rest) => Some (JArr vs, rest)
    | None => None
    end.
Proof.
  destruct c as [[] [] [] [] [] [] [] []]; intros Hws Hc;
    try discriminate Hws; try congruence; reflexivity.
Qed.

Lemma parse_value_object (n : nat) (t : string) :
  parse_value (S n) (String "{" (String dquote t)) =
    match parse_members n (String dquote t) with
    | Some (ms, rest) => Some (JObj ms, rest)
    | None => None
    end.
Proof. reflexivity. Qed.

Lemma parse_elements_step (n : nat) (s : string) :
  parse_elements (S n) s =
    match parse_value n s with
    | None => None
    | Some (v, rest) =>
        match skip_ws rest with
        | String ","%char t =>
            match parse_elements n t with
            | Some (vs, rest') => Some (v :: vs, rest')
            | None => None
            end
        | String "]"%char t => Some (v :: nil, t)
        | _ => None
        end
    end.
Proof. reflexivity. Qed.

Lemma parse_members_step (n : nat) (t : string) :
  parse_members (S n) (String dquote t) =
    match parse_chars t with
    | None => None
    | Some (k, rest) =>
        match skip_ws rest with
        | String ":"%char t2 =>
            match parse_value n t2 with
            | None => None
            | Some (v, rest2) =>
                match skip_ws rest2 with
                | String ","%char t3 =>
                    match parse_members n t3 with
                    | Some (ms, rest') => Some ((k, v) :: ms, rest')
                    | None => None
                    end
                | String "}"%char t3 => Some ((k, v) :: nil, t3)
                | _ => None
                end
            end
        | _ => None
        end
    end.
Proof. reflexivity. Qed.

(** The first character of a numeric literal is no white space and opens
    or closes nothing. *)
Lemma number_char_plain (c : ascii) :
  is_number_char c = true ->
  is_ws c = false /\ is_whitespace c = false /\ c <> "]"%char.
Proof.
  destruct c as [[] [] [] [] [] [] [] []]; intros H; try discriminate H;
    repeat split; discriminate.
Qed.

Lemma stringify_head (v : json) :
  representable v = true ->
  exists c t, stringify v = String c t
              /\ is_ws c = false /\ is_whitespace c = false /\ c <> "]"%char.
Proof.
  destruct v as [|[|]|lit|s|[|x xs]|[|[k x] ms]]; intros Hr;
    try (eexists; eexists; split; [reflexivity|]; repeat split; discriminate).
  simpl in Hr. apply valid_number_scan in Hr. apply scan_number_chars in Hr.
  destruct Hr as [Hall Hne]. destruct lit as [|c t]; [congruence|].
  simpl in Hall. apply andb_true_iff in Hall as [Hc _].
  exists c, t. split; [reflexivity|]. apply number_char_plain. exact Hc.
Qed.

Lemma tail_elements_ends (xs : list json) (rest : string) :
  ends_number (tail_elements stringify xs ++ rest) = true.
Proof. destruct xs; reflexivity. Qed.

Lemma tail_members_ends (ms : list (string * json)) (rest : string) :
  ends_number (tail_members stringify ms ++ rest) = true.
Proof. destruct ms as [|[k y] ms]; reflexivity. Qed.

Lemma parse_elements_back (xs : list json) :
  Forall parsed_back xs ->
  forallb representable xs = true ->
  forall (x : json) (fuel : nat) (rest : string),
    parsed_back x -> representable x = true ->
    (S (weight x + fold_right (fun y n => S (weight y + n)) O xs) <= fuel)%nat ->
    parse_elements fuel (stringify x ++ tail_elements stringify xs ++ rest)
    = Some (x :: xs, rest).
Proof.
  induction xs as [|y ys IH]; intros Hall Hrep x fuel rest Hx Hxr Hfuel;
    (destruct fuel as [|n]; [lia|]); rewrite parse_elements_step.
  - rewrite (Hx Hxr n _ ltac:(simpl in Hfuel; lia) (tail_elements_ends nil rest)).
    reflexivity.
  - rewrite (Hx Hxr n _ ltac:(simpl in Hfuel; lia) (tail_elements_ends (y :: ys) rest)).
    simpl in Hrep. apply andb_true_iff in Hrep as [Hyr Hysr].
    inversion Hall as [|? ? Hy Hys]; subst.
    change (tail_elements stringify (y :: ys) ++ rest)
      with (String "," ((stringify y ++ tail_elements stringify ys) ++ rest)).
    rewrite append_assoc.
    change (skip_ws (String "," (stringify y ++ tail_elements stringify ys ++ rest)))
      with (String "," (stringify y ++ tail_elements stringify ys ++ rest)).
    cbv iota beta.
    rewrite (IH Hys Hysr y n rest Hy Hyr ltac:(simpl in Hfuel; lia)).
    reflexivity.
Qed.

Lemma parse_members_quote (n : nat) (k u : string) :
  parse_members (S n) (quote k ++ String ":" u) =
    match parse_value n u with
    | None => None
    | Some (v, rest2) =>
        match skip_ws rest2 with
        | String ","%char t3 =>
            match parse_members n t3 with
            | Some (ms, rest') => Some ((k, v) :: ms, rest')
            | None => None
            end
        | String "}"%char t3 => Some ((k, v) :: nil, t3)
        | _ => None
        end
    end.
Proof.
  destruct (parse_chars_quote k (String ":" u)) as (t & -> & Hk).
  rewrite parse_members_step, Hk. reflexivity.
Qed.

Lemma parse_members_back (ms : list (string * json)) :
  Forall (fun kv => parsed_back (snd kv)) ms ->
  forallb (fun kv => representable (snd kv)) ms = true ->
  forall (k : string) (x : json) (fuel : nat) (rest : string),
    parsed_back x -> representable x = true ->
    (S (weight x + fold_right (fun kv n => S (weight (snd kv) + n)) O ms) <= fuel)%nat ->
    parse_members fuel
      (quote k ++ String ":" (stringify x ++ tail_members stringify ms ++ rest))
    = Some ((k, x) :: ms, rest).
Proof.
  induction ms as [|[k' y] ys IH]; intros Hall Hrep k x fuel rest Hx Hxr Hfuel;
    (destruct fuel as [|n]; [lia|]); rewrite parse_members_quote.
  - rewrite (Hx Hxr n _ ltac:(simpl in Hfuel; lia) (tail_members_ends nil rest)).
    reflexivity.
  - rewrite (Hx Hxr n _ ltac:(simpl in Hfuel; lia)
               (tail_members_ends ((k', y) :: ys) rest)).
    simpl in Hrep. apply andb_true_iff in Hrep as [Hyr Hysr].
    inversion Hall as [|? ? Hy Hys]; subst. simpl in Hy.
    change (tail_members stringify ((k', y) :: ys) ++ rest)
      with (String "," ((quote k' ++ String ":" (stringify y ++ tail_members stringify ys))
                        ++ rest)).
    rewrite append_assoc, append_cons, append_assoc.
    change (skip_ws (String "," ?u)) with (String "," u). cbv iota beta.
    rewrite (IH Hys Hysr k' y n rest Hy Hyr ltac:(simpl in Hfuel; lia)).
    reflexivity.
Qed.

Theorem parse_value_stringify (v : json) : parsed_back v.
Proof.
  induction v as [|b|lit|s|xs IHxs|ms IHms] using json_induction;
    intros Hrep fuel rest Hfuel Hrest;
    (destruct fuel as [|n]; [simpl in Hfuel; lia|]).
  - reflexivity.
  - destruct b; reflexivity.
  - simpl in Hrep.
    pose proof (valid_number_app lit rest Hrep Hrest) as Hscan.
    destruct (scan_number_chars _ _ _ (valid_number_scan lit Hrep)) as [Hall Hne].
    destruct lit as [|c t]; [congruence|].
    simpl in Hall. apply andb_true_iff in Hall as [Hc _].
    change (stringify (JNum (String c t))) with (String c t).
    rewrite append_cons in *.
    rewrite (parse_value_default n c _ Hc), Hscan. reflexivity.
  - change (stringify (JStr s)) with (quote s).
    destruct (parse_chars_quote s rest) as (t & -> & Ht).
    rewrite parse_value_string, Ht. reflexivity.
  - destruct xs as [|x xs]; [reflexivity|].
    simpl in Hrep. apply andb_true_iff in Hrep as [Hxr Hxsr].
    inversion IHxs as [|? ? Hx Hxs]; subst.
    change (stringify (JArr (x :: xs)))
      with (String "[" (stringify x ++ tail_elements stringify xs)).
    rewrite append_cons, append_assoc.
    destruct (stringify_head x Hxr) as (c & t & Hhead & Hws & _ & Hc).
    pose proof (parse_elements_back xs Hxs Hxsr x n rest Hx Hxr
                  ltac:(simpl in Hfuel; lia)) as Hel.
    rewrite Hhead in *. rewrite append_cons in *.
    rewrite (parse_value_array n c _ Hws Hc), Hel. reflexivity.
  - destruct ms as [|[k x] ms]; [reflexivity|].
    simpl in Hrep. apply andb_true_iff in Hrep as [Hxr Hmsr].
    inversion IHms as [|? ? Hx Hms]; subst. simpl in Hx.
    change (stringify (JObj ((k, x) :: ms)))
      with (String "{" (quote k ++ String ":" (stringify x ++ tail_members stringify ms))).
    rewrite append_cons, append_assoc, append_cons, append_assoc.
    pose proof (parse_members_back ms Hms Hmsr k x n rest Hx Hxr
                  ltac:(simpl in Hfuel; lia)) as Hmem.
    change (quote k) with (String dquote (escape k ++ String dquote "")) in *.
    rewrite append_cons in *.
    rewrite parse_value_object, Hmem. reflexivity.
Qed.

Lemma weight_tail_elements (xs : list json) :
  Forall (fun x => (weight x <= String.length (stringify x))%nat) xs ->
  (S (fold_right (fun y n => S (weight y + n)) O xs)
   <= String.length (tail_elements stringify xs))%nat.
Proof.
  induction 1 as [|y ys Hy Hys IH]; [simpl; lia|].
  change (tail_elements stringify (y :: ys))
    with (String "," (stringify y ++ tail_elements stringify ys)).
  simpl. rewrite length_append. lia.
Qed.

Lemma weight_tail_members (ms : list (string * json)) :
  Forall (fun kv => (weight (snd kv) <= String.length (stringify (snd kv)))%nat) ms ->
  (S (fold_right (fun kv n => S (weight (snd kv) + n)) O ms)
   <= String.length (tail_members stringify ms))%nat.
Proof.
  induction 1 as [|[k y] ys Hy Hys IH]; [simpl; lia|].
  change (tail_members stringify ((k, y) :: ys))
    with (String "," (quote k ++ String ":" (stringify y ++ tail_members stringify ys))).
  simpl in *. repeat (progress (simpl String.length; rewrite ?length_append)). lia.
Qed.

(** The text of a document is at least as long as the parser's calls
    nest on it. *)
Lemma weight_le_length (v : json) :
  representable v = true -> (weight v <= String.length (stringify v))%nat.
Proof.
  induction v as [|b|lit|s|xs IHxs|ms IHms] using json_induction; intros Hrep.
  - simpl. lia.
  - destruct b; simpl; lia.
  - simpl in Hrep. apply valid_number_scan, scan_number_chars in Hrep as [_ Hne].
    destruct lit; [congruence|]. simpl. lia.
  - simpl. lia.
  - destruct xs as [|x xs]; [simpl; lia|].
    simpl in Hrep. apply andb_true_iff in Hrep as [Hxr Hxsr].
    inversion IHxs as [|? ? Hx Hxs]; subst.
    assert (Hall : Forall (fun x => (weight x <= String.length (stringify x))%nat) xs).
    { clear -Hxs Hxsr. induction Hxs as [|y ys Hy Hys IH]; constructor.
      - simpl in Hxsr. apply andb_true_iff in Hxsr as [Hyr _]. auto.
      - simpl in Hxsr. apply andb_true_iff in Hxsr as [_ Hysr]. auto. }
    pose proof (weight_tail_elements xs Hall) as Htail.
    specialize (Hx Hxr).
    change (stringify (JArr (x :: xs)))
      with (String "[" (stringify x ++ tail_elements stringify xs)).
    simpl. rewrite length_append. simpl in Htail. lia.
  - destruct ms as [|[k x] ms]; [simpl; lia|].
    simpl in Hrep. apply andb_true_iff in Hrep as [Hxr Hmsr].
    inversion IHms as [|? ? Hx Hms]; subst. simpl in Hx.
    assert (Hall : Forall (fun kv => (weight (snd kv)
                                      <= String.length (stringify (snd kv)))%nat) ms).
    { clear -Hms Hmsr. induction Hms as [|y ys Hy Hys IH]; constructor.
      - simpl in Hmsr. apply andb_true_iff in Hmsr as [Hyr _]. auto.
      - simpl in Hmsr. apply andb_true_iff in Hmsr as [_ Hysr]. auto. }
    pose proof (weight_tail_members ms Hall) as Htail.
    specialize (Hx Hxr).
    change (stringify (JObj ((k, x) :: ms)))
      with (String "{" (quote k ++ String ":" (stringify x ++ tail_members stringify ms))).
    simpl. repeat (progress (simpl String.length; rewrite ?length_append)).
    simpl in Htail. lia.
Qed.

(** Parsing after serialising gives the document back. *)
Theorem parse_stringify (v : json) :
  representable v = true -> parse (stringify v) = ParseOk v.
Proof.
  intros Hrep. unfold parse.
  pose proof (parse_value_stringify v Hrep (S (String.length (stringify v))) ""
                ltac:(pose proof (weight_le_length v Hrep); lia) eq_refl) as H.
  rewrite append_nil_r in H. rewrite H. reflexivity.
Qed.

(** *** Serialisations and [trim] *)

Lemma trimEnd_last (a : string) (c : ascii) :
  is_whitespace c = false ->
  trimEnd (a ++ String c "") = a ++ String c "".
Proof.
  intros Hc. induction a as [|x a IH].
  - simpl. rewrite Hc. reflexivity.
  - rewrite append_cons. simpl. rewrite IH.
    destruct a; reflexivity.
Qed.

Lemma trim_plain_ends (c d : ascii) (t a : string) :
  String c t = a ++ String d "" ->
  is_whitespace c = false -> is_whitespace d = false ->
  trim (String c t) = String c t.
Proof.
  intros Hs Hc Hd. unfold trim. simpl. rewrite Hc.
  rewrite Hs. apply trimEnd_last. exact Hd.
Qed.

Lemma last_of_all_chars (p : ascii -> bool) (s : string) :
  s <> "" -> all_chars p s = true ->
  exists a c, s = a ++ String c "" /\ p c = true.
Proof.
  induction s as [|x s IH]; [congruence|]. intros _ H.
  simpl in H. apply andb_true_iff in H as [Hx Hs].
  destruct s as [|y s'].
  - exists "", x. split; [reflexivity|exact Hx].
  - destruct (IH ltac:(discriminate) Hs) as (a & c & Ha & Hc).
    exists (String x a), c. rewrite Ha. split; [reflexivity|exact Hc].
Qed.

Lemma tail_elements_last (xs : list json) :
  exists a, tail_elements stringify xs = a ++ "]".
Proof.
  induction xs as [|y ys [a Ha]].
  - exists "". reflexivity.
  - exists (String "," (stringify y ++ a)).
    change (tail_elements stringify (y :: ys))
      with (String "," (stringify y ++ tail_elements stringify ys)).
    rewrite Ha, append_cons, append_assoc. reflexivity.
Qed.

Lemma tail_members_last (ms : list (string * json)) :
  exists a, tail_members stringify ms = a ++ "}".
Proof.
  induction ms as [|[k y] ys [a Ha]].
  - exists "". reflexivity.
  - exists (String "," (quote k ++ String ":" (stringify y ++ a))).
    change (tail_members stringify ((k, y) :: ys))
      with (String "," (quote k ++ String ":" (stringify y ++ tail_members stringify ys))).
    rewrite Ha, append_cons, append_assoc, append_cons, append_assoc. reflexivity.
Qed.

Lemma stringify_last (v : json) :
  representable v = true ->
  exists a d, stringify v = a ++ String d "" /\ is_whitespace d = false.
Proof.
  destruct v as [|[|]|lit|s|[|x xs]|[|[k x] ms]]; intros Hr.
  - exists "nul", "l"%char. split; reflexivity.
  - exists "tru", "e"%char. split; reflexivity.
  - exists "fals", "e"%char. split; reflexivity.
  - simpl in Hr. apply valid_number_scan, scan_number_chars in Hr as [Hall Hne].
    destruct (last_of_all_chars _ _ Hne Hall) as (a & d & Ha & Hd).
    exists a, d. split; [exact Ha|]. apply number_char_plain. exact Hd.
  - exists (String dquote (escape s)), dquote. split; reflexivity.
  - exists "[", "]"%char. split; reflexivity.
  - destruct (tail_elements_last xs) as [a Ha].
    exists (String "[" (stringify x ++ a)), "]"%char.
    change (stringify (JArr (x :: xs)))
      with (String "[" (stringify x ++ tail_elements stringify xs)).
    rewrite Ha, append_cons, append_assoc. split; reflexivity.
  - exists "{", "}"%char. split; reflexivity.
  - destruct (tail_members_last ms) as [a Ha].
    exists (String "{" (quote k ++ String ":" (stringify x ++ a))), "}"%char.
    change (stringify (JObj ((k, x) :: ms)))
      with (String "{" (quote k ++ String ":" (stringify x ++ tail_members stringify ms))).
    rewrite Ha, append_cons, append_assoc, append_cons, append_assoc.
    split; reflexivity.
Qed.

(** A serialisation has no white space at its ends: [trim] leaves it as
    it is, and it is not empty. *)
Lemma trim_stringify (v : json) :
  representable v = true ->
  trim (stringify v) = stringify v /\ nonempty (stringify v) = true.
Proof.
  intros Hr.
  destruct (stringify_head v Hr) as (c & t & Hhead & _ & Hc & _).
  destruct (stringify_last v Hr) as (a & d & Hlast & Hd).
  rewrite Hhead in *. split; [|reflexivity].
  exact (trim_plain_ends c d t a Hlast Hc Hd).
Qed.

End MiniJSONFacts.

(** ** JSON mode *)

Lemma status_ok_200 : status_ok 200 = true.
Proof. reflexivity. Qed.

(** What JSON mode gives for a text the platform parses, whatever the
    platform. *)
Lemma processJSON_parsed (P : platform) (status : N) (text : string) (v : json)
      (w : world) :
  status_ok status = true ->
  trim text = text ->
  nonempty text = true ->
  JSON_parse P text = ParseOk v ->
  processJSON P (MkResponse status text) w = (Resolved (VData v), w).
Proof.
  intros Hs Htrim Hne Hparse.
  unfold processJSON, process, parseJSON. simpl.
  rewrite Hs, Htrim, Hne, Hparse. reflexivity.
Qed.

(** C8.  Processing a 200 response whose body is the serialisation of a
    JSON document, in JSON mode, resolves to that document. *)
Theorem json_round_trip (P : platform) (v : json) (w : world) :
  JSON_parse P = MiniJSON.parse ->
  MiniJSON.representable v = true ->
  processJSON P (MkResponse 200 (MiniJSON.stringify v)) w = (Resolved (VData v), w).
Proof.
  intros HP Hrep.
  destruct (MiniJSONFacts.trim_stringify v Hrep) as [Htrim Hne].
  apply processJSON_parsed; auto using status_ok_200.
  rewrite HP. apply MiniJSONFacts.parse_stringify. exact Hrep.
Qed.

(** * The pipeline at work *)

Section Runs.
Import Scenario.

(** No token yet: the client authenticates first, then sends the
    request; the callback is called once, with the result. *)
Example first_call_authenticates :
  observe (mapiRequest (node (by_path token_response (ok 200 "[]"))) enough
                       (campaigns (Some quiet)) (fresh_world ""))
  = Some (Resolved (VData (JArr nil)), false, true,
          Transport (MkRequest POST "/oauth2/token"
                       (Some "client_id=id&client_secret=secret&grant_type=client_credentials")
                       None (VString ""))
          :: Transport (campaigns_request "fresh")
          :: Callback (CbResult (VData (JArr nil))) :: nil,
          VString "fresh").
Proof. vm_compute. reflexivity. Qed.

(** An expired token: 401, a new token, the request again, the result. *)
Example expired_token_is_renewed :
  paths (mapiRequest (node expired_token) enough (campaigns (Some quiet))
                     (fresh_world "stale"))
  = "/v1/advertisers/42/campaigns" :: "/oauth2/token"
    :: "/v1/advertisers/42/campaigns" :: nil
  /\ match mapiRequest (node expired_token) enough (campaigns (Some quiet))
                       (fresh_world "stale") with
     | Some (p, r', w') =>
         p = Resolved (VData (JArr nil)) /\ retry r' = true
         /\ callbacks (trace w') = 1%nat
         /\ token (this w') = VString "fresh"
     | None => False
     end.
Proof. vm_compute. repeat split; reflexivity. Qed.

(** 401 on every attempt: the request goes out twice, the second
    failure is the outcome. *)
Example second_401_is_final :
  paths (mapiRequest (node always_401) enough (campaigns None) (fresh_world "tok"))
  = "/v1/advertisers/42/campaigns" :: "/oauth2/token"
    :: "/v1/advertisers/42/campaigns" :: nil
  /\ match mapiRequest (node always_401) enough (campaigns None) (fresh_world "tok") with
     | Some (p, r', _) =>
         p = bad 401 (MiniJSON.dq "{'message':'Authorization has been denied.'}")
         /\ retry r' = true
     | None => False
     end.
Proof. vm_compute. repeat split; reflexivity. Qed.

(** 503: one exchange, the failure is the outcome. *)
Example status_503_is_final :
  observe (mapiRequest (node down) enough (campaigns None) (fresh_world "tok"))
  = Some (bad 503 "Service Unavailable", false, false,
          Transport (campaigns_request "tok") :: nil, VString "tok").
Proof. vm_compute. reflexivity. Qed.

(** File mode, the file cannot be written: the failure of the write is
    the outcome. *)
Example unwritable_file_fails :
  match mapiRequest (node_readonly (by_path token_response (ok 200 "a,b"))) enough
                    (stats_to_file "out.csv") (fresh_world "tok") with
  | Some (p, _, w') =>
      p = Rejected (Thrown (Error
            "Error Saving Response to File. Error: EACCES: permission denied"))
      /\ files w' !! "out.csv" = None
  | None => False
  end.
Proof. vm_compute. split; reflexivity. Qed.

End Runs.

(** * Where the specification and the code part *)

(** C5 as stated fails at status 299: it is "2xx", and [process] rejects
    it. *)
Lemma status_299_is_rejected :
  spec_2xx (N_toString 299) = true
  /\ status_ok 299 = false
  /\ fst (processJSON (Scenario.node Scenario.down) (MkResponse 299 "[]")
                      (Scenario.fresh_world "tok"))
     = Scenario.bad 299 "[]"
  /\ ~ spec_success_is_2xx.
Proof.
  split; [reflexivity|]. split; [reflexivity|]. split; [reflexivity|].
  intros H. specialize (H 299%N). vm_compute in H. discriminate H.
Qed.

(** C3 as stated fails on a request with a callback that is answered 503:
    the callback gets the error, the promise stays pending. *)
Lemma failure_leaves_promise_pending :
  Scenario.observe
    (mapiRequest (Scenario.node Scenario.down) enough
                 (Scenario.campaigns (Some Scenario.quiet)) (Scenario.fresh_world "tok"))
  = Some (Pending, false, true,
          Transport (Scenario.campaigns_request "tok")
          :: Callback (CbError (Thrown (bad_response
                                          (MkResponse 503 "Service Unavailable"))))
          :: nil,
          VString "tok")
  /\ ~ spec_failure_reaches_both_protocols.
Proof.
  split; [vm_compute; reflexivity|].
  intros H.
  assert (Hrun : exists r' w' tr,
            mapiRequest (Scenario.node Scenario.down) enough
                        (Scenario.campaigns (Some Scenario.quiet))
                        (Scenario.fresh_world "tok") = Some (Pending, r', w')
            /\ trace w' = Callback (CbError (Thrown (bad_response
                                      (MkResponse 503 "Service Unavailable")))) :: tr).
  { eexists; eexists; eexists. split; vm_compute; reflexivity. }
  destruct Hrun as (r' & w' & tr & Hrun & Htr).
  specialize (H (Scenario.node Scenario.down) enough
                (Scenario.campaigns (Some Scenario.quiet)) (Scenario.fresh_world "tok")
                Pending r' w' _ tr eq_refl eq_refl Hrun Htr).
  discriminate H.
Qed.

(** C6.  A failure whose status is not 401 is to be surfaced at once,
    without a retry.  The code does not do so for a request that is
    answered 500 with "401" somewhere in the body: the text of the failure
    contains "401", so the client authenticates and sends the request a
    second time. *)
Lemma status_500_is_retried :
  Scenario.paths
    (mapiRequest (Scenario.node Scenario.down_with_401_in_body) enough
                 (Scenario.campaigns None) (Scenario.fresh_world "tok"))
  = "/v1/advertisers/42/campaigns" :: "/oauth2/token"
    :: "/v1/advertisers/42/campaigns" :: nil
  /\ ~ spec_only_status_401_is_retried.
Proof.
  split; [vm_compute; reflexivity|].
  intros H.
  assert (Hrun : exists p r' w',
            mapiRequest (Scenario.node Scenario.down_with_401_in_body) enough
                        (Scenario.campaigns None) (Scenario.fresh_world "tok")
            = Some (p, r', w') /\ retry r' = true).
  { eexists; eexists; eexists. split; vm_compute; reflexivity. }
  destruct Hrun as (p & r' & w' & Hrun & Hretry).
  specialize (H (Scenario.node Scenario.down_with_401_in_body) enough
                (Scenario.campaigns None) (Scenario.fresh_world "tok")
                (MkResponse 500 "upstream timeout, ticket 84012") p r' w').
  destruct H as [Hno _]; try reflexivity; try discriminate; try exact Hrun.
  rewrite Hretry in Hno. discriminate Hno.
Qed.

(** C7.  An authentication response without an access token is to make
    the handler fail.  The code does not do so: for a body that is a JSON
    object without [access_token], [processAuth] succeeds, and the token
    is [undefined] from then on. *)
Lemma missing_token_is_accepted :
  processAuth (Scenario.node Scenario.down) Scenario.invalid_client
              (Scenario.fresh_world "")
  = (Resolved VUndefined,
     MkWorld (MkClient "id" "secret" "" VUndefined) ∅ nil)
  /\ ~ spec_missing_token_fails.
Proof.
  split; [vm_compute; reflexivity|].
  intros H.
  specialize (H (Scenario.node Scenario.down) Scenario.invalid_client
                (Scenario.fresh_world "")).
  assert (Hpre : (exists e, JSON_parse (Scenario.node Scenario.down)
                              (res_body Scenario.invalid_client) = ParseThrows e)
                 \/ (exists j, JSON_parse (Scenario.node Scenario.down)
                                 (res_body Scenario.invalid_client) = ParseOk j
                               /\ lacks_access_token j)).
  { right. eexists. split; vm_compute; reflexivity. }
  specialize (H Hpre). vm_compute in H. discriminate H.
Qed.

(** * The theorems at concrete inputs *)

Lemma at_most_one_retry_witness :
  (enough <= enough)%nat
  /\ (exists p r' w',
        mapiRequest (Scenario.node Scenario.always_401) enough
                    (Scenario.campaigns None) (Scenario.fresh_world "tok")
        = Some (p, r', w')
        /\ (executions (this (Scenario.fresh_world "tok"))
                       (path (Scenario.campaigns None)) (trace w')
            <= executions (this (Scenario.fresh_world "tok"))
                          (path (Scenario.campaigns None))
                          (trace (Scenario.fresh_world "tok")) + 2)%nat)
  /\ (exists p r' w',
        mapiRequest (Scenario.node Scenario.always_401) enough
                    (Scenario.campaigns None) (Scenario.fresh_world "tok")
        = Some (p, r', w')
        /\ retry r' = true
        /\ executions (this (Scenario.fresh_world "tok"))
                      (path (Scenario.campaigns None)) (trace w') = 2%nat
        /\ p = Scenario.bad 401
                 (MiniJSON.dq "{'message':'Authorization has been denied.'}")).
Proof.
  split; [apply le_n|].
  destruct (at_most_one_retry (Scenario.node Scenario.always_401) enough
              (Scenario.campaigns None) (Scenario.fresh_world "tok") (le_n enough))
    as ((p & r' & w' & Hrun & Hx & _) & _ & _ & Htwice).
  split; [exists p, r', w'; split; [exact Hrun|exact Hx]|].
  destruct (Htwice
              (Scenario.fresh_world "tok")
              (log (Transport (Scenario.campaigns_request "tok"))
                   (Scenario.fresh_world "tok"))
              (MkWorld (MkClient "id" "secret" EmptyString (VString "fresh")) ∅
                 (Transport
                    (MkRequest POST "/oauth2/token"
                       (Some "client_id=id&client_secret=secret&grant_type=client_credentials")
                       None (VString "tok"))
                  :: Transport (Scenario.campaigns_request "tok") :: nil))
              (MkWorld (MkClient "id" "secret" EmptyString (VString "fresh")) ∅
                 (Transport (Scenario.campaigns_request "fresh")
                  :: Transport
                       (MkRequest POST "/oauth2/token"
                          (Some "client_id=id&client_secret=secret&grant_type=client_credentials")
                          None (VString "tok"))
                  :: Transport (Scenario.campaigns_request "tok") :: nil))
              (bad_response
                 (MkResponse 401
                    (MiniJSON.dq "{'message':'Authorization has been denied.'}")))
              (bad_response
                 (MkResponse 401
                    (MiniJSON.dq "{'message':'Authorization has been denied.'}")))
              (VString "fresh")
              (auth_descriptor (Scenario.node Scenario.always_401)
                 (MkClient "id" "secret" EmptyString (VString "tok")) None))
    as (p2 & r2 & w2 & Hrun2 & Hr2 & Hx2 & Hout);
    [reflexivity|discriminate|left; split; reflexivity
    |vm_compute; reflexivity|vm_compute; reflexivity
    |vm_compute; reflexivity|vm_compute; reflexivity|].
  exists p2, r2, w2. split; [exact Hrun2|]. split; [exact Hr2|].
  split; [exact Hx2|]. simpl in Hout. apply Hout.
Defined.

Lemma callback_exactly_once_witness :
  (enough <= enough)%nat
  /\ exists p r' w',
       mapiRequest (Scenario.node Scenario.always_401) enough
                   (Scenario.campaigns (Some Scenario.quiet)) (Scenario.fresh_world "tok")
       = Some (p, r', w')
       /\ callbacks (trace w') = 1%nat
       /\ callbackExecuted r' = true.
Proof.
  split; [apply le_n|].
  destruct (callback_exactly_once (Scenario.node Scenario.always_401) enough
              (Scenario.campaigns (Some Scenario.quiet)) (Scenario.fresh_world "tok")
              (le_n enough))
    as (p & r' & w' & Hrun & Hn & Hex & _).
  exists p, r', w'. split; [exact Hrun|]. split; [exact Hn|]. apply Hex. reflexivity.
Defined.

Lemma failure_goes_to_callback_or_promise_witness :
  (enough <= enough)%nat
  /\ exists p r' w' args tr,
       mapiRequest (Scenario.node Scenario.down) enough
                   (Scenario.campaigns (Some Scenario.quiet)) (Scenario.fresh_world "tok")
       = Some (p, r', w')
       /\ trace w' = Callback args :: tr
       /\ (forall err, args = CbError err -> p = Pending).
Proof.
  split; [apply le_n|].
  destruct (failure_goes_to_callback_or_promise (Scenario.node Scenario.down) enough
              (Scenario.campaigns (Some Scenario.quiet)) (Scenario.fresh_world "tok")
              (le_n enough))
    as [_ (p & r' & w' & Hrun & args & tr & Htr & _ & _ & Hp)].
  exists p, r', w', args, tr. split; [exact Hrun|]. split; [exact Htr|exact Hp].
Defined.

Lemma credential_check_witness :
  token (this (Scenario.fresh_world "")) = VString ""
  /\ exists p,
       checkAuthentication
         (MkFrame (Scenario.fresh_world "")
                  (auth_descriptor (Scenario.node Scenario.down)
                                   (this (Scenario.fresh_world "")) None) None)
       = Some (p, MkFrame (Scenario.fresh_world "")
                          (auth_descriptor (Scenario.node Scenario.down)
                                           (this (Scenario.fresh_world "")) None) None)
       /\ p = Resolved VUndefined.
Proof.
  split; [reflexivity|].
  destruct (credential_check
              (auth_descriptor (Scenario.node Scenario.down)
                               (this (Scenario.fresh_world "")) None)
              (Scenario.fresh_world "") None "" eq_refl)
    as (p & Hrun & _ & _ & Hauth).
  exists p. split; [exact Hrun|]. apply Hauth. reflexivity.
Defined.

Lemma status_20x_is_success_witness :
  status_ok 1200 = true
  /\ status_ok 299 = false
  /\ HProcessJSON <> HProcessAuth
  /\ fst (run_handler (Scenario.node Scenario.down) HProcessJSON (MkResponse 299 "[]")
                      (Scenario.fresh_world "tok"))
     = Rejected (Thrown (Error ("Bad Response From API: Status Code "
                                ++ N_toString 299 ++ " | " ++ "[]")))
  /\ exists pre d post,
       N_toString 1200 = pre ++ String "2" (String "0" (String d post))
       /\ is_digit d = true.
Proof.
  split; [reflexivity|]. split; [reflexivity|]. split; [discriminate|].
  split.
  - apply (proj1 (proj2 (proj2 (proj2 (proj2
             (status_20x_is_success (Scenario.node Scenario.down) 299 "[]"
                (Scenario.fresh_world "tok")))))) HProcessJSON);
      [discriminate|reflexivity].
  - apply (proj1 (status_20x_is_success (Scenario.node Scenario.down) 1200 "[]"
                    (Scenario.fresh_world "tok"))).
    reflexivity.
Defined.

(** The same at a request that is answered 503. *)
Lemma failure_without_401_at_503 :
  checkAuthentication
    (MkFrame (Scenario.fresh_world "tok") (Scenario.campaigns None) None)
  = Some (Resolved VUndefined,
          MkFrame (Scenario.fresh_world "tok") (Scenario.campaigns None) None)
  /\ executeRequest (Scenario.node Scenario.down)
       (MkFrame (Scenario.fresh_world "tok") (Scenario.campaigns None) None)
     = Some (Rejected (Thrown (bad_response (MkResponse 503 "Service Unavailable"))),
             MkFrame (log (Transport (Scenario.campaigns_request "tok"))
                          (Scenario.fresh_world "tok"))
                     (Scenario.campaigns None) None)
  /\ mentions_401 (Thrown (bad_response (MkResponse 503 "Service Unavailable"))) = false
  /\ exists p r' w',
       mapiRequest (Scenario.node Scenario.down) 1 (Scenario.campaigns None)
                   (Scenario.fresh_world "tok") = Some (p, r', w')
       /\ retry r' = false
       /\ p = Rejected (Thrown (bad_response (MkResponse 503 "Service Unavailable"))).
Proof.
  split; [reflexivity|]. split; [reflexivity|]. split; [reflexivity|].
  destruct (failure_without_401_is_not_retried (Scenario.node Scenario.down) 0
              (Scenario.campaigns None) (Scenario.fresh_world "tok")
              (log (Transport (Scenario.campaigns_request "tok"))
                   (Scenario.fresh_world "tok"))
              (bad_response (MkResponse 503 "Service Unavailable"))
              eq_refl eq_refl eq_refl)
    as [(p & r' & w' & Hrun & Hretry & _ & Hout) _].
  exists p, r', w'. split; [exact Hrun|]. split; [exact Hretry|].
  simpl in Hout. apply Hout.
Qed.

Lemma json_round_trip_witness :
  JSON_parse (Scenario.node Scenario.down) = MiniJSON.parse
  /\ MiniJSON.representable Scenario.sample = true
  /\ processJSON (Scenario.node Scenario.down)
                 (MkResponse 200 (MiniJSON.stringify Scenario.sample))
                 (Scenario.fresh_world "tok")
     = (Resolved (VData Scenario.sample), Scenario.fresh_world "tok").
Proof.
  split; [reflexivity|]. split; [reflexivity|].
  apply (json_round_trip (Scenario.node Scenario.down) Scenario.sample
           (Scenario.fresh_world "tok")); reflexivity.
Defined.

Lemma empty_body_resolves_true_witness :
  (status_ok 204 = true /\ all_whitespace "" = true
   /\ processJSON (Scenario.node Scenario.down) (MkResponse 204 "")
                  (Scenario.fresh_world "tok")
      = (Resolved VTrue, Scenario.fresh_world "tok"))
  /\ (status_ok 200 = true /\ all_whitespace "" = true
      /\ processResponse (MkResponse 200 "") (Scenario.fresh_world "tok")
         = (Resolved VTrue, Scenario.fresh_world "tok")).
Proof.
  split; (split; [reflexivity|]; split; [reflexivity|]).
  - apply (empty_body_resolves_true (Scenario.node Scenario.down) 204 ""
             (Scenario.fresh_world "tok")); reflexivity.
  - apply (empty_body_resolves_true (Scenario.node Scenario.down) 200 ""
             (Scenario.fresh_world "tok")); reflexivity.
Defined.

Lemma parser_runs_after_rejection_witness :
  status_ok (statusCode (MkResponse 500 " a,b ")) = false
  /\ fst (processFile (Scenario.node Scenario.down) "out.csv" (MkResponse 500 " a,b ")
                      (Scenario.fresh_world "tok"))
     = Rejected (Thrown (bad_response (MkResponse 500 " a,b ")))
  /\ files (snd (processFile (Scenario.node Scenario.down) "out.csv"
                             (MkResponse 500 " a,b ") (Scenario.fresh_world "tok")))
     !! "out.csv" = Some "a,b".
Proof.
  split; [reflexivity|].
  destruct (parser_runs_after_rejection (Scenario.node Scenario.down)
              (MkResponse 500 " a,b ") "out.csv" (Scenario.fresh_world "tok") eq_refl)
    as (_ & Hp & Hfile & _).
  split; [exact Hp|]. apply Hfile. reflexivity.
Defined.

(** * The rest of the client: properties *)

(** ** Form data *)

Lemma drop_last_snoc (s : string) (c : ascii) :
  drop_last (s ++ String c EmptyString) = s.
Proof.
  induction s as [|a s IH].
  - reflexivity.
  - rewrite MiniJSONFacts.append_cons.
    change (drop_last (String a (s ++ String c EmptyString)))
      with (match s ++ String c EmptyString with
            | EmptyString => EmptyString
            | _ => String a (drop_last (s ++ String c EmptyString))
            end).
    rewrite IH. destruct s; reflexivity.
Qed.

Lemma toFormData_fold (obj : list (string * string)) (acc : string) :
  fold_left (fun formdata kv => formdata ++ fst kv ++ "=" ++ snd kv ++ "&") obj acc
  = acc ++ fold_right (fun kv rest => fst kv ++ "=" ++ snd kv ++ "&" ++ rest) "" obj.
Proof.
  revert acc. induction obj as [|kv obj IH]; intros acc; simpl.
  - symmetry. apply MiniJSONFacts.append_nil_r.
  - rewrite IH. rewrite !MiniJSONFacts.append_assoc. reflexivity.
Qed.

Lemma pairs_joined (obj : list (string * string)) :
  obj <> nil ->
  fold_right (fun kv rest => fst kv ++ "=" ++ snd kv ++ "&" ++ rest) "" obj
  = String.concat "&" (map (fun kv => fst kv ++ "=" ++ snd kv) obj) ++ "&".
Proof.
  induction obj as [|kv obj IH]; [congruence|]. intros _.
  destruct obj as [|kv' obj].
  - simpl. rewrite !MiniJSONFacts.append_assoc. reflexivity.
  - change (fold_right _ "" (kv :: kv' :: obj))
      with (fst kv ++ "=" ++ snd kv ++ "&"
            ++ fold_right (fun kv rest => fst kv ++ "=" ++ snd kv ++ "&" ++ rest) ""
                          (kv' :: obj)).
    rewrite IH by congruence.
    change (String.concat "&" (map (fun kv => fst kv ++ "=" ++ snd kv) (kv :: kv' :: obj)))
      with ((fst kv ++ "=" ++ snd kv) ++ "&"
            ++ String.concat "&" (map (fun kv => fst kv ++ "=" ++ snd kv) (kv' :: obj))).
    rewrite !MiniJSONFacts.append_assoc. reflexivity.
Qed.

(** X1.  [toFormData] gives the pairs [key=value] in the order of the
    object, joined by an ampersand, with none at the end; the empty object
    gives the empty string. *)
Theorem toFormData_joins (obj : list (string * string)) :
  toFormData obj = String.concat "&" (map (fun kv => fst kv ++ "=" ++ snd kv) obj).
Proof.
  unfold toFormData. rewrite toFormData_fold, MiniJSONFacts.append_nil_l.
  destruct obj as [|kv obj]; [reflexivity|].
  rewrite pairs_joined by congruence.
  apply drop_last_snoc.
Qed.

(** ** The response mode of a report *)

Lemma lower_char_j (c : ascii) :
  lower_char c = "j"%char <-> (c = "j" \/ c = "J")%char.
Proof.
  destruct c as [[] [] [] [] [] [] [] []]; vm_compute;
    (split; [intros H; first [discriminate H | now left | now right]
            |intros [H|H]; first [discriminate H | reflexivity]]).
Qed.

Lemma lower_char_s (c : ascii) :
  lower_char c = "s"%char <-> (c = "s" \/ c = "S")%char.
Proof.
  destruct c as [[] [] [] [] [] [] [] []]; vm_compute;
    (split; [intros H; first [discriminate H | now left | now right]
            |intros [H|H]; first [discriminate H | reflexivity]]).
Qed.

Lemma lower_char_o (c : ascii) :
  lower_char c = "o"%char <-> (c = "o" \/ c = "O")%char.
Proof.
  destruct c as [[] [] [] [] [] [] [] []]; vm_compute;
    (split; [intros H; first [discriminate H | now left | now right]
            |intros [H|H]; first [discriminate H | reflexivity]]).
Qed.

Lemma lower_char_n (c : ascii) :
  lower_char c = "n"%char <-> (c = "n" \/ c = "N")%char.
Proof.
  destruct c as [[] [] [] [] [] [] [] []]; vm_compute;
    (split; [intros H; first [discriminate H | now left | now right]
            |intros [H|H]; first [discriminate H | reflexivity]]).
Qed.

Lemma toLowerCase_json (s : string) :
  toLowerCase s = "json" <-> spells_json s.
Proof.
  unfold spells_json. split.
  - destruct s as [|c1 [|c2 [|c3 [|c4 [|c5 s]]]]]; simpl; try discriminate.
    intros H. injection H as H1 H2 H3 H4.
    exists c1, c2, c3, c4. split; [reflexivity|].
    rewrite <- lower_char_j, <- lower_char_s, <- lower_char_o, <- lower_char_n. auto.
  - intros (c1 & c2 & c3 & c4 & -> & H1 & H2 & H3 & H4). simpl.
    apply lower_char_j in H1. apply lower_char_s in H2.
    apply lower_char_o in H3. apply lower_char_n in H4.
    rewrite H1, H2, H3, H4. reflexivity.
Qed.

(** X3.  Without a file path the mode is read off [query.format]: the
    answer is parsed as JSON exactly when the format spells "json" in
    some casing, a format that is any other string gives the text as it
    is, and a format that is missing or is not a string makes the call
    throw a [TypeError]. *)
Theorem format_decides (query : list (string * json)) (filepath : option string) :
  filepath = None \/ filepath = Some EmptyString ->
  (forall s, get_member "format" query = VData (JStr s) -> spells_json s ->
             determineStatsHandler query filepath = Returns HProcessJSON)
  /\ (forall s, get_member "format" query = VData (JStr s) -> ~ spells_json s ->
                determineStatsHandler query filepath = Returns HProcessResponse)
  /\ ((forall s, get_member "format" query <> VData (JStr s)) ->
      exists e, determineStatsHandler query filepath = Throws e
                /\ err_name e = "TypeError").
Proof.
  intros Hfp.
  assert (E : determineStatsHandler query filepath
              = determineStatsHandler query None).
  { destruct Hfp as [->| ->]; reflexivity. }
  rewrite E. unfold determineStatsHandler.
  split; [|split].
  - intros s -> H. apply toLowerCase_json in H. rewrite H. reflexivity.
  - intros s -> H. rewrite <- toLowerCase_json in H.
    apply String.eqb_neq in H. rewrite H. reflexivity.
  - intros H.
    destruct (get_member "format" query) as [|[]]; try (eexists; split; reflexivity).
    exfalso. apply (H s). reflexivity.
Qed.

(** ** The report methods *)

Lemma get_replace_member (k k' : string) (v : json) (ms : list (string * json)) :
  get_member k' (replace_member k v ms)
  = if String.eqb k' k
    then (if has_member k ms then VData v else VUndefined)
    else get_member k' ms.
Proof.
  induction ms as [|[k0 v0] ms IH]; simpl.
  - destruct (String.eqb k' k); reflexivity.
  - rewrite IH.
    destruct (String.eqb_spec k' k) as [->|Hk].
    + destruct (has_member k ms); simpl.
      * rewrite orb_true_r. reflexivity.
      * rewrite orb_false_r. destruct (String.eqb k k0); reflexivity.
    + destruct (get_member k' ms); [|reflexivity].
      destruct (String.eqb_spec k' k0) as [->|]; [|reflexivity].
      apply String.eqb_neq in Hk. rewrite String.eqb_sym in Hk. rewrite Hk. reflexivity.
Qed.

Lemma get_member_app (k : string) (ms : list (string * json)) (k0 : string) (v0 : json) :
  get_member k (ms ++ (k0, v0) :: nil)
  = if String.eqb k k0 then VData v0 else get_member k ms.
Proof.
  induction ms as [|[k1 v1] ms IH]; simpl.
  - destruct (String.eqb k k0); reflexivity.
  - rewrite IH. destruct (String.eqb k k0); reflexivity.
Qed.

(** Lookup after assignment. *)
Lemma get_set_member (k k' : string) (v : json) (ms : list (string * json)) :
  get_member k' (set_member k v ms)
  = if String.eqb k' k then VData v else get_member k' ms.
Proof.
  unfold set_member. destruct (has_member k ms) eqn:E.
  - rewrite get_replace_member, E. reflexivity.
  - apply get_member_app.
Qed.

(** X4.  A report call with a readable mode and two valid dates hands
    [mapiRequest] a POST to the path of the report whose body is the
    serialised query, with [startDate] and [endDate] in ISO form and every
    other member as the caller gave it; the caller's query object is left
    in that converted state. *)
Theorem report_converts_dates (R : runtime) (report_path : string)
    (query : list (string * json)) (filepath : option string)
    (cb : option user_callback) (h : response_handler) (s e : string) :
  determineStatsHandler query filepath = Returns h ->
  Date_toISOString R (get_member "startDate" query) = Some s ->
  Date_toISOString R (get_member "endDate" query) = Some e ->
  exists converted,
    report_descriptor R report_path query filepath cb
    = (Returns (MkDescriptor POST report_path
                  (Some (JSON_stringify R (JObj converted))) None h cb false false),
       converted)
    /\ get_member "startDate" converted = VData (JStr s)
    /\ get_member "endDate" converted = VData (JStr e)
    /\ (forall k, k <> "startDate" -> k <> "endDate" ->
                  get_member k converted = get_member k query).
Proof.
  intros Hh Hs He. unfold report_descriptor. rewrite Hh, Hs.
  rewrite (get_set_member "startDate" "endDate").
  change (String.eqb "endDate" "startDate") with false. cbv iota. rewrite He.
  eexists. split; [reflexivity|].
  rewrite !get_set_member.
  change (String.eqb "endDate" "endDate") with true.
  change (String.eqb "startDate" "endDate") with false.
  change (String.eqb "startDate" "startDate") with true. cbv iota.
  repeat split.
  intros k H1 H2. rewrite !get_set_member.
  apply String.eqb_neq in H1, H2. rewrite H1, H2. reflexivity.
Qed.

(** X5.  The three report methods fail before any request is made, in
    this order: a mode that cannot be read throws with the query
    untouched; then, with a valid start date and an invalid end date, the
    call throws a [RangeError] and the caller's query is left with
    [startDate] already overwritten. *)
Theorem report_fails_early (P : platform) (R : runtime) (fuel : nat)
    (query : list (string * json)) (filepath : option string)
    (cb : option user_callback) (w : world) :
  (forall e, determineStatsHandler query filepath = Throws e ->
     getReport P R fuel query filepath cb w = (Throws e, query)
     /\ getStats P R fuel query filepath cb w = (Throws e, query)
     /\ getSellerStats P R fuel query filepath cb w = (Throws e, query))
  /\ (forall h s,
        determineStatsHandler query filepath = Returns h ->
        Date_toISOString R (get_member "startDate" query) = Some s ->
        Date_toISOString R (get_member "endDate" query) = None ->
        exists left,
          getReport P R fuel query filepath cb w = (Throws invalid_time, left)
          /\ getStats P R fuel query filepath cb w = (Throws invalid_time, left)
          /\ getSellerStats P R fuel query filepath cb w = (Throws invalid_time, left)
          /\ get_member "startDate" left = VData (JStr s)
          /\ (forall k, k <> "startDate" -> get_member k left = get_member k query)).
Proof.
  unfold getReport, getStats, getSellerStats, report_descriptor.
  split.
  - intros e ->. simpl. auto.
  - intros h s -> Hs He. rewrite Hs.
    rewrite (get_set_member "startDate" "endDate").
    change (String.eqb "endDate" "startDate") with false. cbv iota. rewrite He.
    cbn [fst snd submit].
    eexists. repeat split.
    + rewrite get_set_member. reflexivity.
    + intros k Hk. rewrite get_set_member.
      apply String.eqb_neq in Hk. rewrite Hk. reflexivity.
Qed.

(** ** The history of a run *)

Lemma count_app (f : event -> bool) (a b : list event) :
  count f (a ++ b)%list = (count f a + count f b)%nat.
Proof. induction a as [|e a IH]; simpl; [reflexivity|rewrite IH; lia]. Qed.

Lemma authentications_endpoint (c c' : client) (tr : list event) :
  endpoint c' = endpoint c -> authentications c' tr = authentications c tr.
Proof. unfold authentications, executions. intros ->. reflexivity. Qed.

Lemma writes_only_same (h : response_handler) (w w' : world) :
  files w' = files w -> writes_only h w w'.
Proof. intros E. destruct h; simpl; auto. intros k _. rewrite E. reflexivity. Qed.

Lemma writes_only_trans (h : response_handler) (w w1 w2 : world) :
  writes_only h w w1 -> writes_only h w1 w2 -> writes_only h w w2.
Proof.
  destruct h; simpl; try congruence.
  intros H1 H2 k Hk. rewrite H2, H1; auto.
Qed.

Lemma advance_intro (c : client) (h : response_handler) (k : nat) (w w' : world)
      (later : list event) :
  trace w' = (later ++ trace w)%list ->
  (exchange_count later <= k)%nat ->
  endpoint (this w') = endpoint (this w) ->
  id (this w') = id (this w) ->
  secret (this w') = secret (this w) ->
  writes_only h w w' ->
  (h <> HProcessAuth ->
   token (this w') = token (this w) \/ (0 < authentications c later)%nat) ->
  advance c h k w w'.
Proof.
  intros Ht Hk He Hi Hs Hf Htok. unfold advance.
  split; [eauto|].
  split; [rewrite Ht; unfold exchange_count in *; rewrite count_app; lia|].
  split; [auto|]. split; [exact Hf|].
  intros Hh Hc. destruct (Htok Hh) as [E|Hlt]; [exact E|].
  rewrite Ht in Hc. unfold authentications, executions in *.
  rewrite count_app in Hc. lia.
Qed.

Lemma advance_refl (c : client) (h : response_handler) (w : world) :
  advance c h 0 w w.
Proof.
  apply (advance_intro c h 0 w w nil); auto.
  apply writes_only_same. reflexivity.
Qed.

Lemma advance_grows (c c' : client) (h : response_handler) (k : nat) (w w' : world) :
  advance c h k w w' ->
  (authentications c' (trace w) <= authentications c' (trace w'))%nat.
Proof.
  intros ((later & Ht) & _). rewrite Ht.
  unfold authentications, executions. rewrite count_app. lia.
Qed.

Lemma advance_trans (c : client) (h : response_handler) (k1 k2 : nat)
      (w w1 w2 : world) :
  advance c h k1 w w1 -> advance c h k2 w1 w2 -> advance c h (k1 + k2) w w2.
Proof.
  intros H1 H2.
  pose proof (advance_grows c c h k1 w w1 H1) as G1.
  pose proof (advance_grows c c h k2 w1 w2 H2) as G2.
  destruct H1 as ((l1 & Ht1) & Hk1 & (He1 & Hi1 & Hs1) & Hf1 & Htok1).
  destruct H2 as ((l2 & Ht2) & Hk2 & (He2 & Hi2 & Hs2) & Hf2 & Htok2).
  unfold advance.
  split; [exists (l2 ++ l1)%list; rewrite Ht2, Ht1; apply app_assoc|].
  split; [lia|].
  split; [repeat split; congruence|].
  split; [exact (writes_only_trans h w w1 w2 Hf1 Hf2)|].
  intros Hh Hc. rewrite Htok2, Htok1; auto; lia.
Qed.

Lemma advance_weaken (c : client) (h : response_handler) (k k' : nat) (w w' : world) :
  (k <= k')%nat -> advance c h k w w' -> advance c h k' w w'.
Proof.
  intros Hk (Ht & Hx & He & Hf & Htok).
  unfold advance. repeat split; try tauto. lia.
Qed.

Lemma advance_client (c c' : client) (h : response_handler) (k : nat) (w w' : world) :
  endpoint c' = endpoint c -> advance c h k w w' -> advance c' h k w w'.
Proof.
  intros E (Ht & Hx & He & Hf & Htok).
  unfold advance. rewrite !(authentications_endpoint c c' _ E). tauto.
Qed.

(** What a response handler leaves of the world. *)
Lemma run_handler_frame (P : platform) (h : response_handler) (res : response)
      (w : world) :
  let w' := snd (run_handler P h res w) in
  trace w' = trace w
  /\ endpoint (this w') = endpoint (this w)
  /\ id (this w') = id (this w)
  /\ secret (this w') = secret (this w)
  /\ writes_only h w w'
  /\ (h <> HProcessAuth -> this w' = this w).
Proof.
  destruct h as [| |fp|]; simpl.
  - unfold processAuth. destruct (JSON_parse P (res_body res)); [|simpl; tauto].
    destruct (access_token j); simpl; tauto.
  - unfold processJSON, process. cbv zeta.
    match goal with
    | |- context [parseJSON P ?t ?c w] =>
        destruct (parseJSON_settles P t c w) as (p & _ & ->)
    end.
    simpl; tauto.
  - unfold processFile, process, saveToFile. cbv zeta.
    destruct (writeFile_error P (files w) fp (trim (res_body res))); simpl.
    + repeat split; auto.
    + repeat split; auto. intros k Hk. apply lookup_insert_ne. congruence.
  - unfold processResponse, process. cbv zeta.
    match goal with
    | |- context [parseResponse ?t ?c w] =>
        destruct (parseResponse_settles t c w) as (p & _ & ->)
    end.
    simpl; tauto.
Qed.

Lemma first_request_allowed (P : platform) (r : descriptor) (w : world) :
  allowed r w = true ->
  first_request P r w
  = MkRequest (method r) (endpoint (this w) ++ path r) (body r) (query r)
              (token (this w)).
Proof. unfold first_request. intros ->. reflexivity. Qed.

Lemma first_request_authenticates (P : platform) (r : descriptor) (w : world) :
  allowed r w = false ->
  first_request P r w
  = first_request P (auth_descriptor P (this w) None) w.
Proof.
  unfold first_request. intros ->.
  assert (E : allowed (auth_descriptor P (this w) None) w = true).
  { unfold allowed. simpl. apply orb_true_r. }
  rewrite E. reflexivity.
Qed.

Lemma first_request_counts (P : platform) (r : descriptor) (w : world) :
  allowed r w = false ->
  authentications (this w) (Transport (first_request P r w) :: nil) = 1%nat.
Proof.
  intros H. unfold first_request. rewrite H.
  unfold authentications, executions. simpl. rewrite String.eqb_refl. reflexivity.
Qed.

(** The authentication step of the chain. *)
Lemma auth_step (P : platform)
      (self : descriptor -> world -> option (promise * descriptor * world))
      (w : world) (r : descriptor) (p2 : promise) (f2 : frame) :
  keeps_history P self ->
  bind checkAuthentication (fun p => catch_ p (fun _ => authenticate P self None))
       (MkFrame w r None) = Some (p2, f2) ->
  exists w2, f2 = MkFrame w2 r None
    /\ advance (this w) (handler r) (if allowed r w then 0 else 2) w w2
    /\ (if allowed r w
        then w2 = w /\ p2 = Resolved VUndefined
        else (exists later : list event,
                trace w2 = (later ++ Transport (first_request P r w) :: trace w)%list)
             /\ (authentications (this w) (trace w)
                 < authentications (this w) (trace w2))%nat).
Proof.
  intros Hself. unfold bind. rewrite checkAuthentication_run. simpl.
  fold (allowed r w).
  destruct (allowed r w) eqn:Hal; simpl.
  - unfold ret. intros H. injection H as <- <-.
    exists w. split; [reflexivity|]. split; [apply advance_refl|]. auto.
  - unfold authenticate, bind, get_this. simpl.
    destruct (self (auth_descriptor P (this w) None) w) as [[[p a'] w2]|] eqn:Hcall;
      [|discriminate].
    intros H. injection H as <- <-.
    apply Hself in Hcall.
    destruct Hcall as ((later & Ht) & Hadv & _).
    rewrite <- (first_request_authenticates P r w Hal) in Ht.
    assert (Hlt : (authentications (this w) (trace w)
                   < authentications (this w) (trace w2))%nat).
    { rewrite Ht.
      change (later ++ Transport (first_request P r w) :: trace w)%list
        with (later ++ (Transport (first_request P r w) :: nil) ++ trace w)%list.
      unfold authentications, executions. rewrite !count_app.
      pose proof (first_request_counts P r w Hal) as E.
      unfold authentications, executions in E. rewrite E. lia. }
    exists w2. split; [reflexivity|]. split; [|split; [eauto|exact Hlt]].
    destruct Hadv as ((l & Hl) & Hx & (He & Hi & Hs) & Hf & _).
    simpl in Hx, Hf.
    unfold advance. split; [eauto|]. split; [exact Hx|].
    split; [auto|]. split; [apply writes_only_same; exact Hf|].
    intros _ Hc. lia.
Qed.

Lemma processAuth_token (P : platform) (res : response) (w : world) (t : jsval) :
  fst (processAuth P res w) = Resolved t ->
  token (this (snd (processAuth P res w))) = t.
Proof.
  unfold processAuth. destruct (JSON_parse P (res_body res)); [|discriminate].
  destruct (access_token j); [|discriminate].
  simpl. congruence.
Qed.

(** The execution step. *)
Lemma exec_step (P : platform) (c : client) (w2 : world) (r : descriptor)
      (p2 p3 : promise) (f3 : frame) :
  then_ p2 (fun _ => executeRequest P) (MkFrame w2 r None) = Some (p3, f3) ->
  exists w3, f3 = MkFrame w3 r None
    /\ advance c (handler r) 1 w2 w3
    /\ (forall v, p2 = Resolved v ->
          trace w3
          = Transport (MkRequest (method r) (endpoint (this w2) ++ path r) (body r)
                                 (query r) (token (this w2))) :: trace w2)
    /\ (handler r = HProcessAuth -> forall t, p3 = Resolved t -> token (this w3) = t).
Proof.
  destruct p2 as [v|e|]; simpl.
  - rewrite executeRequest_run. simpl.
    set (rq := MkRequest (method r) (endpoint (this w2) ++ path r) (body r) (query r)
                         (token (this w2))).
    destruct (transport P (trace w2) rq) as [res|e].
    + intros H. injection H as <- <-.
      destruct (run_handler_frame P (handler r) res (log (Transport rq) w2))
        as (Ht & He & Hi & Hs & Hf & Hthis).
      eexists. split; [reflexivity|].
      split; [|split; [intros v' _; exact Ht|]].
      * apply (advance_intro c (handler r) 1 w2 _ (Transport rq :: nil)); auto.
        intros Hh. left. rewrite (Hthis Hh). reflexivity.
      * intros Hh t. rewrite Hh. simpl. apply processAuth_token.
    + intros H. injection H as <- <-.
      eexists. split; [reflexivity|].
      split; [|split; [intros v' _; reflexivity|intros _ t H; discriminate H]].
      apply (advance_intro c (handler r) 1 w2 _ (Transport rq :: nil)); auto.
      apply writes_only_same. reflexivity.
  - unfold ret. intros H. injection H as <- <-.
    exists w2. split; [reflexivity|].
    split; [apply (advance_weaken c (handler r) 0 1); [lia|apply advance_refl]|].
    split; [intros v H; discriminate H|intros _ t H; discriminate H].
  - unfold ret. intros H. injection H as <- <-.
    exists w2. split; [reflexivity|].
    split; [apply (advance_weaken c (handler r) 0 1); [lia|apply advance_refl]|].
    split; [intros v H; discriminate H|intros _ t H; discriminate H].
Qed.

(** The decision. *)
Lemma decide_step (P : platform)
      (self : descriptor -> world -> option (promise * descriptor * world))
      (w3 : world) (r : descriptor) (p3 p4 : promise) (f4 : frame) :
  keeps_history P self ->
  catch_ p3 (decideWhetherToRequeue self) (MkFrame w3 r None) = Some (p4, f4) ->
  exists w4 r4, f4 = MkFrame w4 r4 None
    /\ advance (this w3) (handler r)
               (if retry r then 0 else exchange_bound (set_retry true r)) w3 w4
    /\ ((r4 = r /\ w4 = w3 /\ forall t, p4 = Resolved t -> p3 = Resolved t)
        \/ (retry r = false
            /\ (path r <> auth_path ->
                (authentications (this w3) (trace w3)
                 < authentications (this w3) (trace w4))%nat)
            /\ (handler r = HProcessAuth ->
                forall t, p4 = Resolved t -> token (this w4) = t))).
Proof.
  intros Hself.
  assert (Hstay : forall p, (forall t, p = Resolved t -> p3 = Resolved t) ->
    exists w4 r4, MkFrame w3 r None = MkFrame w4 r4 None
    /\ advance (this w3) (handler r)
               (if retry r then 0 else exchange_bound (set_retry true r)) w3 w4
    /\ ((r4 = r /\ w4 = w3 /\ forall t, p = Resolved t -> p3 = Resolved t)
        \/ (retry r = false
            /\ (path r <> auth_path ->
                (authentications (this w3) (trace w3)
                 < authentications (this w3) (trace w4))%nat)
            /\ (handler r = HProcessAuth ->
                forall t, p = Resolved t -> token (this w4) = t)))).
  { intros p Hp. exists w3, r. split; [reflexivity|]. split; [|left; auto].
    apply (advance_weaken _ _ 0); [lia|apply advance_refl]. }
  destruct p3 as [v|err|]; simpl.
  - unfold ret. intros H. injection H as <- <-. apply Hstay. auto.
  - rewrite decideWhetherToRequeue_run.
    destruct (reason_toString err) as [text|].
    + destruct (mentions_401 err && negb (retry r)) eqn:Hgo.
      * apply andb_true_iff in Hgo as [_ Hretry].
        apply negb_true_iff in Hretry.
        destruct (self (set_retry true r) w3) as [[[p r'] w']|] eqn:Hcall;
          [|discriminate].
        intros H. injection H as <- <-.
        apply Hself in Hcall.
        destruct Hcall as ((later & Ht) & Hadv & _ & Htok).
        exists w', r'. split; [reflexivity|].
        rewrite Hretry. split; [exact Hadv|].
        right. split; [reflexivity|]. split; [|exact Htok].
        intros Hpath.
        assert (Hal : allowed (set_retry true r) w3 = false).
        { unfold allowed. simpl. rewrite andb_false_r. simpl.
          apply String.eqb_neq. exact Hpath. }
        rewrite Ht.
        change (later ++ Transport (first_request P (set_retry true r) w3) :: trace w3)%list
          with (later ++ (Transport (first_request P (set_retry true r) w3) :: nil)
                ++ trace w3)%list.
        unfold authentications, executions. rewrite !count_app.
        pose proof (first_request_counts P (set_retry true r) w3 Hal) as E.
        unfold authentications, executions in E. rewrite E. lia.
      * intros H. injection H as <- <-. apply Hstay. intros t H. discriminate H.
    + intros H. injection H as <- <-. apply Hstay. intros t H. discriminate H.
  - unfold ret. intros H. injection H as <- <-. apply Hstay. auto.
Qed.

(** The two completing handlers: no exchange, nothing of the client or
    of the files is touched, and the promise is resolved only with the
    value the attempt ended in. *)
Lemma complete_step (c : client) (h : response_handler) (p : promise)
      (w : world) (r : descriptor) (x : promise) (f : frame) :
  complete p (MkFrame w r None) = Some (x, f) ->
  retry (fr_r f) = retry r
  /\ advance c h 0 w (fr_world f)
  /\ this (fr_world f) = this w
  /\ (forall t, promise_of (fr_promise f) = Resolved t -> p = Resolved t).
Proof.
  assert (Hcb : forall args, advance c h 0 w (log (Callback args) w)).
  { intros args.
    apply (advance_intro c h 0 w _ (Callback args :: nil)); auto.
    apply writes_only_same. reflexivity. }
  pose proof (advance_refl c h w) as Hrefl.
  unfold complete, bind.
  destruct p as [v|e|]; simpl.
  - rewrite resolveRequest_run.
    destruct (deliverable r) eqn:Hd.
    + destruct (delivered r (CbResult v)) as [v'|e'|]; simpl.
      * unfold ret. intros H. injection H as <- <-. simpl. auto.
      * rewrite rejectRequest_run.
        assert (Hd' : deliverable (set_callbackExecuted true r) = false).
        { unfold deliverable. simpl. apply andb_false_r. }
        rewrite Hd'. intros H. injection H as <- <-. simpl.
        split; [reflexivity|]. split; [apply Hcb|]. split; [reflexivity|].
        intros t H. discriminate H.
      * unfold ret. intros H. injection H as <- <-. simpl. auto.
    + simpl. unfold ret. intros H. injection H as <- <-. simpl. auto.
  - rewrite rejectRequest_run.
    destruct (deliverable r); intros H; injection H as <- <-; simpl;
      (split; [reflexivity|]; split; [solve [auto]|]; split; [reflexivity|];
       intros t H; discriminate H).
  - unfold ret. simpl. intros H. injection H as <- <-. simpl. auto.
Qed.

Lemma exchange_bound_adds (r : descriptor) (w : world) :
  ((if allowed r w then 0 else 2) + 1
   + (if retry r then 0 else exchange_bound (set_retry true r))
   <= exchange_bound r)%nat.
Proof.
  unfold exchange_bound, allowed. simpl.
  destruct (String.eqb (path r) auth_path); rewrite ?orb_true_r, ?orb_false_r;
    destruct (retry r); rewrite ?andb_false_r; simpl; try lia.
  destruct (truthy (token (this w))); simpl; lia.
Qed.

Lemma body_keeps_history (P : platform)
      (self : descriptor -> world -> option (promise * descriptor * world)) :
  keeps_history P self -> keeps_history P (mapiRequest_body P self).
Proof.
  intros Hself r w p r' w' H.
  unfold mapiRequest_body in H. rewrite chain_split in H. unfold bind in H.
  destruct (attempt P self (MkFrame w r None)) as [[p4 f4]|] eqn:Ha; [|discriminate].
  destruct (complete p4 f4) as [[x f5]|] eqn:Hc; [|discriminate].
  injection H as <- <- <-.
  unfold attempt in Ha.
  assert (Hassoc :
    forall f, bind checkAuthentication
         (fun p => bind (catch_ p (fun _ => authenticate P self None))
            (fun p => bind (then_ p (fun _ => executeRequest P))
               (fun p => catch_ p (decideWhetherToRequeue self)))) f
    = bind (bind checkAuthentication
                 (fun p => catch_ p (fun _ => authenticate P self None)))
           (fun p => bind (then_ p (fun _ => executeRequest P))
              (fun p => catch_ p (decideWhetherToRequeue self))) f).
  { intros f. unfold bind.
    destruct (checkAuthentication f) as [[p1 f1]|]; reflexivity. }
  rewrite Hassoc in Ha. clear Hassoc.
  unfold bind at 1 in Ha.
  destruct (bind checkAuthentication _ (MkFrame w r None)) as [[p2 f2]|] eqn:Hauth;
    [|discriminate].
  apply (auth_step P self w r p2 f2 Hself) in Hauth.
  destruct Hauth as (w2 & -> & Hadv2 & Hfirst2).
  unfold bind in Ha.
  destruct (then_ p2 _ (MkFrame w2 r None)) as [[p3 f3]|] eqn:Hexec; [|discriminate].
  apply (exec_step P (this w)) in Hexec.
  destruct Hexec as (w3 & -> & Hadv3 & Hfirst3 & Htok3).
  apply (decide_step P) in Ha; [|exact Hself].
  destruct Ha as (w4 & r4 & -> & Hadv4 & Hretry4).
  apply (complete_step (this w) (handler r)) in Hc.
  destruct Hc as (Hretry5 & Hadv5 & Hthis5 & Hres5). simpl in Hretry5.
  pose proof (advance_trans _ _ _ _ _ _ _ Hadv2 Hadv3) as Hadv23.
  assert (Hep3 : endpoint (this w3) = endpoint (this w)).
  { destruct Hadv23 as (_ & _ & (He & _) & _). exact He. }
  apply (advance_client (this w3) (this w)) in Hadv4; [|congruence].
  pose proof (advance_trans _ _ _ _ _ _ _ Hadv23 Hadv4) as Hadv234.
  pose proof (advance_trans _ _ _ _ _ _ _ Hadv234 Hadv5) as Hall.
  unfold history.
  split; [|split; [|split]].
  - (* the first exchange *)
    destruct (advance_trans _ _ _ _ _ _ _ Hadv4 Hadv5) as ((l45 & Ht45) & _).
    destruct (allowed r w) eqn:Hal.
    + destruct Hfirst2 as [-> ->].
      rewrite (Hfirst3 VUndefined eq_refl) in Ht45.
      rewrite (first_request_allowed P r w Hal).
      exists l45. exact Ht45.
    + destruct Hfirst2 as [(l2 & Ht2) _].
      destruct Hadv3 as ((l3 & Ht3) & _).
      exists (l45 ++ l3 ++ l2)%list.
      rewrite Ht45, Ht3, Ht2. rewrite <- !app_assoc. reflexivity.
  - (* the world *)
    apply (advance_weaken _ _ _ _ _ _ (exchange_bound_adds r w)).
    apply (advance_weaken _ _ _ _ _ _ (Nat.eq_le_incl _ _ (Nat.add_0_r _))) in Hall.
    exact Hall.
  - (* a retry comes after an authentication *)
    intros Hpath Hr Hr'.
    destruct Hretry4 as [(-> & _)|(_ & Hlt & _)]; [congruence|].
    specialize (Hlt Hpath).
    rewrite !(authentications_endpoint (this w) (this w3) _ Hep3) in Hlt.
    pose proof (advance_grows _ (this w) _ _ _ _ Hadv23).
    pose proof (advance_grows _ (this w) _ _ _ _ Hadv5).
    lia.
  - (* the token of a resolved authentication *)
    intros Hh t Ht. apply Hres5 in Ht. rewrite Hthis5.
    destruct Hretry4 as [(_ & -> & Hp)|(_ & _ & Htok4)]; auto.
Qed.

Theorem mapiRequest_history (P : platform) (fuel : nat) :
  keeps_history P (mapiRequest P fuel).
Proof.
  induction fuel as [|n IH].
  - intros r w p r' w' H. discriminate.
  - simpl. apply body_keeps_history. exact IH.
Qed.

(** Every run returns, with the invariant and the history. *)
Lemma mapiRequest_run (P : platform) (fuel : nat) (r : descriptor) (w : world) :
  (enough <= fuel)%nat ->
  exists p r' w', mapiRequest P fuel r w = Some (p, r', w')
                 /\ invariant r w p r' w' /\ history P r w p r' w'.
Proof.
  intros Hf.
  destruct (mapiRequest_returns P fuel r w Hf) as (p & r' & w' & Hrun & Hinv).
  exists p, r', w'. split; [exact Hrun|]. split; [exact Hinv|].
  exact (mapiRequest_history P fuel r w p r' w' Hrun).
Qed.

(** The body of the authentication request. *)
Lemma auth_descriptor_body (P : platform) (c : client) (cb : option user_callback) :
  body (auth_descriptor P c cb)
  = Some ("client_id=" ++ encodeURIComponent P (id c)
          ++ "&client_secret=" ++ encodeURIComponent P (secret c)
          ++ "&grant_type=client_credentials").
Proof.
  unfold auth_descriptor, toFormData. cbn [body].
  rewrite toFormData_fold, MiniJSONFacts.append_nil_l.
  rewrite pairs_joined by discriminate. rewrite drop_last_snoc.
  cbn [map String.concat fst snd].
  rewrite !MiniJSONFacts.append_assoc. reflexivity.
Qed.

(** X6.  Every run begins with an exchange.  It is the request itself,
    under the stored token, when the client holds a token and the request
    is not a retry, or when the request goes to the authentication path;
    in every other case it is the authentication request: a POST to
    [/oauth2/token] whose body is the form [client_id], [client_secret],
    [grant_type=client_credentials] with the two credentials encoded. *)
Theorem first_exchange (P : platform) (fuel : nat) (r : descriptor) (w : world) :
  (enough <= fuel)%nat ->
  exists p r' w' later first,
    mapiRequest P fuel r w = Some (p, r', w')
    /\ trace w' = (later ++ Transport first :: trace w)%list
    /\ first
       = if (truthy (token (this w)) && negb (retry r))
            || String.eqb (path r) "/oauth2/token"
         then MkRequest (method r) (endpoint (this w) ++ path r) (body r)
                        (query r) (token (this w))
         else MkRequest POST (endpoint (this w) ++ "/oauth2/token")
                (Some ("client_id=" ++ encodeURIComponent P (id (this w))
                       ++ "&client_secret=" ++ encodeURIComponent P (secret (this w))
                       ++ "&grant_type=client_credentials"))
                None (token (this w)).
Proof.
  intros Hf.
  destruct (mapiRequest_run P fuel r w Hf) as (p & r' & w' & Hrun & _ & Hh).
  destruct Hh as ((later & Ht) & _).
  exists p, r', w', later, (first_request P r w).
  split; [exact Hrun|]. split; [exact Ht|].
  unfold first_request, allowed. fold auth_path.
  destruct ((truthy (token (this w)) && negb (retry r))
            || String.eqb (path r) auth_path); [reflexivity|].
  rewrite auth_descriptor_body. reflexivity.
Qed.

Lemma exchange_count_first (later : list event) (rq : request) (tr : list event) :
  (S (exchange_count tr) <= exchange_count (later ++ Transport rq :: tr))%nat.
Proof. unfold exchange_count. rewrite count_app. simpl. lia. Qed.

(** X7.  A run makes at least one exchange and at most six; at most three
    when the descriptor is already marked as a retry, and at most two
    when it goes to the authentication path. *)
Theorem exchange_limit (P : platform) (fuel : nat) (r : descriptor) (w : world) :
  (enough <= fuel)%nat ->
  exists p r' w',
    mapiRequest P fuel r w = Some (p, r', w')
    /\ (exchange_count (trace w) + 1 <= exchange_count (trace w'))%nat
    /\ (exchange_count (trace w') <= exchange_count (trace w) + 6)%nat
    /\ (retry r = true ->
        (exchange_count (trace w') <= exchange_count (trace w) + 3)%nat)
    /\ (path r = "/oauth2/token" ->
        (exchange_count (trace w') <= exchange_count (trace w) + 2)%nat).
Proof.
  intros Hf.
  destruct (mapiRequest_run P fuel r w Hf) as (p & r' & w' & Hrun & _ & Hh).
  destruct Hh as ((later & Ht) & (_ & Hx & _) & _).
  exists p, r', w'. split; [exact Hrun|].
  pose proof (exchange_count_first later (first_request P r w) (trace w)) as H1.
  rewrite <- Ht in H1.
  unfold exchange_bound in Hx.
  split; [lia|]. split; [|split].
  - destruct (String.eqb (path r) auth_path), (retry r); lia.
  - intros Hr. rewrite Hr in Hx.
    destruct (String.eqb (path r) auth_path); lia.
  - intros Hp. fold auth_path in Hp. rewrite Hp, String.eqb_refl in Hx.
    destruct (retry r); lia.
Qed.





(** X9.  A run leaves the files alone unless the request is in file mode,
    and in file mode it touches no other file than the one it was given. *)
Theorem files_outside_file_mode (P : platform) (fuel : nat) (r : descriptor)
    (w : world) :
  (enough <= fuel)%nat ->
  exists p r' w',
    mapiRequest P fuel r w = Some (p, r', w')
    /\ (file_mode (handler r) = false -> files w' = files w)
    /\ (forall fp k, handler r = HProcessFile fp -> k <> fp ->
                     files w' !! k = files w !! k).
Proof.
  intros Hf.
  destruct (mapiRequest_run P fuel r w Hf) as (p & r' & w' & Hrun & _ & Hh).
  destruct Hh as (_ & (_ & _ & _ & Hfiles & _) & _).
  exists p, r', w'. split; [exact Hrun|].
  unfold writes_only in Hfiles.
  split.
  - intros Hm. destruct (handler r); try exact Hfiles. discriminate Hm.
  - intros fp k Hh Hk. rewrite Hh in Hfiles. apply Hfiles. exact Hk.
Qed.

(** X10.  A run never changes the credentials or the endpoint of the
    client, and a run on a request of the API changes the stored token
    only if it has made an exchange with the authentication endpoint. *)
Theorem token_changes_by_authentication (P : platform) (fuel : nat) (r : descriptor)
    (w : world) :
  (enough <= fuel)%nat ->
  exists p r' w',
    mapiRequest P fuel r w = Some (p, r', w')
    /\ id (this w') = id (this w)
    /\ secret (this w') = secret (this w)
    /\ endpoint (this w') = endpoint (this w)
    /\ (handler r <> HProcessAuth ->
        token (this w') <> token (this w) ->
        (authentications (this w) (trace w) < authentications (this w) (trace w'))%nat).
Proof.
  intros Hf.
  destruct (mapiRequest_run P fuel r w Hf) as (p & r' & w' & Hrun & _ & Hh).
  destruct Hh as (_ & Hadv & _).
  pose proof (advance_grows _ (this w) _ _ _ _ Hadv) as Hgrow.
  destruct Hadv as (_ & _ & (He & Hi & Hs) & _ & Htok).
  exists p, r', w'. split; [exact Hrun|].
  repeat split; auto.
  intros Hh Hne.
  destruct (Nat.eq_dec (authentications (this w) (trace w'))
                       (authentications (this w) (trace w))) as [E|E]; [|lia].
  exfalso. apply Hne. apply Htok; auto.
Qed.

(** X11.  [authenticate]: one or two exchanges, all of them with the
    authentication endpoint; the files are left alone; and when its
    promise is resolved, the value it is resolved with is the token the
    client holds from then on. *)
Theorem authenticate_stores_token (P : platform) (fuel : nat)
    (cb : option user_callback) (f : frame) :
  (enough <= fuel)%nat ->
  exists p w',
    authenticate P (mapiRequest P fuel) cb f
    = Some (p, MkFrame w' (fr_r f) (fr_promise f))
    /\ (exchange_count (trace (fr_world f)) + 1 <= exchange_count (trace w'))%nat
    /\ (exchange_count (trace w') <= exchange_count (trace (fr_world f)) + 2)%nat
    /\ (forall q, q <> endpoint (this (fr_world f)) ++ "/oauth2/token" ->
                  count (is_transport_to q) (trace w')
                  = count (is_transport_to q) (trace (fr_world f)))
    /\ files w' = files (fr_world f)
    /\ (forall t, p = Resolved t -> token (this w') = t).
Proof.
  intros Hf. destruct f as [w r c]. simpl.
  unfold authenticate, bind, get_this. simpl.
  destruct (mapiRequest_run P fuel (auth_descriptor P (this w) cb) w Hf)
    as (p & r' & w' & Hrun & Hinv & Hh).
  rewrite Hrun. exists p, w'. split; [reflexivity|].
  destruct Hh as ((later & Ht) & (_ & Hx & _ & Hfiles & _) & _ & Htok).
  destruct Hinv as (_ & _ & _ & Hq & _).
  simpl in Hx, Hfiles, Hq, Htok.
  pose proof (exchange_count_first later
                (first_request P (auth_descriptor P (this w) cb) w) (trace w)) as H1.
  rewrite <- Ht in H1.
  split; [lia|]. split; [exact Hx|].
  split; [intros q Hne; apply Hq; exact Hne|].
  split; [exact Hfiles|].
  apply Htok. reflexivity.
Qed.

(** ** A request that is accepted at once *)

Lemma attempt_accepted (P : platform)
      (self : descriptor -> world -> option (promise * descriptor * world))
      (r : descriptor) (w : world) (res : response) :
  allowed r w = true ->
  transport P (trace w)
    (MkRequest (method r) (endpoint (this w) ++ path r) (body r) (query r)
               (token (this w))) = Completed res ->
  forall v,
    fst (run_handler P (handler r) res
           (log (Transport (MkRequest (method r) (endpoint (this w) ++ path r) (body r)
                                      (query r) (token (this w)))) w))
    = Resolved v ->
    attempt P self (MkFrame w r None)
    = Some (Resolved v,
            MkFrame (snd (run_handler P (handler r) res
                            (log (Transport (MkRequest (method r)
                                               (endpoint (this w) ++ path r) (body r)
                                               (query r) (token (this w)))) w)))
                    r None).
Proof.
  intros Hal Htr v Hv.
  unfold attempt, bind. rewrite checkAuthentication_run. simpl.
  fold (allowed r w). rewrite Hal. simpl. unfold ret.
  rewrite executeRequest_run. simpl. rewrite Htr, Hv. reflexivity.
Qed.

(** X12.  A request that may go out at once and whose answer the handler
    accepts takes a single exchange and no further call of [mapiRequest]:
    the promise is resolved with the value of the handler, and a callback
    is called with it right after the exchange; only a callback that
    throws turns the success into a rejection. *)
Theorem accepted_at_once (P : platform) (n : nat) (r : descriptor) (w : world)
    (res : response) (v : jsval) :
  allowed r w = true ->
  transport P (trace w)
    (MkRequest (method r) (endpoint (this w) ++ path r) (body r) (query r)
               (token (this w))) = Completed res ->
  fst (run_handler P (handler r) res
         (log (Transport (MkRequest (method r) (endpoint (this w) ++ path r) (body r)
                                    (query r) (token (this w)))) w))
  = Resolved v ->
  exists p r' w',
    mapiRequest P (S n) r w = Some (p, r', w')
    /\ p = (if deliverable r then delivered r (CbResult v) else Resolved v)
    /\ retry r' = retry r
    /\ callbackExecuted r' = (has_callback r || callbackExecuted r)
    /\ trace w'
       = ((if deliverable r then Callback (CbResult v) :: nil else nil)
          ++ Transport (MkRequest (method r) (endpoint (this w) ++ path r) (body r)
                                  (query r) (token (this w)))
          :: trace w)%list
    /\ this w'
       = this (snd (run_handler P (handler r) res
                      (log (Transport (MkRequest (method r)
                                         (endpoint (this w) ++ path r) (body r)
                                         (query r) (token (this w)))) w)))
    /\ files w'
       = files (snd (run_handler P (handler r) res
                       (log (Transport (MkRequest (method r)
                                          (endpoint (this w) ++ path r) (body r)
                                          (query r) (token (this w)))) w))).
Proof.
  intros Hal Htr Hv.
  simpl. unfold mapiRequest_body. rewrite chain_split. unfold bind.
  rewrite (attempt_accepted P (mapiRequest P n) r w res Hal Htr v Hv).
  set (rq := MkRequest (method r) (endpoint (this w) ++ path r) (body r) (query r)
                       (token (this w))).
  set (w1 := snd (run_handler P (handler r) res (log (Transport rq) w))).
  assert (Ht1 : trace w1 = Transport rq :: trace w).
  { destruct (run_handler_frame P (handler r) res (log (Transport rq) w)) as (Ht & _).
    exact Ht. }
  destruct (deliverable r) eqn:Hd.
  - destruct (complete_delivering (Resolved v) w1 r Hd) as (x & c & args & Hrun & Hc & Ha);
      [congruence|].
    rewrite Hrun. subst args.
    eexists. eexists. eexists. split; [reflexivity|]. simpl.
    rewrite Ht1. repeat split; auto.
    unfold deliverable in Hd. apply andb_true_iff in Hd as [-> _]. reflexivity.
  - destruct (complete_plain (Resolved v) w1 r Hd) as (x & c & Hrun & Hc).
    rewrite Hrun.
    eexists. eexists. eexists. split; [reflexivity|]. simpl.
    rewrite Ht1. repeat split; auto.
    unfold deliverable in Hd. destruct (has_callback r); simpl in *.
    + apply negb_false_iff in Hd. exact Hd.
    + reflexivity.
Qed.

Lemma processFile_saved (P : platform) (fp : string) (res : response) (w : world) :
  status_ok (statusCode res) = true ->
  writeFile_error P (files w) fp (trim (res_body res)) = None ->
  run_handler P (HProcessFile fp) res w
  = (Resolved (VString ("Results saved to " ++ fp ++ ".")),
     with_files (<[fp := trim (res_body res)]> (files w)) w).
Proof.
  intros Hs Hw. simpl. unfold processFile, process, saveToFile. cbv zeta.
  rewrite Hs, Hw. reflexivity.
Qed.

(** X13.  [getStats] in file mode, from a client that holds a token, with
    two valid dates, an answer of an accepted status and a file that can
    be written: one exchange, a POST of the converted query to
    [/v1/statistics]; the trimmed body of the answer is what the file
    holds afterwards; the promise is resolved with the message that names
    the file.  The format of the query plays no part. *)
Theorem getStats_saves_report (P : platform) (R : runtime) (n : nat)
    (qry : list (string * json)) (fp : string) (w : world)
    (res : response) (s e : string) :
  fp <> EmptyString ->
  Date_toISOString R (get_member "startDate" qry) = Some s ->
  Date_toISOString R (get_member "endDate" qry) = Some e ->
  truthy (token (this w)) = true ->
  transport P (trace w)
    (MkRequest POST (endpoint (this w) ++ "/v1/statistics")
       (Some (JSON_stringify R
                (JObj (set_member "endDate" (JStr e)
                         (set_member "startDate" (JStr s) qry)))))
       None (token (this w))) = Completed res ->
  status_ok (statusCode res) = true ->
  writeFile_error P (files w) fp (trim (res_body res)) = None ->
  exists r' w',
    getStats P R (S n) qry (Some fp) None w
    = (Returns (Some (Resolved (VString ("Results saved to " ++ fp ++ ".")), r', w')),
       set_member "endDate" (JStr e) (set_member "startDate" (JStr s) qry))
    /\ files w' = <[fp := trim (res_body res)]> (files w)
    /\ exchange_count (trace w') = S (exchange_count (trace w))
    /\ this w' = this w
    /\ retry r' = false.
Proof.
  intros Hfp Hs He Htok Htr Hok Hwr.
  unfold getStats, report_descriptor.
  destruct fp as [|c0 fp0]; [congruence|].
  set (fp := String c0 fp0) in *.
  change (determineStatsHandler qry (Some fp)) with (@Returns response_handler (HProcessFile fp)).
  cbv iota. rewrite Hs.
  rewrite (get_set_member "startDate" "endDate").
  change (String.eqb "endDate" "startDate") with false. cbv iota. rewrite He.
  cbn [fst snd submit].
  set (converted := set_member "endDate" (JStr e) (set_member "startDate" (JStr s) qry)).
  set (r := MkDescriptor POST "/v1/statistics" (Some (JSON_stringify R (JObj converted)))
                         None (HProcessFile fp) None false false).
  assert (Hal : allowed r w = true).
  { unfold allowed. simpl. rewrite Htok. reflexivity. }
  assert (Hrun : run_handler P (handler r) res
                   (log (Transport (MkRequest (method r) (endpoint (this w) ++ path r)
                                              (body r) (query r) (token (this w)))) w)
                 = (Resolved (VString ("Results saved to " ++ fp ++ ".")),
                    with_files (<[fp := trim (res_body res)]> (files w))
                      (log (Transport (MkRequest (method r) (endpoint (this w) ++ path r)
                                                 (body r) (query r) (token (this w)))) w))).
  { exact (processFile_saved P fp res (log (Transport _) w) Hok Hwr). }
  assert (Hd : deliverable r = false) by reflexivity.
  cbn [mapiRequest]. unfold mapiRequest_body. rewrite chain_split. unfold bind.
  rewrite (attempt_accepted P (mapiRequest P n) r w res Hal Htr
             (VString ("Results saved to " ++ fp ++ "."))) by (rewrite Hrun; reflexivity).
  rewrite Hrun. cbn [snd].
  match goal with
  | |- context [complete ?p (MkFrame ?w1 r None)] =>
      destruct (complete_plain p w1 r Hd) as (x & c & Hc & Hp); rewrite Hc
  end.
  cbn [fr_promise fr_r fr_world]. rewrite Hp.
  eexists. eexists. split; [reflexivity|].
  repeat split.
Qed.

(** ** The request after the authentication *)

Lemma allowed_false_path (r : descriptor) (w : world) (c : client) :
  allowed r w = false -> endpoint c ++ path r <> endpoint c ++ auth_path.
Proof.
  unfold allowed. intros H E.
  apply orb_false_iff in H as [_ H]. apply String.eqb_neq in H.
  apply append_inj_l in E. congruence.
Qed.

(** X16.  A failed authentication is final: when the client has to
    authenticate first and the authentication is rejected with an error
    whose text does not contain "401" (or the request is already a
    retry), the request itself is never sent; the error of the
    authentication goes to the callback, if there is one to call, and to
    the promise otherwise. *)
Theorem failed_authentication_is_final (P : platform) (fuel : nat) (r : descriptor)
    (w : world) (e : jserror) (a' : descriptor) (w1 : world) :
  (enough <= fuel)%nat ->
  allowed r w = false ->
  mapiRequest P fuel (auth_descriptor P (this w) None) w
  = Some (Rejected (Thrown e), a', w1) ->
  mentions_401 (Thrown e) = false \/ retry r = true ->
  exists p r' w',
    mapiRequest P fuel r w = Some (p, r', w')
    /\ p = (if deliverable r then Pending else Rejected (Thrown e))
    /\ retry r' = retry r
    /\ executions (this w) (path r) (trace w') = executions (this w) (path r) (trace w)
    /\ trace w'
       = ((if deliverable r then Callback (CbError (Thrown e)) :: nil else nil)
          ++ trace w1)%list.
Proof.
  intros Hf Hal Hnest Hfinal.
  destruct fuel as [|n]; [unfold enough in Hf; lia|].
  apply (nested_authentication P n _ _ _ Hf) in Hnest.
  assert (Hx : executions (this w) (path r) (trace w1)
               = executions (this w) (path r) (trace w)).
  { destruct (mapiRequest_invariant P n _ _ _ _ _ Hnest) as (_ & _ & _ & Hq & _).
    simpl in Hq. unfold executions.
    apply Hq; apply (allowed_false_path r w); exact Hal. }
  assert (Hgo : mentions_401 (Thrown e) && negb (retry r) = false).
  { destruct Hfinal as [-> | ->]; [reflexivity|apply andb_false_r]. }
  assert (Ha : attempt P (mapiRequest P n) (MkFrame w r None)
               = Some (Rejected (Thrown e), MkFrame w1 r None)).
  { unfold attempt, bind. rewrite checkAuthentication_run. simpl.
    fold (allowed r w). rewrite Hal. simpl.
    unfold authenticate, bind, get_this. simpl. rewrite Hnest. simpl.
    rewrite decideWhetherToRequeue_run. simpl reason_toString. cbv iota.
    rewrite Hgo. reflexivity. }
  simpl. unfold mapiRequest_body. rewrite chain_split. unfold bind. rewrite Ha.
  destruct (deliverable r) eqn:Hd.
  - destruct (complete_delivering (Rejected (Thrown e)) w1 r Hd)
      as (x & c & args & Hrun & Hc & Hargs); [congruence|].
    rewrite Hrun. subst args.
    eexists. eexists. eexists. split; [reflexivity|]. simpl.
    split; [exact Hc|]. split; [reflexivity|]. split; [|reflexivity].
    unfold executions in *. simpl. exact Hx.
  - destruct (complete_plain (Rejected (Thrown e)) w1 r Hd) as (x & c & Hrun & Hc).
    rewrite Hrun.
    eexists. eexists. eexists. split; [reflexivity|]. simpl.
    split; [exact Hc|]. split; [reflexivity|]. split; [exact Hx|reflexivity].
Qed.

(** X17.  When the client has to authenticate first and the
    authentication is resolved with a value, the next exchange is the
    request itself, and it goes out under that value as its token. *)
Theorem request_carries_new_token (P : platform) (fuel : nat) (r : descriptor)
    (w : world) (t : jsval) (a' : descriptor) (w1 : world) :
  (enough <= fuel)%nat ->
  allowed r w = false ->
  mapiRequest P fuel (auth_descriptor P (this w) None) w = Some (Resolved t, a', w1) ->
  exists p r' w' later,
    mapiRequest P fuel r w = Some (p, r', w')
    /\ trace w'
       = (later
          ++ Transport (MkRequest (method r) (endpoint (this w) ++ path r) (body r)
                                  (query r) t)
          :: trace w1)%list.
Proof.
  intros Hf Hal Hnest.
  destruct (mapiRequest_run P fuel r w Hf) as (p & r' & w' & Hrun & _).
  exists p, r', w'.
  destruct fuel as [|n]; [discriminate Hrun|].
  apply (nested_authentication P n _ _ _ Hf) in Hnest.
  assert (Htok : token (this w1) = t).
  { destruct (mapiRequest_history P n _ _ _ _ _ Hnest) as (_ & _ & _ & H).
    apply H; reflexivity. }
  assert (Hep : endpoint (this w1) = endpoint (this w)).
  { destruct (mapiRequest_invariant P n _ _ _ _ _ Hnest) as (_ & H & _). exact H. }
  pose proof Hrun as H.
  simpl in H. unfold mapiRequest_body in H. rewrite chain_split in H.
  unfold bind in H.
  destruct (attempt P (mapiRequest P n) (MkFrame w r None)) as [[p4 f4]|] eqn:Ha;
    [|discriminate].
  destruct (complete p4 f4) as [[x f5]|] eqn:Hc; [|discriminate].
  injection H as _ _ Hw. 
  unfold attempt, bind in Ha. rewrite checkAuthentication_run in Ha. simpl in Ha.
  fold (allowed r w) in Ha. rewrite Hal in Ha. simpl in Ha.
  unfold authenticate, bind, get_this in Ha. simpl in Ha. rewrite Hnest in Ha.
  destruct (then_ (Resolved t) (fun _ => executeRequest P) (MkFrame w1 r None))
    as [[p3 f3]|] eqn:Hexec; [|discriminate].
  apply (exec_step P (this w)) in Hexec.
  destruct Hexec as (w3 & -> & _ & Hfirst & _).
  specialize (Hfirst t eq_refl). rewrite Htok, Hep in Hfirst.
  apply (decide_step P) in Ha; [|exact (mapiRequest_history P n)].
  destruct Ha as (w4 & r4 & -> & ((l4 & Ht4) & _) & _).
  apply (complete_step (this w) (handler r)) in Hc.
  destruct Hc as (_ & ((l5 & Ht5) & _) & _).
  exists (l5 ++ l4)%list. split; [exact Hrun|].
  rewrite <- Hw, Ht5, Ht4, Hfirst. rewrite <- app_assoc. reflexivity.
Qed.

(** ** Endpoint methods that take identifiers only *)

Lemma identifier_endpoint_shape (R : runtime) (a b : jsval)
      (cb : option user_callback) (d : descriptor) :
  In d (identifier_endpoints R a b cb) ->
  String.eqb (path d) auth_path = false
  /\ body d = None /\ query d = None /\ retry d = false.
Proof.
  unfold identifier_endpoints. intros H.
  repeat (destruct H as [<-|H]; [repeat split; reflexivity|]).
  destruct H.
Qed.

(** X14.  Whatever identifiers they are given, even [undefined], the
    endpoint methods that take identifiers only never address the
    authentication path: from a client that holds a token the first
    exchange is their own request, with neither body nor query, under
    that token; from a client without a token it is a POST to
    [/oauth2/token]. *)
Theorem identifier_endpoints_first_exchange (P : platform) (R : runtime) (fuel : nat)
    (a b : jsval) (cb : option user_callback) (d : descriptor) (w : world) :
  In d (identifier_endpoints R a b cb) ->
  (enough <= fuel)%nat ->
  exists p r' w' later first,
    mapiRequest P fuel d w = Some (p, r', w')
    /\ trace w' = (later ++ Transport first :: trace w)%list
    /\ (truthy (token (this w)) = true ->
        first = MkRequest (method d) (endpoint (this w) ++ path d) None None
                          (token (this w)))
    /\ (truthy (token (this w)) = false ->
        rq_method first = POST
        /\ rq_path first = endpoint (this w) ++ "/oauth2/token").
Proof.
  intros Hin Hf.
  destruct (identifier_endpoint_shape R a b cb d Hin) as (Hp & Hb & Hq & Hr).
  destruct (mapiRequest_run P fuel d w Hf) as (p & r' & w' & Hrun & _ & Hh).
  destruct Hh as ((later & Ht) & _).
  exists p, r', w', later, (first_request P d w).
  split; [exact Hrun|]. split; [exact Ht|].
  unfold first_request, allowed. rewrite Hp, Hr. simpl negb.
  rewrite andb_true_r, orb_false_r.
  split; intros ->; [rewrite Hb, Hq; reflexivity|split; reflexivity].
Qed.

(** ** Version 0.8.1: what reaches the HTTP layer *)

(** X15.  In version 0.8.1 every call made by [executeRequest] reaches
    the HTTP layer as a request over [https:] to the host of the client
    with the four headers of [request], the bearer token among them.  A
    GET never carries a body: its data go into the path, behind a
    question mark that is there even when there are no data.  The other
    four methods pass the data on as the body and leave the path alone. *)
Theorem get_moves_data_to_path (R : runtime) (A : V081.api_client) (c : client)
    (m : http_method) (p : string) (data : jsval) :
  V081.o_method (V081.execute_call R A c m p data) = m
  /\ V081.o_protocol (V081.execute_call R A c m p data) = "https:"
  /\ V081.o_hostname (V081.execute_call R A c m p data) = V081.host A
  /\ V081.o_headers (V081.execute_call R A c m p data)
     = ("Authorization", "Bearer " ++ template R (token c))
       :: ("Accept", "application/json")
       :: ("Content-Type", "application/json")
       :: ("User-Agent", "criteo-nodejs-client/0.8.1") :: nil
  /\ (m = GET ->
      V081.o_path (V081.execute_call R A c m p data)
      = endpoint c ++ p ++ "?" ++ querystring_stringify R data
      /\ V081.o_body (V081.execute_call R A c m p data) = VUndefined)
  /\ (m <> GET ->
      V081.o_path (V081.execute_call R A c m p data) = endpoint c ++ p
      /\ V081.o_body (V081.execute_call R A c m p data) = data).
Proof.
  destruct m; simpl; repeat split; try congruence.
  apply MiniJSONFacts.append_assoc.
Qed.

(** ** Runs and instances *)

(** Six exchanges do happen: the authentication endpoint is reached at
    the second attempt only, twice, and the API refuses the first token. *)
Example six_exchanges_happen :
  match mapiRequest
          (Scenario.node
             (Scenario.scripted (Failed (Error "status 401"))
                (Scenario.token_response :: Scenario.unauthorized
                 :: Failed (Error "status 401") :: Scenario.token_response
                 :: Scenario.ok 200 "[]" :: nil)))
          enough (Scenario.campaigns None) (Scenario.fresh_world "") with
  | Some (p, r', w') =>
      p = Resolved (VData (JArr nil)) /\ exchange_count (trace w') = 6%nat
  | None => False
  end.
Proof. vm_compute. split; reflexivity. Qed.

Lemma format_decides_witness :
  (@None string = None \/ @None string = Some EmptyString)
  /\ determineStatsHandler Reports.open_query None = Returns HProcessJSON
  /\ determineStatsHandler Reports.csv_query None = Returns HProcessResponse
  /\ exists e, determineStatsHandler nil None = Throws e /\ err_name e = "TypeError".
Proof.
  split; [left; reflexivity|].
  split; [|split].
  - apply (proj1 (format_decides Reports.open_query None (or_introl eq_refl)) "JSON");
      [reflexivity|].
    exists "J"%char, "S"%char, "O"%char, "N"%char. repeat split; auto.
  - apply (proj1 (proj2 (format_decides Reports.csv_query None (or_introl eq_refl))) "csv");
      [reflexivity|].
    intros (c1 & c2 & c3 & c4 & H & _). discriminate H.
  - apply (proj2 (proj2 (format_decides nil None (or_introl eq_refl)))).
    intros s H. discriminate H.
Defined.

Lemma report_converts_dates_witness :
  determineStatsHandler Reports.csv_query None = Returns HProcessResponse
  /\ Date_toISOString Reports.plain_runtime (get_member "startDate" Reports.csv_query)
     = Some "2018-09-25T00:00:00.000Z"
  /\ Date_toISOString Reports.plain_runtime (get_member "endDate" Reports.csv_query)
     = Some "2018-09-26T00:00:00.000Z"
  /\ exists converted,
       report_descriptor Reports.plain_runtime "/v1/statistics" Reports.csv_query None None
       = (Returns (MkDescriptor POST "/v1/statistics"
                     (Some (JSON_stringify Reports.plain_runtime (JObj converted)))
                     None HProcessResponse None false false),
          converted)
       /\ get_member "startDate" converted = VData (JStr "2018-09-25T00:00:00.000Z").
Proof.
  split; [reflexivity|]. split; [reflexivity|]. split; [reflexivity|].
  destruct (report_converts_dates Reports.plain_runtime "/v1/statistics"
              Reports.csv_query None None HProcessResponse
              "2018-09-25T00:00:00.000Z" "2018-09-26T00:00:00.000Z"
              eq_refl eq_refl eq_refl)
    as (converted & Hd & Hs & _).
  exists converted. split; [exact Hd|exact Hs].
Defined.

Lemma report_fails_early_witness :
  determineStatsHandler Reports.open_query None = Returns HProcessJSON
  /\ Date_toISOString Reports.plain_runtime (get_member "startDate" Reports.open_query)
     = Some "2018-09-25T00:00:00.000Z"
  /\ Date_toISOString Reports.plain_runtime (get_member "endDate" Reports.open_query)
     = None
  /\ exists left,
       getStats (Scenario.node Scenario.down) Reports.plain_runtime enough
                Reports.open_query None None (Scenario.fresh_world "tok")
       = (Throws invalid_time, left)
       /\ get_member "startDate" left = VData (JStr "2018-09-25T00:00:00.000Z").
Proof.
  split; [reflexivity|]. split; [reflexivity|]. split; [reflexivity|].
  destruct (proj2 (report_fails_early (Scenario.node Scenario.down) Reports.plain_runtime
                     enough Reports.open_query None None (Scenario.fresh_world "tok"))
              HProcessJSON "2018-09-25T00:00:00.000Z" eq_refl eq_refl eq_refl)
    as (left & _ & Hg & _ & Hs & _).
  exists left. split; [exact Hg|exact Hs].
Defined.

Lemma first_exchange_witness :
  (enough <= enough)%nat
  /\ exists p r' w' later,
       mapiRequest (Scenario.node (Scenario.by_path Scenario.token_response
                                     (Scenario.ok 200 "[]")))
                   enough (Scenario.campaigns None) (Scenario.fresh_world "")
       = Some (p, r', w')
       /\ trace w'
          = (later
             ++ Transport
                  (MkRequest POST "/oauth2/token"
                     (Some "client_id=id&client_secret=secret&grant_type=client_credentials")
                     None (VString EmptyString))
             :: nil)%list.
Proof.
  split; [apply le_n|].
  destruct (first_exchange (Scenario.node (Scenario.by_path Scenario.token_response
                                             (Scenario.ok 200 "[]")))
              enough (Scenario.campaigns None) (Scenario.fresh_world "") (le_n enough))
    as (p & r' & w' & later & first & Hrun & Ht & Hfirst).
  exists p, r', w', later. split; [exact Hrun|].
  rewrite Ht, Hfirst. reflexivity.
Defined.

Lemma exchange_limit_witness :
  (enough <= enough)%nat
  /\ exists p r' w',
       mapiRequest (Scenario.node Scenario.always_401) enough
                   (Scenario.campaigns None) (Scenario.fresh_world "tok")
       = Some (p, r', w')
       /\ (1 <= exchange_count (trace w'))%nat
       /\ (exchange_count (trace w') <= 6)%nat.
Proof.
  split; [apply le_n|].
  destruct (exchange_limit (Scenario.node Scenario.always_401) enough
              (Scenario.campaigns None) (Scenario.fresh_world "tok") (le_n enough))
    as (p & r' & w' & Hrun & Hlo & Hhi & _).
  exists p, r', w'. split; [exact Hrun|]. split; [exact Hlo|exact Hhi].
Defined.


Lemma files_outside_file_mode_witness :
  (enough <= enough)%nat
  /\ exists p r' w',
       mapiRequest (Scenario.node (Scenario.by_path Scenario.token_response
                                     (Scenario.ok 200 "a,b")))
                   enough (Scenario.stats_to_file "out.csv") (Scenario.fresh_world "tok")
       = Some (p, r', w')
       /\ files w' !! "other.csv" = files (Scenario.fresh_world "tok") !! "other.csv".
Proof.
  split; [apply le_n|].
  destruct (files_outside_file_mode
              (Scenario.node (Scenario.by_path Scenario.token_response
                                (Scenario.ok 200 "a,b")))
              enough (Scenario.stats_to_file "out.csv") (Scenario.fresh_world "tok")
              (le_n enough))
    as (p & r' & w' & Hrun & _ & Hother).
  exists p, r', w'. split; [exact Hrun|].
  apply (Hother "out.csv" "other.csv"); [reflexivity|discriminate].
Defined.

Lemma token_changes_by_authentication_witness :
  (enough <= enough)%nat
  /\ exists p r' w',
       mapiRequest (Scenario.node Scenario.expired_token) enough
                   (Scenario.campaigns None) (Scenario.fresh_world "stale")
       = Some (p, r', w')
       /\ id (this w') = "id"
       /\ secret (this w') = "secret"
       /\ token (this w') <> VString "stale"
       /\ (authentications (this (Scenario.fresh_world "stale"))
                           (trace (Scenario.fresh_world "stale"))
           < authentications (this (Scenario.fresh_world "stale")) (trace w'))%nat.
Proof.
  split; [apply le_n|].
  destruct (token_changes_by_authentication (Scenario.node Scenario.expired_token) enough
              (Scenario.campaigns None) (Scenario.fresh_world "stale") (le_n enough))
    as (p & r' & w' & Hrun & Hi & Hs & _ & Himp).
  assert (Hne : token (this w') <> VString "stale").
  { assert (E : match mapiRequest (Scenario.node Scenario.expired_token) enough
                        (Scenario.campaigns None) (Scenario.fresh_world "stale") with
                | Some (_, _, w1) => token (this w1) = VString "fresh"
                | None => False
                end) by (vm_compute; reflexivity).
    rewrite Hrun in E. rewrite E. discriminate. }
  exists p, r', w'. split; [exact Hrun|]. split; [exact Hi|]. split; [exact Hs|].
  split; [exact Hne|].
  apply Himp; [discriminate|exact Hne].
Defined.

Lemma authenticate_stores_token_witness :
  (enough <= enough)%nat
  /\ exists p w',
       authenticate (Scenario.node (Scenario.by_path Scenario.token_response
                                      (Scenario.ok 200 "[]")))
                    (mapiRequest (Scenario.node (Scenario.by_path Scenario.token_response
                                                   (Scenario.ok 200 "[]"))) enough)
                    None (MkFrame (Scenario.fresh_world "") (Scenario.campaigns None) None)
       = Some (p, MkFrame w' (Scenario.campaigns None) None)
       /\ p = Resolved (VString "fresh")
       /\ token (this w') = VString "fresh".
Proof.
  split; [apply le_n|].
  destruct (authenticate_stores_token
              (Scenario.node (Scenario.by_path Scenario.token_response
                                (Scenario.ok 200 "[]")))
              enough None
              (MkFrame (Scenario.fresh_world "") (Scenario.campaigns None) None)
              (le_n enough))
    as (p & w' & Hrun & _ & _ & _ & _ & Htok).
  assert (Hp : p = Resolved (VString "fresh")).
  { assert (E : match authenticate
                        (Scenario.node (Scenario.by_path Scenario.token_response
                                          (Scenario.ok 200 "[]")))
                        (mapiRequest
                           (Scenario.node (Scenario.by_path Scenario.token_response
                                             (Scenario.ok 200 "[]"))) enough)
                        None
                        (MkFrame (Scenario.fresh_world "") (Scenario.campaigns None) None)
                with
                | Some (p1, _) => p1 = Resolved (VString "fresh")
                | None => False
                end) by (vm_compute; reflexivity).
    rewrite Hrun in E. exact E. }
  exists p, w'. split; [exact Hrun|]. split; [exact Hp|].
  apply Htok. exact Hp.
Defined.

Lemma accepted_at_once_witness :
  allowed (Scenario.campaigns (Some Scenario.quiet)) (Scenario.fresh_world "tok") = true
  /\ exists p r' w',
       mapiRequest (Scenario.node (Scenario.by_path Scenario.token_response
                                     (Scenario.ok 200 "[]")))
                   1 (Scenario.campaigns (Some Scenario.quiet)) (Scenario.fresh_world "tok")
       = Some (p, r', w')
       /\ p = Resolved (VData (JArr nil))
       /\ trace w'
          = Callback (CbResult (VData (JArr nil)))
            :: Transport (Scenario.campaigns_request "tok") :: nil.
Proof.
  split; [reflexivity|].
  destruct (accepted_at_once
              (Scenario.node (Scenario.by_path Scenario.token_response
                                (Scenario.ok 200 "[]")))
              0 (Scenario.campaigns (Some Scenario.quiet)) (Scenario.fresh_world "tok")
              (MkResponse 200 "[]") (VData (JArr nil)) eq_refl eq_refl eq_refl)
    as (p & r' & w' & Hrun & Hp & _ & _ & Ht & _).
  exists p, r', w'. split; [exact Hrun|]. split; [exact Hp|exact Ht].
Defined.

Lemma getStats_saves_report_witness :
  "out.csv" <> EmptyString
  /\ truthy (token (this (Scenario.fresh_world "tok"))) = true
  /\ status_ok 200 = true
  /\ exists r' w',
       getStats (Scenario.node (Scenario.by_path Scenario.token_response
                                  (Scenario.ok 200 " a,b ")))
                Reports.plain_runtime 1 Reports.csv_query (Some "out.csv") None
                (Scenario.fresh_world "tok")
       = (Returns (Some (Resolved (VString "Results saved to out.csv."), r', w')),
          Reports.csv_query)
       /\ files w' !! "out.csv" = Some "a,b".
Proof.
  split; [discriminate|]. split; [reflexivity|]. split; [reflexivity|].
  destruct (getStats_saves_report
              (Scenario.node (Scenario.by_path Scenario.token_response
                                (Scenario.ok 200 " a,b ")))
              Reports.plain_runtime 0 Reports.csv_query "out.csv"
              (Scenario.fresh_world "tok") (MkResponse 200 " a,b ")
              "2018-09-25T00:00:00.000Z" "2018-09-26T00:00:00.000Z")
    as (r' & w' & Hrun & Hfiles & _);
    [discriminate|reflexivity|reflexivity|reflexivity|reflexivity|reflexivity|reflexivity|].
  exists r', w'. split; [exact Hrun|].
  rewrite Hfiles. apply lookup_insert_eq.
Defined.

Lemma identifier_endpoints_first_exchange_witness :
  In (getPortfolio None)
     (identifier_endpoints Reports.plain_runtime VUndefined VUndefined None)
  /\ (enough <= enough)%nat
  /\ exists p r' w' later first,
       mapiRequest (Scenario.node (Scenario.by_path Scenario.token_response
                                     (Scenario.ok 200 "[]")))
                   enough (getPortfolio None) (Scenario.fresh_world "tok")
       = Some (p, r', w')
       /\ trace w' = (later ++ Transport first :: nil)%list
       /\ first = MkRequest GET "/v1/portfolio" None None (VString "tok").
Proof.
  assert (Hin : In (getPortfolio None)
                   (identifier_endpoints Reports.plain_runtime VUndefined VUndefined None)).
  { unfold identifier_endpoints. do 6 right. left. reflexivity. }
  split; [exact Hin|]. split; [apply le_n|].
  destruct (identifier_endpoints_first_exchange
              (Scenario.node (Scenario.by_path Scenario.token_response
                                (Scenario.ok 200 "[]")))
              Reports.plain_runtime enough VUndefined VUndefined None
              (getPortfolio None) (Scenario.fresh_world "tok") Hin (le_n enough))
    as (p & r' & w' & later & first & Hrun & Ht & Hfirst & _).
  exists p, r', w', later, first. split; [exact Hrun|]. split; [exact Ht|].
  apply Hfirst. reflexivity.
Defined.

Lemma failed_authentication_is_final_witness :
  (enough <= enough)%nat
  /\ allowed (Scenario.campaigns None) (Scenario.fresh_world "") = false
  /\ mentions_401 (Thrown auth_error) = false
  /\ exists p r' w',
       mapiRequest (Scenario.node Scenario.down) enough (Scenario.campaigns None)
                   (Scenario.fresh_world "")
       = Some (p, r', w')
       /\ p = Rejected (Thrown auth_error)
       /\ executions (this (Scenario.fresh_world "")) (path (Scenario.campaigns None))
                     (trace w') = 0%nat.
Proof.
  split; [apply le_n|]. split; [reflexivity|]. split; [reflexivity|].
  destruct (failed_authentication_is_final (Scenario.node Scenario.down) enough
              (Scenario.campaigns None) (Scenario.fresh_world "") auth_error
              (auth_descriptor (Scenario.node Scenario.down)
                               (this (Scenario.fresh_world "")) None)
              (log (Transport
                      (MkRequest POST "/oauth2/token"
                         (Some "client_id=id&client_secret=secret&grant_type=client_credentials")
                         None (VString EmptyString)))
                   (Scenario.fresh_world ""))
              (le_n enough) eq_refl)
    as (p & r' & w' & Hrun & Hp & _ & Hx & _);
    [vm_compute; reflexivity|left; reflexivity|].
  exists p, r', w'. split; [exact Hrun|]. split; [exact Hp|exact Hx].
Defined.

Lemma request_carries_new_token_witness :
  (enough <= enough)%nat
  /\ allowed (Scenario.campaigns None) (Scenario.fresh_world "") = false
  /\ exists p r' w' later,
       mapiRequest (Scenario.node (Scenario.by_path Scenario.token_response
                                     (Scenario.ok 200 "[]")))
                   enough (Scenario.campaigns None) (Scenario.fresh_world "")
       = Some (p, r', w')
       /\ trace w'
          = (later
             ++ Transport (Scenario.campaigns_request "fresh")
             :: Transport
                  (MkRequest POST "/oauth2/token"
                     (Some "client_id=id&client_secret=secret&grant_type=client_credentials")
                     None (VString EmptyString))
             :: nil)%list.
Proof.
  split; [apply le_n|]. split; [reflexivity|].
  destruct (request_carries_new_token
              (Scenario.node (Scenario.by_path Scenario.token_response
                                (Scenario.ok 200 "[]")))
              enough (Scenario.campaigns None) (Scenario.fresh_world "")
              (VString "fresh")
              (auth_descriptor (Scenario.node (Scenario.by_path Scenario.token_response
                                                 (Scenario.ok 200 "[]")))
                               (this (Scenario.fresh_world "")) None)
              (MkWorld (MkClient "id" "secret" EmptyString (VString "fresh")) ∅
                 (Transport
                    (MkRequest POST "/oauth2/token"
                       (Some "client_id=id&client_secret=secret&grant_type=client_credentials")
                       None (VString EmptyString)) :: nil))
              (le_n enough) eq_refl)
    as (p & r' & w' & later & Hrun & Ht);
    [vm_compute; reflexivity|].
  exists p, r', w', later. split; [exact Hrun|exact Ht].
Defined.
